(** * Helpdesk client (frontend/auth.js, final variant): model and properties

    The page script is embedded as functions over an explicit [World]:
    the module-level variables, the browser state it touches (storage,
    location, the DOM elements it reads and writes, pending timers) and the
    outside world (the server's answers, the live-update sockets).

    Conventions of the embedding.
    - A JavaScript string is a [string] holding its UTF-8 bytes.
    - An [async] function is run to completion where it is called: [await]
      is sequencing.  Interleavings of handlers that are pending at the same
      time are outside the model.
    - [console.log/warn/error] have no effect on the world and are left out.
    - A JavaScript number that holds an integer is a [Z].  The script's
      arithmetic on page numbers and their decimal text are exact on safe
      integers (of size below 2^53); what is stated about page numbers is
      stated for those.
    - Markup assigned to [innerHTML] is kept as the list of blocks that the
      template produces ([Node]), together with the data it was built from,
      instead of the markup text. *)

From Stdlib Require Import Ascii.
From stdpp Require Import gmap strings list sorting pretty.

(** ** Strings *)

Module JsString.

(** [String.prototype.trim] strips the ECMAScript WhiteSpace and
    LineTerminator code points from both ends.  On UTF-8 bytes these are
    six single bytes, U+00A0 (two bytes) and the three-byte encodings of
    U+1680, U+2000..U+200A, U+2028, U+2029, U+202F, U+205F, U+3000 and
    U+FEFF. *)

Definition byte (c : ascii) : N := N_of_ascii c.

Definition ws1 (a : ascii) : bool :=
  ((9 <=? byte a) && (byte a <=? 13) || (byte a =? 32))%N.

Definition ws2 (a b : ascii) : bool :=
  ((byte a =? 194) && (byte b =? 160))%N.

Definition ws3 (a b c : ascii) : bool :=
  (   (byte a =? 225) && (byte b =? 154) && (byte c =? 128)
   || (byte a =? 226) && (byte b =? 128)
        && ((128 <=? byte c) && (byte c <=? 138)
            || (byte c =? 168) || (byte c =? 169) || (byte c =? 175))
   || (byte a =? 226) && (byte b =? 129) && (byte c =? 159)
   || (byte a =? 227) && (byte b =? 128) && (byte c =? 128)
   || (byte a =? 239) && (byte b =? 187) && (byte c =? 191))%N.

(** Strips white space from the front.  With [back = true] the string is
    read back to front, so multi-byte code points arrive last byte first. *)
Fixpoint strip (back : bool) (s : string) : string :=
  match s with
  | String a s1 =>
      if ws1 a then strip back s1 else
      match s1 with
      | String b s2 =>
          if (if back then ws2 b a else ws2 a b) then strip back s2 else
          match s2 with
          | String c s3 =>
              if (if back then ws3 c b a else ws3 a b c)
              then strip back s3 else s
          | EmptyString => s
          end
      | EmptyString => s
      end
  | EmptyString => s
  end.

Definition trim (s : string) : string :=
  String.rev (strip true (String.rev (strip false s))).

(** The double quote character, for literals that contain it. *)
Definition quote : string := String (ascii_of_nat 34) EmptyString.

(** [s.charAt(0).toUpperCase() + s.slice(1).replace(/_/g, ' ')], with
    the upper case of the ASCII and the Russian letters (other first
    letters are kept as they are). *)
Fixpoint underscores (s : string) : string :=
  match s with
  | String a s' =>
      String (if (byte a =? 95)%N then ascii_of_nat 32 else a) (underscores s')
  | EmptyString => EmptyString
  end.

Definition capitalize (s : string) : string :=
  match s with
  | String a s1 =>
      if ((97 <=? byte a) && (byte a <=? 122))%N
      then String (ascii_of_N (byte a - 32)) (underscores s1)
      else
        match s1 with
        | String b s2 =>
            if ((byte a =? 208) && (176 <=? byte b) && (byte b <=? 191))%N
            then String a (String (ascii_of_N (byte b - 32)) (underscores s2))
            else if ((byte a =? 209) && (128 <=? byte b) && (byte b <=? 143))%N
            then String (ascii_of_nat 208)
                   (String (ascii_of_N (byte b + 32)) (underscores s2))
            else if ((byte a =? 209) && (byte b =? 145))%N
            then String (ascii_of_nat 208)
                   (String (ascii_of_nat 129) (underscores s2))
            else String a (underscores s1)
        | EmptyString => s
        end
  | EmptyString => s
  end.

(** Truthiness of a string: only the empty string is falsy. *)
Definition truthy (s : string) : bool := negb (String.eqb s "").

End JsString.

(** ** Data exchanged with the server *)

Record Ticket := {
  ticket_id : string;
  ticket_title : string;
  ticket_description : string;
  ticket_category : string;
  ticket_priority : string;
  ticket_status : string;
  ticket_reporter_name : string;
  ticket_reporter_email : string;
  ticket_created_at : string;
  ticket_comments_count : Z }.

Record Message := {
  msg_content : string;
  msg_author_name : string;
  msg_is_support : bool;
  msg_created_at : string }.

Record User := {
  user_email : string;
  user_full_name : string;
  user_username : string;
  user_is_support_staff : bool }.

(** A parsed JSON body, by the shapes the endpoints answer with. *)
Inductive Body :=
| SupportCheck (is_support : bool)
| TicketPage (tickets : list Ticket) (total_pages : Z)
| TicketBody (t : Ticket)
| MessagesBody (ms : list Message)
| MessageBody (m : Message)
| DetailBody (detail : string)
| OtherBody.

Record Exn := { exn_name : string; exn_message : string }.

Definition Error (message : string) : Exn :=
  {| exn_name := "Error"; exn_message := message |}.

(** [text] is the raw body, [json] its parse ([None]: not JSON, so
    [response.json()] rejects). *)
Record Response := {
  status : Z;
  text : string;
  json : option Body }.

Definition ok (r : Response) : bool :=
  ((200 <=? status r) && (status r <=? 299))%Z.

Definition JsonSyntaxError : Exn :=
  {| exn_name := "SyntaxError"; exn_message := "Unexpected token in JSON" |}.

(** A URL is kept as its path and its query parameters. *)
Record Url := { path : string; query : list (string * string) }.

Definition plain (p : string) : Url := {| path := p; query := [] |}.

(** The [options] argument of [fetch]; [body] is the object handed to
    [JSON.stringify], as its key/value pairs. *)
Record Options := {
  method : option string;
  headers : gmap string string;
  body : option (list (string * string)) }.

Definition no_options : Options :=
  {| method := None; headers := ∅; body := None |}.

Record Request := { url : Url; init : Options }.

Inductive FetchResult :=
| Responded (r : Response)
| Rejected (e : Exn).

(** What the script does to the world outside the page's memory, in order. *)
Inductive Effect :=
| Fetch (r : Request)
| RemoveItem (key : string)
| SetItem (key value : string)
| Navigate (href : string)
| Confirm (question : string).

Definition request_of (e : Effect) : option Request :=
  match e with Fetch r => Some r | _ => None end.

(** ** The page *)

Record Badge := { badge_classes : list string; badge_text : string }.

Inductive PageLabel := Prev | Next | Number (i : Z).

(** The blocks the templates of the script produce. *)
Inductive Node :=
| TicketCard (t : Ticket)
| EmptyState
| SupportTicketCard (t : Ticket) (showAcceptButton : bool)
| NoTickets
| TicketDetails (t : Ticket) (status_badge priority_badge : Badge)
| AcceptPreview (t : Ticket)
| ChatMessage (from_support : bool) (content author_name created_at : string)
| NoMessages
| NavItem (tab : string) (active : bool)
| Notification (nid : nat) (message type : string)
| PageButton (label : PageLabel) (is_disabled is_active : bool) (target : Z)
| Markup (html : string).

(** Closures the script installs as [onclick]/[onkeypress] handlers. *)
Inductive Handler :=
| CloseSupportModal
| BackdropClick
| SendMessage
| UpdatePriority
| CloseTicket
| CloseAcceptModal
| ConfirmAccept.

Record Element := {
  value : string;
  textContent : string;
  display : string;
  classList : list string;
  innerHTML : list Node;
  disabled : bool;
  readonly : bool;
  backgroundColor : string;
  onclick : option Handler;
  onkeypress : option Handler }.

Definition blank : Element :=
  {| value := ""; textContent := ""; display := ""; classList := [];
     innerHTML := []; disabled := false; readonly := false;
     backgroundColor := ""; onclick := None; onkeypress := None |}.

Inductive Callback :=
| ConnectWebSocket
| RemoveNotification (nid : nat).

Record Timer := { callback : Callback; delay : Z }.

(** A socket made by [new WebSocket]; [handlers] tells whether
    [connectWebSocket] has set its four [on...] properties. *)
Record Socket := { ws_url : string; ws_closed : bool; handlers : bool }.

(** Module-level variables of the script. *)
Record Vars := {
  currentPage : Z;
  totalPages : Z;
  currentFilters : list (string * string);
  websocket : option nat;
  userEmail : string;
  currentUser : option User;
  authToken : string;
  isSupportUser : bool;
  currentTicketId : option string;
  currentAcceptTicketId : option string }.

Record Browser := {
  localStorage : gmap string string;
  location : string;
  dom : gmap string Element;
  timers : list Timer;
  nextId : nat }.

(** The outside world: the effects so far, how the server answers the n-th
    request, the sockets, whether the n-th [new WebSocket] throws, and what
    the user answers to [confirm]. *)
Record Env := {
  log : list Effect;
  network : nat → Request → FetchResult;
  sockets : list Socket;
  wsAttempts : nat;
  wsThrows : nat → bool;
  confirmReply : bool }.

Record World := { vars :> Vars; browser :> Browser; env :> Env }.

Definition requests (w : World) : list Request := omap request_of (log w).

(** *** Assignments to the variables and to the browser state *)

Definition with_vars (f : Vars → Vars) (w : World) : World :=
  {| vars := f w; browser := w; env := w |}.
Definition with_browser (f : Browser → Browser) (w : World) : World :=
  {| vars := w; browser := f w; env := w |}.
Definition with_env (f : Env → Env) (w : World) : World :=
  {| vars := w; browser := w; env := f w |}.

Definition set_currentPage (x : Z) (v : Vars) : Vars :=
  {| currentPage := x; totalPages := totalPages v;
     currentFilters := currentFilters v; websocket := websocket v;
     userEmail := userEmail v; currentUser := currentUser v;
     authToken := authToken v; isSupportUser := isSupportUser v;
     currentTicketId := currentTicketId v;
     currentAcceptTicketId := currentAcceptTicketId v |}.
Definition set_totalPages (x : Z) (v : Vars) : Vars :=
  {| currentPage := currentPage v; totalPages := x;
     currentFilters := currentFilters v; websocket := websocket v;
     userEmail := userEmail v; currentUser := currentUser v;
     authToken := authToken v; isSupportUser := isSupportUser v;
     currentTicketId := currentTicketId v;
     currentAcceptTicketId := currentAcceptTicketId v |}.
Definition set_currentFilters (x : list (string * string)) (v : Vars) : Vars :=
  {| currentPage := currentPage v; totalPages := totalPages v;
     currentFilters := x; websocket := websocket v;
     userEmail := userEmail v; currentUser := currentUser v;
     authToken := authToken v; isSupportUser := isSupportUser v;
     currentTicketId := currentTicketId v;
     currentAcceptTicketId := currentAcceptTicketId v |}.
Definition set_websocket (x : option nat) (v : Vars) : Vars :=
  {| currentPage := currentPage v; totalPages := totalPages v;
     currentFilters := currentFilters v; websocket := x;
     userEmail := userEmail v; currentUser := currentUser v;
     authToken := authToken v; isSupportUser := isSupportUser v;
     currentTicketId := currentTicketId v;
     currentAcceptTicketId := currentAcceptTicketId v |}.
Definition set_userEmail (x : string) (v : Vars) : Vars :=
  {| currentPage := currentPage v; totalPages := totalPages v;
     currentFilters := currentFilters v; websocket := websocket v;
     userEmail := x; currentUser := currentUser v;
     authToken := authToken v; isSupportUser := isSupportUser v;
     currentTicketId := currentTicketId v;
     currentAcceptTicketId := currentAcceptTicketId v |}.
Definition set_isSupportUser (x : bool) (v : Vars) : Vars :=
  {| currentPage := currentPage v; totalPages := totalPages v;
     currentFilters := currentFilters v; websocket := websocket v;
     userEmail := userEmail v; currentUser := currentUser v;
     authToken := authToken v; isSupportUser := x;
     currentTicketId := currentTicketId v;
     currentAcceptTicketId := currentAcceptTicketId v |}.
Definition set_currentTicketId (x : option string) (v : Vars) : Vars :=
  {| currentPage := currentPage v; totalPages := totalPages v;
     currentFilters := currentFilters v; websocket := websocket v;
     userEmail := userEmail v; currentUser := currentUser v;
     authToken := authToken v; isSupportUser := isSupportUser v;
     currentTicketId := x;
     currentAcceptTicketId := currentAcceptTicketId v |}.
Definition set_currentAcceptTicketId (x : option string) (v : Vars) : Vars :=
  {| currentPage := currentPage v; totalPages := totalPages v;
     currentFilters := currentFilters v; websocket := websocket v;
     userEmail := userEmail v; currentUser := currentUser v;
     authToken := authToken v; isSupportUser := isSupportUser v;
     currentTicketId := currentTicketId v;
     currentAcceptTicketId := x |}.

Definition set_localStorage (x : gmap string string) (b : Browser) : Browser :=
  {| localStorage := x; location := location b; dom := dom b;
     timers := timers b; nextId := nextId b |}.
Definition set_location (x : string) (b : Browser) : Browser :=
  {| localStorage := localStorage b; location := x; dom := dom b;
     timers := timers b; nextId := nextId b |}.
Definition set_dom (x : gmap string Element) (b : Browser) : Browser :=
  {| localStorage := localStorage b; location := location b; dom := x;
     timers := timers b; nextId := nextId b |}.
Definition set_timers (x : list Timer) (b : Browser) : Browser :=
  {| localStorage := localStorage b; location := location b; dom := dom b;
     timers := x; nextId := nextId b |}.
Definition set_nextId (x : nat) (b : Browser) : Browser :=
  {| localStorage := localStorage b; location := location b; dom := dom b;
     timers := timers b; nextId := x |}.

Definition set_log (x : list Effect) (e : Env) : Env :=
  {| log := x; network := network e; sockets := sockets e;
     wsAttempts := wsAttempts e; wsThrows := wsThrows e;
     confirmReply := confirmReply e |}.
Definition set_sockets (x : list Socket) (e : Env) : Env :=
  {| log := log e; network := network e; sockets := x;
     wsAttempts := wsAttempts e; wsThrows := wsThrows e;
     confirmReply := confirmReply e |}.
Definition set_wsAttempts (x : nat) (e : Env) : Env :=
  {| log := log e; network := network e; sockets := sockets e;
     wsAttempts := x; wsThrows := wsThrows e;
     confirmReply := confirmReply e |}.

(** ** Control flow: results, exceptions, [try] *)

Inductive Outcome (A : Type) :=
| Return (a : A)
| Throw (e : Exn).
Arguments Return {A} a.
Arguments Throw {A} e.

Definition Js (A : Type) : Type := World → Outcome A * World.

Global Instance Js_ret : MRet Js := λ A a w, (Return a, w).

Global Instance Js_bind : MBind Js := λ A B k m w,
  match m w with
  | (Return a, w') => k a w'
  | (Throw e, w') => (Throw e, w')
  end.

Definition throw {A} (e : Exn) : Js A := λ w, (Throw e, w).

(** [try { body } catch (error) { handler }] *)
Definition try_catch {A} (body : Js A) (handler : Exn → Js A) : Js A :=
  λ w, match body w with
       | (Return a, w') => (Return a, w')
       | (Throw e, w') => handler e w'
       end.

(** [try { body } finally { final }]: [final] runs either way; if it throws,
    its exception replaces the outcome of [body]. *)
Definition try_finally {A} (body : Js A) (final : Js unit) : Js A :=
  λ w, match body w with
       | (r, w') =>
           match final w' with
           | (Return _, w'') => (r, w'')
           | (Throw e, w'') => (Throw e, w'')
           end
       end.

(** A call to an [async] function whose promise nobody awaits: the callee
    runs, a rejection goes unobserved. *)
Definition detached {A} (m : Js A) : Js unit :=
  λ w, (Return tt, (m w).2).

(** [await Promise.all([a, b])] of two calls: both are started, then the
    first rejection (if any) is thrown. *)
Definition await_both (a b : Js unit) : Js unit :=
  λ w, match a w with
       | (ra, wa) =>
           match b wa with
           | (rb, wb) =>
               match ra, rb with
               | Throw e, _ => (Throw e, wb)
               | _, Throw e => (Throw e, wb)
               | _, _ => (Return tt, wb)
               end
           end
       end.

Definition gets {A} (f : World → A) : Js A := λ w, (Return (f w), w).
Definition modify (f : World → World) : Js unit := λ w, (Return tt, f w).

(** The world a call leaves behind, and its outcome. *)
Definition after {A} (m : Js A) (w : World) : World := (m w).2.
Definition outcome {A} (m : Js A) (w : World) : Outcome A := (m w).1.

(** ** Browser primitives *)

Definition record (e : Effect) : Js unit :=
  modify (with_env (λ v, set_log (log v ++ [e]) v)).

(** [fetch(url, options)]: the request goes out; the server's answer to the
    n-th request is [network n]. *)
Definition fetch (u : Url) (o : Options) : Js Response :=
  λ w, let req := {| url := u; init := o |} in
       let w' := with_env (λ v, set_log (log v ++ [Fetch req]) v) w in
       match network w (length (requests w)) req with
       | Responded r => (Return r, w')
       | Rejected e => (Throw e, w')
       end.

Definition localStorage_removeItem (key : string) : Js unit :=
  modify (with_browser (λ b, set_localStorage (delete key (localStorage b)) b));;
  record (RemoveItem key).

Definition localStorage_setItem (key val : string) : Js unit :=
  modify (with_browser (λ b, set_localStorage (<[key:=val]> (localStorage b)) b));;
  record (SetItem key val).

(** [window.location.href = href] *)
Definition navigate (href : string) : Js unit :=
  modify (with_browser (set_location href));;
  record (Navigate href).

(** ** The script: configuration and the API gateway *)

Definition API_BASE_URL : string := "http://localhost:8000".
Definition WS_URL : string := "ws://localhost:8000/tickets/ws/notifications".

Definition getAuthHeaders (w : World) : gmap string string :=
  {[ "Authorization" := "Bearer " +:+ authToken w;
     "Content-Type" := "application/json" ]}.

(** The spread [{...getAuthHeaders(), ...options.headers}]: a key of
    [options.headers] overrides the same key of the defaults. *)
Definition authorizedFetch (u : Url) (options : Options) : Js (option Response) :=
  auth ← gets getAuthHeaders;
  let headers' := headers options ∪ auth in
  response ← fetch u {| method := method options; headers := headers';
                        body := body options |};
  if decide (status response = 401%Z) then
    localStorage_removeItem "auth_token";;
    localStorage_removeItem "user_data";;
    navigate "login.html";;
    mret None
  else mret (Some response).

(** ** The DOM *)

Definition set_value (x : string) (e : Element) : Element :=
  {| value := x; textContent := textContent e; display := display e;
     classList := classList e; innerHTML := innerHTML e;
     disabled := disabled e; readonly := readonly e;
     backgroundColor := backgroundColor e; onclick := onclick e;
     onkeypress := onkeypress e |}.
Definition set_textContent (x : string) (e : Element) : Element :=
  {| value := value e; textContent := x; display := display e;
     classList := classList e; innerHTML := innerHTML e;
     disabled := disabled e; readonly := readonly e;
     backgroundColor := backgroundColor e; onclick := onclick e;
     onkeypress := onkeypress e |}.
Definition set_display (x : string) (e : Element) : Element :=
  {| value := value e; textContent := textContent e; display := x;
     classList := classList e; innerHTML := innerHTML e;
     disabled := disabled e; readonly := readonly e;
     backgroundColor := backgroundColor e; onclick := onclick e;
     onkeypress := onkeypress e |}.
Definition set_classList (x : list string) (e : Element) : Element :=
  {| value := value e; textContent := textContent e; display := display e;
     classList := x; innerHTML := innerHTML e;
     disabled := disabled e; readonly := readonly e;
     backgroundColor := backgroundColor e; onclick := onclick e;
     onkeypress := onkeypress e |}.
Definition set_innerHTML (x : list Node) (e : Element) : Element :=
  {| value := value e; textContent := textContent e; display := display e;
     classList := classList e; innerHTML := x;
     disabled := disabled e; readonly := readonly e;
     backgroundColor := backgroundColor e; onclick := onclick e;
     onkeypress := onkeypress e |}.
Definition set_disabled (x : bool) (e : Element) : Element :=
  {| value := value e; textContent := textContent e; display := display e;
     classList := classList e; innerHTML := innerHTML e;
     disabled := x; readonly := readonly e;
     backgroundColor := backgroundColor e; onclick := onclick e;
     onkeypress := onkeypress e |}.
Definition set_readonly (x : bool) (e : Element) : Element :=
  {| value := value e; textContent := textContent e; display := display e;
     classList := classList e; innerHTML := innerHTML e;
     disabled := disabled e; readonly := x;
     backgroundColor := backgroundColor e; onclick := onclick e;
     onkeypress := onkeypress e |}.
Definition set_backgroundColor (x : string) (e : Element) : Element :=
  {| value := value e; textContent := textContent e; display := display e;
     classList := classList e; innerHTML := innerHTML e;
     disabled := disabled e; readonly := readonly e;
     backgroundColor := x; onclick := onclick e;
     onkeypress := onkeypress e |}.
Definition set_onclick (x : option Handler) (e : Element) : Element :=
  {| value := value e; textContent := textContent e; display := display e;
     classList := classList e; innerHTML := innerHTML e;
     disabled := disabled e; readonly := readonly e;
     backgroundColor := backgroundColor e; onclick := x;
     onkeypress := onkeypress e |}.
Definition set_onkeypress (x : option Handler) (e : Element) : Element :=
  {| value := value e; textContent := textContent e; display := display e;
     classList := classList e; innerHTML := innerHTML e;
     disabled := disabled e; readonly := readonly e;
     backgroundColor := backgroundColor e; onclick := onclick e;
     onkeypress := x |}.

(** [classList.add], [classList.remove], [classList.contains] *)
Definition classList_add (c : string) (e : Element) : Element :=
  if decide (c ∈ classList e) then e else set_classList (classList e ++ [c]) e.
Definition classList_remove (c : string) (e : Element) : Element :=
  set_classList (filter (λ x, x ≠ c) (classList e)) e.
Definition classList_contains (c : string) (e : Element) : bool :=
  bool_decide (c ∈ classList e).

(** [document.getElementById(id)] (and [querySelector] for the few
    selectors the script uses, which are keys of [dom] as well); [None] is
    [null]. *)
Definition getElementById (id : string) : Js (option Element) :=
  gets (λ w, dom w !! id).

Definition NullError (id : string) : Exn :=
  {| exn_name := "TypeError";
     exn_message := "Cannot read properties of null (" +:+ id +:+ ")" |}.

(** Reading a property of [document.getElementById(id)] without a null
    check. *)
Definition element (id : string) : Js Element :=
  λ w, match dom w !! id with
       | Some e => (Return e, w)
       | None => (Throw (NullError id), w)
       end.

(** Writing properties of [document.getElementById(id)] without a null
    check. *)
Definition update (id : string) (f : Element → Element) : Js unit :=
  λ w, match dom w !! id with
       | Some e => (Return tt, with_browser (set_dom (<[id:=f e]> (dom w))) w)
       | None => (Throw (NullError id), w)
       end.

(** The same under [if (element) { ... }]. *)
Definition update_if_present (id : string) (f : Element → Element) : Js unit :=
  modify (with_browser (λ b, set_dom (alter f id (dom b)) b)).

Definition setTimeout (c : Callback) (ms : Z) : Js unit :=
  modify (with_browser (λ b,
    set_timers (timers b ++ [{| callback := c; delay := ms |}]) b)).

Definition UndefinedError (prop : string) : Exn :=
  {| exn_name := "TypeError";
     exn_message :=
       "Cannot read properties of undefined (reading '" +:+ prop +:+ "')" |}.

(** Reading property [prop] of what [authorizedFetch] returned. *)
Definition defined (r : option Response) (prop : string) : Js Response :=
  match r with
  | Some r => mret r
  | None => throw (UndefinedError prop)
  end.

Definition response_json (r : Response) : Js Body :=
  match json r with
  | Some b => mret b
  | None => throw JsonSyntaxError
  end.

(** ** The script: utilities *)

Definition showLoading (show : bool) : Js unit :=
  update "loading"
    (if show then classList_add "active" else classList_remove "active").

Definition showNotification (message type : string) : Js unit :=
  nid ← gets nextId;
  modify (with_browser (set_nextId (S nid)));;
  update "notifications"
    (λ e, set_innerHTML (innerHTML e ++ [Notification nid message type]) e);;
  setTimeout (RemoveNotification nid) 5000.

(** The notifications on display, oldest first. *)
Definition toast_of (n : Node) : option (string * string) :=
  match n with Notification _ m t => Some (m, t) | _ => None end.
Definition toasts (w : World) : list (string * string) :=
  match dom w !! "notifications" with
  | Some e => omap toast_of (innerHTML e)
  | None => []
  end.

(** ** The script: support capability *)

Definition is_support_of (data : Body) : bool :=
  match data with SupportCheck b => b | _ => false end.

Definition checkSupportStatus : Js unit :=
  try_catch
    (response ← authorizedFetch (plain (API_BASE_URL +:+ "/support/check")) no_options;
     r ← defined response "ok";
     if ok r then
       data ← response_json r;
       modify (with_vars (set_isSupportUser (is_support_of data)))
     else mret tt)
    (λ error, modify (with_vars (set_isSupportUser false))).

(** Listeners added with [addEventListener] to the navigation links are
    not kept in the world: a click on a link is a call of [switchTab]. *)
Definition setupNavigationEvents : Js unit := mret tt.

Definition is_nav (tab : string) (n : Node) : bool :=
  match n with NavItem t _ => bool_decide (t = tab) | _ => false end.

Fixpoint insert_before (tab : string) (new : list Node) (l : list Node)
  : option (list Node) :=
  match l with
  | [] => None
  | n :: l' =>
      if is_nav tab n then Some (new ++ n :: l')
      else (n ::.) <$> insert_before tab new l'
  end.

Definition supportTabs : list Node :=
  [NavItem "unassigned" false; NavItem "assigned" false].

Definition supportSections : gmap string Element :=
  {[ "unassigned-tab" := set_classList ["tab-content"] blank;
     "unassignedTicketsGrid" := set_classList ["tickets-grid"] blank;
     "assigned-tab" := set_classList ["tab-content"] blank;
     "assignedTicketsGrid" := set_classList ["tickets-grid"] blank ]}.

Definition setupSupportInterface : Js unit :=
  support ← gets isSupportUser;
  if negb support then mret tt else
  nav ← element ".nav-list";
  match insert_before "profile" supportTabs (innerHTML nav) with
  | None => throw (NullError "[data-tab=profile]")
  | Some items =>
      update ".nav-list" (set_innerHTML items);;
      _ ← element "main .container";
      modify (with_browser (λ b, set_dom (dom b ∪ supportSections) b));;
      setupNavigationEvents
  end.

Definition card (accept : bool) (t : Ticket) : Node := SupportTicketCard t accept.

(** [tickets] is [data.tickets]: [None] when the answer has no such field,
    and then reading [tickets.length] throws. *)
Definition renderSupportTickets (tickets : option (list Ticket))
    (containerId : string) (showAcceptButton : bool) : Js unit :=
  container ← getElementById containerId;
  match container, tickets with
  | None, _ => mret tt
  | Some _, None => throw (UndefinedError "length")
  | Some _, Some tickets =>
      if decide (length tickets = 0%nat) then
        update containerId (set_innerHTML [NoTickets])
      else
        update containerId (set_innerHTML (card showAcceptButton <$> tickets))
  end.

Definition tickets_of (data : Body) : option (list Ticket) :=
  match data with
  | TicketPage ts _ => Some ts
  | _ => None
  end.

Definition loadUnassignedTickets : Js unit :=
  support ← gets isSupportUser;
  if negb support then mret tt else
  try_catch
    (response ← authorizedFetch
       (plain (API_BASE_URL +:+ "/support/tickets/unassigned")) no_options;
     r ← defined response "ok";
     if negb (ok r) then throw (Error "Ошибка загрузки новых тикетов") else
     data ← response_json r;
     renderSupportTickets (tickets_of data) "unassignedTicketsGrid" true)
    (λ error, showNotification "Ошибка загрузки новых тикетов" "error").

Definition loadAssignedTickets : Js unit :=
  support ← gets isSupportUser;
  if negb support then mret tt else
  try_catch
    (response ← authorizedFetch
       (plain (API_BASE_URL +:+ "/support/tickets/assigned")) no_options;
     r ← defined response "ok";
     if negb (ok r) then throw (Error "Ошибка загрузки принятых тикетов") else
     data ← response_json r;
     renderSupportTickets (tickets_of data) "assignedTicketsGrid" false)
    (λ error, showNotification "Ошибка загрузки принятых тикетов" "error").

(** ** The script: the ticket list *)

(** [Array.prototype.sort(compare)]: a stable sort; an element stays behind
    the ones before it unless [compare] puts it strictly first.  A result of
    [compare] that is NaN counts as +0.  When [compare] is a consistent
    comparison on the list, the standard fixes the result, and it is this
    one.  For any other list the standard leaves the order to the engine;
    the model then gives the order of this insertion sort. *)
Section Array_sort.
Context {A : Type} (compare : A → A → Z).

Fixpoint insert_sorted (x : A) (l : list A) : list A :=
  match l with
  | [] => [x]
  | y :: l' =>
      if decide (compare x y ≤ 0)%Z then x :: l else y :: insert_sorted x l'
  end.

Definition Array_sort (l : list A) : list A := foldr insert_sorted [] l.
End Array_sort.

Definition statusOrder : gmap string Z :=
  {[ "открыт" := 1%Z; "в работе" := 2%Z; "закрыт" := 3%Z ]}.

(** The names that a lookup on an object literal finds although the literal
    does not list them: the properties every object inherits from
    [Object.prototype].  Each is a function or an object. *)
Definition Object_prototype : list string :=
  ["constructor"; "hasOwnProperty"; "isPrototypeOf"; "propertyIsEnumerable";
   "toLocaleString"; "toString"; "valueOf"; "__proto__"; "__defineGetter__";
   "__defineSetter__"; "__lookupGetter__"; "__lookupSetter__"].

(** [statusOrder[status] || 1]: the rank of the table, 1 for a status the
    lookup does not find, and for an inherited name the inherited value,
    which is truthy and not a number ([None]). *)
Definition rank (status : string) : option Z :=
  match statusOrder !! status with
  | Some n => Some (if decide (n = 0%Z) then 1%Z else n)
  | None => if decide (status ∈ Object_prototype) then None else Some 1%Z
  end.

(** The comparator of the sort.  A difference with an operand that is not a
    number is NaN, which the sort takes as +0. *)
Definition byStatus (a b : Ticket) : Z :=
  match rank (ticket_status a), rank (ticket_status b) with
  | Some x, Some y => (x - y)%Z
  | _, _ => 0%Z
  end.

Definition renderEmptyState : Js unit :=
  update "ticketsGrid" (set_innerHTML [EmptyState]).

Definition renderTickets (tickets : list Ticket) : Js unit :=
  if decide (length tickets = 0%nat) then renderEmptyState
  else update "ticketsGrid" (set_innerHTML (TicketCard <$> tickets)).

Definition count (P : string → bool) (tickets : list Ticket) : string :=
  pretty (Z.of_nat (length (filter (λ t, P (ticket_status t)) tickets))).

Definition updateStats (tickets : list Ticket) : Js unit :=
  update "totalTickets"
    (set_textContent (pretty (Z.of_nat (length tickets))));;
  update "openTickets"
    (set_textContent (count (λ s, bool_decide (s = "открыт")) tickets));;
  update "progressTickets"
    (set_textContent (count (λ s, bool_decide (s = "в_процессе")) tickets));;
  update "resolvedTickets"
    (set_textContent
       (count (λ s, bool_decide (s = "решен") || bool_decide (s = "закрыт"))
          tickets)).

Definition paginationButtons (page total : Z) : list Node :=
  let lo := Z.max 1 (page - 2)%Z in
  let hi := Z.min total (page + 2)%Z in
  [PageButton Prev (bool_decide (page ≤ 1)%Z) false (page - 1)%Z]
  ++ ((λ i, PageButton (Number i) false (bool_decide (i = page)) i)
        <$> seqZ lo (hi - lo + 1)%Z)
  ++ [PageButton Next (bool_decide (total ≤ page)%Z) false (page + 1)%Z].

Definition renderPagination (total_pages : Z) : Js unit :=
  modify (with_vars (set_totalPages total_pages));;
  if decide (total_pages ≤ 1)%Z then update "pagination" (set_innerHTML [])
  else
    page ← gets currentPage;
    update "pagination" (set_innerHTML (paginationButtons page total_pages)).

(** Assignment [o[k] = v] on an object kept as its properties in insertion
    order, and the spread [{...base, ...extra}]. *)
Fixpoint obj_set (k v : string) (o : list (string * string))
  : list (string * string) :=
  match o with
  | [] => [(k, v)]
  | (k', v') :: o' =>
      if decide (k = k') then (k, v) :: o' else (k', v') :: obj_set k v o'
  end.

Definition spread (base extra : list (string * string)) : list (string * string) :=
  foldl (λ o kv, obj_set kv.1 kv.2 o) base extra.

Definition ticketsQuery (w : World) : Url :=
  {| path := API_BASE_URL +:+ "/tickets/";
     query := spread [("reporter_email", userEmail w);
                      ("page", pretty (currentPage w));
                      ("page_size", "12")]
                     (currentFilters w) |}.

Definition loadUserTickets : Js unit :=
  showLoading true;;
  try_finally
    (try_catch
       (u ← gets ticketsQuery;
        response ← authorizedFetch u no_options;
        r ← defined response "ok";
        if negb (ok r) then throw (Error "Ошибка загрузки тикетов") else
        data ← response_json r;
        match data with
        | TicketPage tickets total_pages =>
            let sortedTickets := Array_sort byStatus tickets in
            renderTickets sortedTickets;;
            updateStats sortedTickets;;
            renderPagination total_pages
        | _ => throw (UndefinedError "sort")
        end)
       (λ error,
          showNotification "Ошибка загрузки тикетов" "error";;
          renderEmptyState))
    (showLoading false).

(** The cards in the grid, in the order they are rendered. *)
Definition ticket_of (n : Node) : option Ticket :=
  match n with TicketCard t => Some t | _ => None end.
Definition renderedTickets (w : World) : list Ticket :=
  match dom w !! "ticketsGrid" with
  | Some e => omap ticket_of (innerHTML e)
  | None => []
  end.

(** ** The script: creating a ticket, tabs, filters *)

Definition prefill (x : string) (e : Element) : Element :=
  set_backgroundColor "#f8f9fa" (set_readonly true (set_value x e)).

Definition prefillTicketForm : Js unit :=
  user ← gets currentUser;
  match user with
  | None => mret tt
  | Some user =>
      (if JsString.truthy (user_full_name user)
       then update_if_present "reporterName" (prefill (user_full_name user))
       else mret tt);;
      (if JsString.truthy (user_email user)
       then update_if_present "reporterEmail" (prefill (user_email user))
       else mret tt)
  end.

Definition resetCreateForm : Js unit :=
  update "ticketTitle" (set_value "");;
  update "ticketCategory" (set_value "");;
  update "ticketDescription" (set_value "").

Definition statsQuery (w : World) (user : User) : Url :=
  {| path := API_BASE_URL +:+ "/tickets/";
     query := [("reporter_email", user_email user); ("limit", "1000")] |}.

Definition loadUserStats : Js unit :=
  try_catch
    (user ← gets currentUser;
     match user with
     | None => throw (NullError "currentUser")
     | Some user =>
         u ← gets (λ w, statsQuery w user);
         response ← authorizedFetch u no_options;
         r ← defined response "json";
         data ← response_json r;
         let tickets := default [] (tickets_of data) in
         update "user-tickets-count"
           (set_textContent (pretty (Z.of_nat (length tickets))));;
         update "user-open-tickets"
           (set_textContent
              (count (λ s, bool_decide (s = "открыт")
                           || bool_decide (s = "в_процессе")) tickets));;
         update "user-resolved-tickets"
           (set_textContent
              (count (λ s, bool_decide (s = "решен")
                           || bool_decide (s = "закрыт")) tickets))
     end)
    (λ error, mret tt).

Definition loadProfileData : Js unit :=
  user ← gets currentUser;
  match user with
  | None => mret tt
  | Some user =>
      update "profile-full-name" (set_textContent (user_full_name user));;
      update "profile-email" (set_textContent (user_email user));;
      update "profile-role"
        (set_textContent (if user_is_support_staff user
                          then "Сотрудник поддержки" else "Пользователь"));;
      update "profileFullName" (set_value (user_full_name user));;
      update "profileUsername" (set_value (user_username user));;
      update "profileEmail" (set_value (user_email user));;
      detached loadUserStats
  end.

(** The first navigation link with [data-tab = tab] becomes the active one. *)
Fixpoint activate (tab : string) (l : list Node) : list Node :=
  match l with
  | [] => []
  | NavItem t a :: l' =>
      if decide (t = tab) then NavItem t true :: l'
      else NavItem t a :: activate tab l'
  | n :: l' => n :: activate tab l'
  end.

Definition deactivate (n : Node) : Node :=
  match n with NavItem t _ => NavItem t false | _ => n end.

Definition hideSection (e : Element) : Element :=
  if classList_contains "tab-content" e
  then set_display "none" (classList_remove "active" e)
  else if classList_contains "tab-section" e then set_display "none" e
  else e.

Definition sectionOf (tabName : string) : option string :=
  if decide (tabName = "home") then Some "home-tab"
  else if decide (tabName = "create") then Some "create-tab"
  else if decide (tabName = "unassigned") then Some "unassigned-tab"
  else if decide (tabName = "assigned") then Some "assigned-tab"
  else if decide (tabName = "profile") then Some "profile"
  else None.

(** [switchTab(tabName)].  The selector [[data-tab=...]] built from the
    name is taken as the comparison of the attribute with the name, which
    it is for a name without double quote, backslash and line break. *)
Definition switchTab (tabName : string) : Js unit :=
  update_if_present ".nav-list"
    (λ e, set_innerHTML (activate tabName (deactivate <$> innerHTML e)) e);;
  modify (with_browser (λ b, set_dom (hideSection <$> dom b) b));;
  match sectionOf tabName with
  | Some section =>
      update_if_present section
        (λ e, set_display "block" (classList_add "active" e))
  | None => mret tt
  end;;
  if decide (tabName = "home") then detached loadUserTickets
  else if decide (tabName = "create") then prefillTicketForm
  else if decide (tabName = "unassigned") then detached loadUnassignedTickets
  else if decide (tabName = "assigned") then detached loadAssignedTickets
  else if decide (tabName = "profile") then loadProfileData
  else mret tt.

(** [error.detail || fallback] on the parsed error body. *)
Definition detail_or (fallback : string) (data : Body) : string :=
  match data with
  | DetailBody d => if JsString.truthy d then d else fallback
  | _ => fallback
  end.

Definition spinner : list Node :=
  [Markup ("<i class=" +:+ JsString.quote +:+ "fas fa-spinner fa-spin"
           +:+ JsString.quote +:+ "></i> Создаем...")].

Definition handleTicketSubmit : Js unit :=
  submitButton ← element "submitTicket";
  let originalText := innerHTML submitButton in
  update "submitTicket" (set_disabled true);;
  update "submitTicket" (set_innerHTML spinner);;
  try_finally
    (try_catch
       (title ← element "ticketTitle";
        description ← element "ticketDescription";
        category ← element "ticketCategory";
        reporter_name ← element "reporterName";
        reporter_email ← element "reporterEmail";
        let formData :=
          [("title", value title); ("description", value description);
           ("category", value category);
           ("reporter_name", value reporter_name);
           ("reporter_email", value reporter_email)] in
        response ← authorizedFetch (plain (API_BASE_URL +:+ "/tickets/"))
          {| method := Some "POST"; headers := ∅; body := Some formData |};
        r ← defined response "ok";
        if negb (ok r) then
          error ← response_json r;
          throw (Error (detail_or "Ошибка создания тикета" error))
        else
          ticket ← response_json r;
          resetCreateForm;;
          switchTab "home";;
          localStorage_setItem "userEmail" (value reporter_email);;
          modify (with_vars (set_userEmail (value reporter_email))))
       (λ error,
          showNotification
            (if JsString.truthy (exn_message error) then exn_message error
             else "Ошибка создания тикета") "error"))
    (update "submitTicket" (set_disabled false);;
     update "submitTicket" (set_innerHTML originalText)).

Definition applyFilters : Js unit :=
  statusFilter ← element "statusFilter";
  categoryFilter ← element "categoryFilter";
  priorityFilter ← element "priorityFilter";
  searchInput ← element "searchInput";
  modify (with_vars (set_currentFilters []));;
  (if JsString.truthy (value statusFilter)
   then modify (with_vars (λ v,
          set_currentFilters (obj_set "status" (value statusFilter) (currentFilters v)) v))
   else mret tt);;
  (if JsString.truthy (value categoryFilter)
   then modify (with_vars (λ v,
          set_currentFilters (obj_set "category" (value categoryFilter) (currentFilters v)) v))
   else mret tt);;
  (if JsString.truthy (value priorityFilter)
   then modify (with_vars (λ v,
          set_currentFilters (obj_set "priority" (value priorityFilter) (currentFilters v)) v))
   else mret tt);;
  (if JsString.truthy (JsString.trim (value searchInput))
   then modify (with_vars (λ v,
          set_currentFilters
            (obj_set "search_text" (JsString.trim (value searchInput)) (currentFilters v)) v))
   else mret tt);;
  modify (with_vars (set_currentPage 1));;
  detached loadUserTickets.

(** ** The script: the live-update channel *)

Record WsNotification := { event : string; ticket : option Ticket }.

Definition WebSocketError : Exn :=
  {| exn_name := "SyntaxError"; exn_message := "Failed to construct 'WebSocket'" |}.

Definition fresh_socket (u : string) : Socket :=
  {| ws_url := u; ws_closed := false; handlers := false |}.

(** [new WebSocket(url)]: the handle of the new socket, or an exception. *)
Definition new_WebSocket (u : string) : Js nat :=
  λ w, let w1 := with_env (set_wsAttempts (S (wsAttempts w))) w in
       if wsThrows w (wsAttempts w) then (Throw WebSocketError, w1)
       else (Return (length (sockets w)),
             with_env (λ v, set_sockets (sockets v ++ [fresh_socket u]) v) w1).

(** Setting [onopen], [onmessage], [onclose] and [onerror] of socket [s]. *)
Definition set_handlers (s : nat) : Js unit :=
  modify (with_env (λ v, set_sockets
    (alter (λ x, {| ws_url := ws_url x; ws_closed := ws_closed x;
                    handlers := true |}) s (sockets v)) v)).

Definition connectWebSocket : Js unit :=
  try_catch
    (s ← new_WebSocket WS_URL;
     modify (with_vars (set_websocket (Some s)));;
     set_handlers s)
    (λ error, setTimeout ConnectWebSocket 10000).

Definition notificationMessage (n : WsNotification) (t : Ticket) : string :=
  let quoted := JsString.quote +:+ ticket_title t +:+ JsString.quote in
  if decide (event n = "created") then "Тикет " +:+ quoted +:+ " создан"
  else if decide (event n = "updated") then "Тикет " +:+ quoted +:+ " обновлен"
  else if decide (event n = "comment_added")
  then "Новый комментарий к тикету " +:+ quoted
  else "".

Definition handleWebSocketNotification (n : WsNotification) : Js unit :=
  email ← gets userEmail;
  match ticket n with
  | Some t =>
      if decide (ticket_reporter_email t = email) then
        let message := notificationMessage n t in
        if JsString.truthy message then
          showNotification message "success";;
          home ← element "home-tab";
          if classList_contains "active" home then detached loadUserTickets
          else mret tt
        else mret tt
      else mret tt
  | None => mret tt
  end.

(** The [onclose] handler. *)
Definition onclose : Js unit := setTimeout ConnectWebSocket 5000.

(** The [onmessage] handler; [data] is [JSON.parse(event.data)], [None]
    when the text does not parse. *)
Definition onmessage (data : option WsNotification) : Js unit :=
  try_catch
    (match data with
     | None => throw JsonSyntaxError
     | Some notification =>
         if decide (event notification ≠ "connected")
         then handleWebSocketNotification notification
         else mret tt
     end)
    (λ error, mret tt).

(** Socket [s] closes: it is closed from then on, and its [onclose] handler
    runs if it has one.  A socket closes once. *)
Definition socket_close (s : nat) : Js unit :=
  λ w, match sockets w !! s with
       | Some x =>
           if ws_closed x then (Return tt, w) else
           let w' := with_env (λ v, set_sockets
                       (<[s:={| ws_url := ws_url x; ws_closed := true;
                                handlers := handlers x |}]> (sockets v)) v) w in
           if handlers x then onclose w' else (Return tt, w')
       | None => (Return tt, w)
       end.

Definition is_notification (nid : nat) (n : Node) : bool :=
  match n with Notification i _ _ => bool_decide (i = nid) | _ => false end.

(** Timer [k] of the pending ones expires: its callback runs. *)
Definition fire (k : nat) : Js unit :=
  λ w, match timers w !! k with
       | Some t =>
           let w' := with_browser (set_timers (delete k (timers w))) w in
           match callback t with
           | ConnectWebSocket => connectWebSocket w'
           | RemoveNotification nid =>
               update_if_present "notifications"
                 (λ e, set_innerHTML
                         (filter (λ n, is_notification nid n = false) (innerHTML e)) e) w'
           end
       | None => (Return tt, w)
       end.

(** ** The script: display texts *)

Definition statusTexts : gmap string string :=
  {[ "открыт" := "Открыт"; "в работе" := "В работе";
     "в_процессе" := "В работе"; "впроцессе" := "В работе";
     "решен" := "Решен"; "закрыт" := "Закрыт" ]}.

Definition priorityTexts : gmap string string :=
  {[ "низкий" := "Низкий"; "средний" := "Средний"; "высокий" := "Высокий";
     "критический" := "Критический"; "не определён" := "Не определён";
     "не_определён" := "Не определён"; "неопределён" := "Не определён" ]}.

Definition lookup_or (table : gmap string string) (key : string) : string :=
  match table !! key with
  | Some s => if JsString.truthy s then s else JsString.capitalize key
  | None => JsString.capitalize key
  end.

Definition getStatusText (status : string) : string := lookup_or statusTexts status.
Definition getPriorityText (priority : string) : string :=
  lookup_or priorityTexts priority.

(** ** The script: the support session *)

(** [document.body.classList] is kept under the key ["body"]. *)
Definition body_classList (f : Element → Element) : Js unit :=
  modify (with_browser (λ b,
    set_dom (<["body" := f (default blank (dom b !! "body"))]> (dom b)) b)).

(** JavaScript truthiness of a ticket id: [null] and [''] are falsy. *)
Definition truthy_id (t : option string) : bool :=
  match t with Some s => JsString.truthy s | None => false end.

Definition priorityOptions : list string :=
  ["низкий"; "средний"; "высокий"; "критический"].

(** The value a [select] with these options takes when [x] is assigned. *)
Definition select_value (x : string) : string :=
  if decide (x ∈ priorityOptions) then x else "".

Definition hideSupportModal (e : Element) : Element :=
  set_display "none" (classList_remove "active" e).

Definition showSupportModal (e : Element) : Element :=
  classList_add "active" (set_display "block" e).

Definition chatMessage (m : Message) : Node :=
  ChatMessage (msg_is_support m) (msg_content m) (msg_author_name m)
    (msg_created_at m).

Definition renderChatMessages (messages : Body) : Js unit :=
  match messages with
  | MessagesBody ms =>
      if decide (length ms = 0%nat)
      then update "chatMessages" (set_innerHTML [NoMessages])
      else update "chatMessages" (set_innerHTML (chatMessage <$> ms))
  | _ => throw (UndefinedError "map")
  end.

Definition ticketControls (t : Ticket) : gmap string Element :=
  {[ ".ticket-controls" := blank;
     "chatPriority" :=
       set_value (if decide (ticket_priority t ∈ priorityOptions)
                  then ticket_priority t else "низкий") blank;
     "updatePriorityBtn" := blank;
     "closeTicketBtn" := blank ]}.

Definition addTicketManagementToChat (t : Ticket) : Js unit :=
  chatModal ← getElementById "supportTicketModal";
  existingControls ← getElementById ".ticket-controls";
  chatInputContainer ← getElementById ".chat-input-container";
  supportModalBody ← getElementById ".support-modal-body";
  match chatModal, existingControls with
  | Some _, None =>
      if bool_decide (is_Some chatInputContainer)
         || bool_decide (is_Some supportModalBody)
      then modify (with_browser (λ b, set_dom (dom b ∪ ticketControls t) b))
      else mret tt
  | _, _ => mret tt
  end.

Definition setupChatEventListeners : Js unit :=
  update_if_present "closeSupportModal" (set_onclick (Some CloseSupportModal));;
  update_if_present "supportTicketModal" (set_onclick (Some BackdropClick));;
  update_if_present "sendMessage" (set_onclick (Some SendMessage));;
  update_if_present "chatInput" (set_onkeypress (Some SendMessage));;
  update_if_present "updatePriorityBtn" (set_onclick (Some UpdatePriority));;
  update_if_present "closeTicketBtn" (set_onclick (Some CloseTicket)).

Definition badge (kind val : string) : Badge :=
  {| badge_classes := [kind +:+ "-badge"; kind +:+ "-" +:+ val];
     badge_text := val |}.

Definition renderSupportTicketModal (ticket messages : Body) : Js unit :=
  match ticket with
  | TicketBody t =>
      update "supportModalTicketTitle"
        (set_textContent ("Тикет #" +:+ String.substring 0 8 (ticket_id t)));;
      update "supportTicketDetails"
        (set_innerHTML [TicketDetails t (badge "status" (ticket_status t))
                          (badge "priority" (ticket_priority t))]);;
      renderChatMessages messages;;
      addTicketManagementToChat t;;
      setupChatEventListeners
  | _ => throw (UndefinedError "substring")
  end.

Definition openSupportTicketModal (ticketId : string) : Js unit :=
  modify (with_vars (set_currentTicketId (Some ticketId)));;
  try_catch
    (ticketResponse ← authorizedFetch
       (plain (API_BASE_URL +:+ "/tickets/" +:+ ticketId)) no_options;
     r ← defined ticketResponse "ok";
     if negb (ok r) then throw (Error "Ошибка загрузки тикета") else
     ticket ← response_json r;
     messagesResponse ← authorizedFetch
       (plain (API_BASE_URL +:+ "/tickets/" +:+ ticketId +:+ "/messages"))
       no_options;
     r' ← defined messagesResponse "ok";
     if negb (ok r') then throw (Error "Ошибка загрузки сообщений") else
     messages ← response_json r';
     renderSupportTicketModal ticket messages;;
     modal ← getElementById "supportTicketModal";
     match modal with
     | Some _ =>
         update "supportTicketModal" showSupportModal;;
         body_classList (classList_add "modal-open")
     | None => mret tt
     end;;
     _ ← authorizedFetch
       (plain (API_BASE_URL +:+ "/support/tickets/" +:+ ticketId +:+ "/mark-read"))
       {| method := Some "POST"; headers := ∅; body := None |};
     mret tt)
    (λ error, showNotification "Ошибка загрузки тикета" "error").

(** The handler of the × button. *)
Definition closeSupportModal_onclick : Js unit :=
  modal ← getElementById "supportTicketModal";
  match modal with
  | Some _ =>
      update "supportTicketModal" hideSupportModal;;
      body_classList (classList_remove "modal-open")
  | None => mret tt
  end;;
  modify (with_vars (set_currentTicketId None)).

(** The [onclick] handler of the modal; [on_backdrop] is [e.target === modal]. *)
Definition supportModal_onclick (on_backdrop : bool) : Js unit :=
  if on_backdrop then
    update "supportTicketModal" hideSupportModal;;
    body_classList (classList_remove "modal-open");;
    modify (with_vars (set_currentTicketId None))
  else mret tt.

Definition newMessageNode (data : Body) : Node :=
  match data with
  | MessageBody m =>
      ChatMessage true (msg_content m) (msg_author_name m) (msg_created_at m)
  | _ => ChatMessage true "undefined" "undefined" "Invalid Date"
  end.

Definition messageData (content : string) (user : User) : list (string * string) :=
  [("content", content); ("author_email", user_email user);
   ("author_name", user_full_name user)].

Definition sendMessage : Js unit :=
  chatInput ← element "chatInput";
  let content := JsString.trim (value chatInput) in
  ticketId ← gets currentTicketId;
  if negb (JsString.truthy content) || negb (truthy_id ticketId) then mret tt
  else
    try_catch
      (user ← gets currentUser;
       match user with
       | None => throw (NullError "currentUser")
       | Some user =>
           response ← authorizedFetch
             (plain (API_BASE_URL +:+ "/tickets/" +:+ default "" ticketId
                     +:+ "/messages"))
             {| method := Some "POST"; headers := ∅;
                body := Some (messageData content user) |};
           r ← defined response "ok";
           if negb (ok r) then throw (Error "Ошибка отправки сообщения") else
           newMessage ← response_json r;
           update "chatMessages"
             (λ e, set_innerHTML (innerHTML e ++ [newMessageNode newMessage]) e);;
           update "chatInput" (set_value "")
       end)
      (λ error, showNotification "Ошибка отправки сообщения" "error").

(** The messages in the chat, oldest first. *)
Definition chat (w : World) : list Node :=
  match dom w !! "chatMessages" with
  | Some e => innerHTML e
  | None => []
  end.

(** ** The script: accepting a ticket *)

Definition jsonHeaders : gmap string string :=
  {[ "Content-Type" := "application/json" ]}.

Definition closeAcceptModal : Js unit :=
  update "acceptTicketModal" (set_display "none");;
  modify (with_vars (set_currentAcceptTicketId None)).

Definition loadTicketForAccept (ticketId : string) : Js unit :=
  try_catch
    (response ← authorizedFetch
       (plain (API_BASE_URL +:+ "/tickets/" +:+ ticketId)) no_options;
     r ← defined response "ok";
     if negb (ok r) then throw (Error "Ошибка загрузки тикета") else
     ticket ← response_json r;
     match ticket with
     | TicketBody t => update "acceptTicketDetails" (set_innerHTML [AcceptPreview t])
     | _ => throw (UndefinedError "substring")
     end)
    (λ error, showNotification "Ошибка загрузки данных тикета" "error").

Definition showAcceptTicketModal (ticketId : string) : Js unit :=
  modify (with_vars (set_currentAcceptTicketId (Some ticketId)));;
  detached (loadTicketForAccept ticketId);;
  update "acceptTicketModal" (set_display "flex");;
  update "closeAcceptModal" (set_onclick (Some CloseAcceptModal));;
  update "cancelAccept" (set_onclick (Some CloseAcceptModal));;
  update "confirmAccept" (set_onclick (Some ConfirmAccept)).

Definition confirmAcceptTicket : Js unit :=
  accepted ← gets currentAcceptTicketId;
  if negb (truthy_id accepted) then mret tt else
  let ticketId := default "" accepted in
  acceptPriority ← element "acceptPriority";
  let priority := value acceptPriority in
  try_catch
    (assignResponse ← authorizedFetch
       (plain (API_BASE_URL +:+ "/support/tickets/" +:+ ticketId +:+ "/assign"))
       {| method := Some "POST"; headers := jsonHeaders; body := None |};
     r ← defined assignResponse "status";
     if negb (ok r) then
       throw (Error ("Ошибка принятия тикета: " +:+ text r))
     else
       assignResult ← response_json r;
       priorityResponse ← authorizedFetch
         (plain (API_BASE_URL +:+ "/tickets/" +:+ ticketId))
         {| method := Some "PATCH"; headers := jsonHeaders;
            body := Some [("priority", priority)] |};
       r' ← defined priorityResponse "status";
       (if negb (ok r') then
          showNotification "Тикет принят, но не удалось обновить приоритет"
            "warning"
        else mret tt);;
       showNotification "Тикет успешно принят!" "success";;
       closeAcceptModal;;
       await_both loadUnassignedTickets loadAssignedTickets)
    (λ error,
       showNotification ("Ошибка при принятии тикета: " +:+ exn_message error)
         "error").

(** ** The script: priority and status of the open ticket *)

Definition priorityClasses : list string :=
  ["priority-низкий"; "priority-средний"; "priority-высокий";
   "priority-критический"; "priority-не_определён"].

Definition statusClasses : list string :=
  ["status-открыт"; "status-в_работе"; "status-решен"; "status-закрыт"].

Definition restyle (old : list string) (new text : string) (b : Badge) : Badge :=
  let kept := filter (λ c, c ∉ old) (badge_classes b) in
  {| badge_classes := if decide (new ∈ kept) then kept else kept ++ [new];
     badge_text := text |}.

(** The first [.priority-badge] / [.status-badge] inside the details. *)
Fixpoint restylePriority (f : Badge → Badge) (l : list Node) : list Node :=
  match l with
  | TicketDetails t s p :: l' => TicketDetails t s (f p) :: l'
  | n :: l' => n :: restylePriority f l'
  | [] => []
  end.

Fixpoint restyleStatus (f : Badge → Badge) (l : list Node) : list Node :=
  match l with
  | TicketDetails t s p :: l' => TicketDetails t (f s) p :: l'
  | n :: l' => n :: restyleStatus f l'
  | [] => []
  end.

Definition is_details (n : Node) : bool :=
  match n with TicketDetails _ _ _ => true | _ => false end.

Definition has_details (e : Element) : bool := existsb is_details (innerHTML e).

(** [newPriority] is [updatedTicket.priority]; [None] when the answer has
    no such field, and then [getPriorityText] throws once a badge is found. *)
Definition updateChatPriorityDisplay (newPriority : option string) : Js unit :=
  update_if_present "chatPriority"
    (set_value (from_option select_value "" newPriority));;
  ticketDetails ← getElementById "supportTicketDetails";
  match ticketDetails with
  | Some e =>
      if has_details e then
        match newPriority with
        | Some p =>
            update "supportTicketDetails"
              (λ e, set_innerHTML
                 (restylePriority
                    (restyle priorityClasses ("priority-" +:+ p) (getPriorityText p))
                    (innerHTML e)) e)
        | None =>
            update "supportTicketDetails"
              (λ e, set_innerHTML
                 (restylePriority
                    (λ b, restyle priorityClasses "priority-undefined" (badge_text b) b)
                    (innerHTML e)) e);;
            throw (UndefinedError "charAt")
        end
      else mret tt
  | None => mret tt
  end.

Definition updateChatStatusDisplay (newStatus : string) : Js unit :=
  update_if_present "supportTicketDetails"
    (λ e, set_innerHTML
       (restyleStatus
          (restyle statusClasses ("status-" +:+ newStatus) (getStatusText newStatus))
          (innerHTML e)) e).

Definition priority_of (data : Body) : option string :=
  match data with TicketBody t => Some (ticket_priority t) | _ => None end.

Definition updateTicketPriority (ticketId : option string) : Js unit :=
  current ← gets currentTicketId;
  if negb (truthy_id ticketId) || bool_decide (ticketId ≠ current) then mret tt
  else
    prioritySelect ← getElementById "chatPriority";
    match prioritySelect with
    | None => mret tt
    | Some prioritySelect =>
        let priority := value prioritySelect in
        try_catch
          (response ← authorizedFetch
             (plain (API_BASE_URL +:+ "/tickets/" +:+ default "" ticketId))
             {| method := Some "PATCH"; headers := jsonHeaders;
                body := Some [("priority", priority)] |};
           r ← defined response "ok";
           if negb (ok r) then
             throw (Error ("Ошибка обновления приоритета: " +:+ text r))
           else
             updatedTicket ← response_json r;
             updateChatPriorityDisplay (priority_of updatedTicket);;
             showNotification "Приоритет тикета обновлен!" "success";;
             loadUnassignedTickets;;
             loadAssignedTickets)
          (λ error,
             showNotification
               ("Ошибка при обновлении приоритета: " +:+ exn_message error)
               "error")
    end.

(** [confirm(question)]: the user's answer. *)
Definition confirm (question : string) : Js bool :=
  modify (with_env (λ v, set_log (log v ++ [Confirm question]) v));;
  gets confirmReply.

Definition clearAndHide : Js unit :=
  modal ← getElementById "supportTicketModal";
  match modal with
  | Some _ =>
      update_if_present "chatMessages" (set_innerHTML []);;
      update_if_present "supportTicketDetails" (set_innerHTML []);;
      update "supportTicketModal" hideSupportModal;;
      body_classList (classList_remove "modal-open")
  | None => mret tt
  end.

Definition closeTicket (ticketId : option string) : Js unit :=
  current ← gets currentTicketId;
  if negb (truthy_id ticketId) || bool_decide (ticketId ≠ current) then mret tt
  else
    sure ← confirm "Вы уверены, что хотите закрыть этот тикет?";
    if negb sure then mret tt else
    try_catch
      (response ← authorizedFetch
         (plain (API_BASE_URL +:+ "/tickets/" +:+ default "" ticketId))
         {| method := Some "PATCH"; headers := jsonHeaders;
            body := Some [("status", "закрыт")] |};
       r ← defined response "ok";
       if negb (ok r) then
         throw (Error ("Ошибка закрытия тикета: " +:+ text r))
       else
         updatedTicket ← response_json r;
         updateChatStatusDisplay "закрыт";;
         showNotification "Тикет успешно закрыт!" "success";;
         loadUnassignedTickets;;
         loadAssignedTickets;;
         clearAndHide;;
         modify (with_vars (set_currentTicketId None)))
      (λ error,
         showNotification ("Ошибка при закрытии тикета: " +:+ exn_message error)
           "error").

(** The handlers of the two ticket-management buttons. *)
Definition updatePriorityBtn_onclick : Js unit :=
  current ← gets currentTicketId;
  if truthy_id current then detached (updateTicketPriority current) else mret tt.

Definition closeTicketBtn_onclick : Js unit :=
  current ← gets currentTicketId;
  if truthy_id current then detached (closeTicket current) else mret tt.

(** ** Events *)

Definition run (h : Handler) : Js unit :=
  match h with
  | CloseSupportModal => closeSupportModal_onclick
  | BackdropClick => supportModal_onclick true
  | SendMessage => detached sendMessage
  | UpdatePriority => updatePriorityBtn_onclick
  | CloseTicket => closeTicketBtn_onclick
  | CloseAcceptModal => closeAcceptModal
  | ConfirmAccept => detached confirmAcceptTicket
  end.

(** A click on the element [id] itself runs its [onclick] handler, if any. *)
Definition click (id : string) : Js unit :=
  target ← getElementById id;
  match target ≫= onclick with
  | Some h => run h
  | None => mret tt
  end.

(** ** Vocabulary of the statements *)

(** The number of requests sent so far: the server's answer to the next
    request [req] is [network w (sent w) req]. *)
Definition sent (w : World) : nat := length (requests w).

(** The request [authorizedFetch url options] sends from world [w]. *)
Definition authorized (w : World) (u : Url) (options : Options) : Request :=
  {| url := u;
     init := {| method := method options;
                headers := headers options ∪ getAuthHeaders w;
                body := body options |} |}.

(** The world after a request went out, and after the session was torn
    down on a 401. *)
Definition sending (req : Request) (w : World) : World :=
  with_env (λ v, set_log (log v ++ [Fetch req]) v) w.

Definition teardown (w : World) : World :=
  with_env
    (λ v, set_log (((log v ++ [RemoveItem "auth_token"])
                    ++ [RemoveItem "user_data"]) ++ [Navigate "login.html"]) v)
    (with_browser
       (λ b, set_location "login.html"
               (set_localStorage
                  (delete "user_data" (delete "auth_token" (localStorage b))) b))
       w).

(** The support chat modal is on display. *)
Definition modal_visible (w : World) : bool :=
  match dom w !! "supportTicketModal" with
  | Some e => bool_decide (display e = "block") && classList_contains "active" e
  | None => false
  end.

(** The ticket whose details the modal shows. *)
Definition details_of (n : Node) : option Ticket :=
  match n with TicketDetails t _ _ => Some t | _ => None end.
Definition open_ticket (w : World) : option Ticket :=
  dom w !! "supportTicketDetails" ≫= λ e, head (omap details_of (innerHTML e)).

(** [keeps R m]: whatever way the call [m] ends, the world it leaves is
    related by [R] to the one it started from. *)
Definition keeps (R : relation World) {A} (m : Js A) : Prop :=
  ∀ w, R w (m w).2.

(** The call leaves the observation [f] of the world as it was. *)
Definition same {B} (f : World → B) : relation World := λ w w', f w' = f w.

(** Notifications are only added. *)
Definition more_toasts : relation World :=
  λ w w', toasts w `prefix_of` toasts w'.

Definition messagesUrl (t : string) : Url :=
  plain (API_BASE_URL +:+ "/tickets/" +:+ t +:+ "/messages").

Definition post (data : list (string * string)) : Options :=
  {| method := Some "POST"; headers := ∅; body := Some data |}.

(** The requests of the accept flow for ticket [t] and priority [p], and
    the two queue requests. *)
Definition assignRequest (w : World) (t : string) : Request :=
  authorized w (plain (API_BASE_URL +:+ "/support/tickets/" +:+ t +:+ "/assign"))
    {| method := Some "POST"; headers := jsonHeaders; body := None |}.

Definition priorityRequest (w : World) (t p : string) : Request :=
  authorized w (plain (API_BASE_URL +:+ "/tickets/" +:+ t))
    {| method := Some "PATCH"; headers := jsonHeaders;
       body := Some [("priority", p)] |}.

Definition unassignedRequest (w : World) : Request :=
  authorized w (plain (API_BASE_URL +:+ "/support/tickets/unassigned")) no_options.

Definition assignedRequest (w : World) : Request :=
  authorized w (plain (API_BASE_URL +:+ "/support/tickets/assigned")) no_options.

(** The call was answered, and with an ok status. *)
Definition succeeded (answer : FetchResult) : bool :=
  match answer with Responded r => ok r | Rejected _ => false end.

(** The call was answered, and the gateway hands the answer on: the status
    is not 401. *)
Definition answered (answer : FetchResult) : bool :=
  match answer with
  | Responded r => bool_decide (status r ≠ 401%Z)
  | Rejected _ => false
  end.

(** The elements of the accept dialog. *)
Definition acceptDialog : list string :=
  ["acceptPriority"; "notifications"; "acceptTicketModal"].

Definition priorityWarning : string * string :=
  ("Тикет принят, но не удалось обновить приоритет", "warning").

Definition acceptedToast : string * string := ("Тикет успешно принят!", "success").

(** The elements the queue loaders write to. *)
Definition queueOutputs : list string :=
  ["unassignedTicketsGrid"; "assignedTicketsGrid"; "notifications"].

(** The request for the details of ticket [t], its messages, and the
    mark-read call. *)
Definition ticketRequest (w : World) (t : string) : Request :=
  authorized w (plain (API_BASE_URL +:+ "/tickets/" +:+ t)) no_options.

Definition messagesRequest (w : World) (t : string) : Request :=
  authorized w (messagesUrl t) no_options.

(** The session invariant of the support chat: the pointer is null while
    the modal is not on display, and set while it is. *)
Definition session_invariant (w : World) : Prop :=
  if modal_visible w then is_Some (currentTicketId w)
  else currentTicketId w = None.

(** The elements of the support chat modal that the script needs. *)
Definition chatModal : list string :=
  ["supportModalTicketTitle"; "supportTicketDetails"; "chatMessages";
   "supportTicketModal"].

(** The elements the ticket list is rendered into. *)
Definition listView : list string :=
  ["loading"; "ticketsGrid"; "totalTickets"; "openTickets"; "progressTickets";
   "resolvedTickets"; "pagination"].

(** The form of the create tab. *)
Definition createForm : list string :=
  ["submitTicket"; "ticketTitle"; "ticketDescription"; "ticketCategory";
   "reporterName"; "reporterEmail"].

(** The value of the form control [id], if it is on the page. *)
Definition field (w : World) (id : string) : option string :=
  value <$> dom w !! id.

(** The payload [handleTicketSubmit] reads from the form. *)
Definition formData (w : World) : list (string * string) :=
  [("title", default "" (field w "ticketTitle"));
   ("description", default "" (field w "ticketDescription"));
   ("category", default "" (field w "ticketCategory"));
   ("reporter_name", default "" (field w "reporterName"));
   ("reporter_email", default "" (field w "reporterEmail"))].

(** The section [id] is the one on display / is put away. *)
Definition shown (w : World) (id : string) : Prop :=
  ∃ e, dom w !! id = Some e ∧ display e = "block" ∧ "active" ∈ classList e.
Definition hidden (w : World) (id : string) : Prop :=
  ∃ e, dom w !! id = Some e ∧ display e = "none" ∧ "active" ∉ classList e.

(** The elements [loadUserTickets] writes to. *)
Definition listOutputs : list string := listView ++ ["notifications"].

(** The elements [ids] are on the page. *)
Definition present (ids : list string) (w : World) : Prop :=
  Forall (λ id, is_Some (dom w !! id)) ids.

(** The status rank as the list is meant to show it: open, in progress,
    closed, and any other status with the open ones. *)
Definition status_rank (status : string) : Z :=
  if decide (status = "в работе") then 2%Z
  else if decide (status = "закрыт") then 3%Z
  else 1%Z.

Definition rank_le (a b : Ticket) : Prop :=
  (status_rank (ticket_status a) ≤ status_rank (ticket_status b))%Z.

(** No ticket of the list has a status that names an inherited property. *)
Definition plain_statuses (tickets : list Ticket) : Prop :=
  Forall (λ t, ticket_status t ∉ Object_prototype) tickets.

Definition supportCheck : Url := plain (API_BASE_URL +:+ "/support/check").

(** The filter set as the form controls give it: a control that is empty
    (the search text after trimming) contributes nothing. *)
Definition filterSet (status category priority search : string)
  : list (string * string) :=
  filter (λ kv, kv.2 ≠ "")
    [("status", status); ("category", category); ("priority", priority);
     ("search_text", JsString.trim search)].

(** The list request for page [page] of [email]'s tickets under [filters]. *)
Definition listQuery (email : string) (page : Z) (filters : list (string * string))
  : Url :=
  {| path := API_BASE_URL +:+ "/tickets/";
     query := [("reporter_email", email); ("page", pretty page);
               ("page_size", "12")] ++ filters |}.

(** ** The live-update channel over time *)

(** The timer that [setTimeout(connectWebSocket, ms)] leaves. *)
Definition reconnect (ms : Z) : Timer :=
  {| callback := ConnectWebSocket; delay := ms |}.

Definition is_reconnect (t : Timer) : bool :=
  match callback t with
  | ConnectWebSocket => true
  | RemoveNotification _ => false
  end.

(** The reconnect attempts that are scheduled. *)
Definition reconnects (w : World) : list Timer :=
  filter (λ t, is_reconnect t = true) (timers w).

(** A socket that has its [onclose] handler and has not closed yet. *)
Definition live (x : Socket) : bool := handlers x && negb (ws_closed x).

Definition connections (w : World) : list Socket :=
  filter (λ x, live x = true) (sockets w).

(** What the browser does to the channel: a socket closes, or a timer
    expires.  Each runs its handler to the end, whatever the one before
    did. *)
Inductive ChannelEvent :=
| SocketCloses (s : nat)
| TimerExpires (k : nat).

Definition handle (e : ChannelEvent) : Js unit :=
  match e with
  | SocketCloses s => socket_close s
  | TimerExpires k => fire k
  end.

Definition after_events (es : list ChannelEvent) (w : World) : World :=
  foldl (λ w e, after (handle e) w) w es.

(** The delays the script uses for a reconnect attempt. *)
Definition fixed_delay (t : Timer) : Prop :=
  delay t = 5000%Z ∨ delay t = 10000%Z.

(** The channel is up or about to be retried: there is one live socket or
    one scheduled reconnect attempt, and a scheduled attempt is 5 or 10
    seconds away. *)
Definition channel_alive (w : World) : Prop :=
  length (connections w) + length (reconnects w) = 1
  ∧ Forall fixed_delay (reconnects w).

(** The event that the channel waits for next. *)
Definition awaited (e : ChannelEvent) (w : World) : Prop :=
  match e with
  | SocketCloses s => live <$> sockets w !! s = Some true
  | TimerExpires k => is_reconnect <$> timers w !! k = Some true
  end.

(** ** A page to run the script on *)

Module Sample.

Definition user : User :=
  {| user_email := "anna@example.com"; user_full_name := "Anna";
     user_username := "anna"; user_is_support_staff := true |}.

Definition field (x : string) : Element := set_value x blank.

Definition page : gmap string Element :=
  list_to_map
    [ ("loading", blank); ("notifications", blank); ("ticketsGrid", blank);
      ("totalTickets", blank); ("openTickets", blank);
      ("progressTickets", blank); ("resolvedTickets", blank);
      ("pagination", blank);
      (".nav-list",
        set_innerHTML [NavItem "home" true; NavItem "create" false;
                       NavItem "profile" false] blank);
      ("main .container", blank);
      ("home-tab", set_classList ["tab-content"] blank);
      ("create-tab",
        set_display "block" (set_classList ["tab-content"; "active"] blank));
      ("profile", set_classList ["tab-section"] blank);
      ("submitTicket", set_innerHTML [Markup "Создать тикет"] blank);
      ("ticketTitle", field "Принтер не печатает");
      ("ticketCategory", field "техническая");
      ("ticketDescription", field "Не печатает с утра");
      ("reporterName", field "Anna");
      ("reporterEmail", field "anna@example.com");
      ("statusFilter", field "открыт"); ("categoryFilter", field "");
      ("priorityFilter", field "высокий"); ("searchInput", field "  принтер ");
      ("supportTicketModal", blank); ("closeSupportModal", blank);
      ("supportModalTicketTitle", blank); ("supportTicketDetails", blank);
      ("chatMessages", blank); ("chatInput", field " Здравствуйте ");
      ("sendMessage", blank); (".chat-input-container", blank);
      ("acceptTicketModal", set_display "flex" blank);
      ("acceptTicketDetails", blank); ("acceptPriority", field "высокий");
      ("closeAcceptModal", blank); ("cancelAccept", blank);
      ("confirmAccept", blank) ].

Definition variables : Vars :=
  {| currentPage := 3; totalPages := 5; currentFilters := [];
     websocket := None; userEmail := "anna@example.com";
     currentUser := Some user; authToken := "secret";
     isSupportUser := false; currentTicketId := None;
     currentAcceptTicketId := None |}.

(** A freshly loaded page talking to a server that answers [net]. *)
Definition world (net : nat → Request → FetchResult) : World :=
  {| vars := variables;
     browser := {| localStorage := {[ "auth_token" := "secret";
                                     "user_data" := "{}" ]};
                   location := "index.html"; dom := page; timers := [];
                   nextId := 0 |};
     env := {| log := []; network := net; sockets := []; wsAttempts := 0;
               wsThrows := λ _, false; confirmReply := true |} |}.

Definition answer (code : Z) (data : option Body) : Response :=
  {| status := code; text := ""; json := data |}.

(** A server that gives the same answer to every request. *)
Definition always (r : Response) : nat → Request → FetchResult :=
  λ _ _, Responded r.

(** A server that answers the n-th request with the n-th response of a
    script, and does not answer after that. *)
Definition scripted (rs : list Response) : nat → Request → FetchResult :=
  λ n _, match rs !! n with
         | Some r => Responded r
         | None => Rejected (Error "Failed to fetch")
         end.

Definition ticket1 : Ticket :=
  {| ticket_id := "0f8fad5b-d9cb-469f-a165-70867728950e";
     ticket_title := "Принтер не печатает";
     ticket_description := "Не печатает с утра";
     ticket_category := "техническая"; ticket_priority := "высокий";
     ticket_status := "закрыт"; ticket_reporter_name := "Anna";
     ticket_reporter_email := "anna@example.com";
     ticket_created_at := "2024-05-01T10:00:00"; ticket_comments_count := 0 |}.

Definition ticket2 : Ticket :=
  {| ticket_id := "7c9e6679-7425-40de-944b-e07fc1f90ae7";
     ticket_title := "Счёт за май"; ticket_description := "Двойное списание";
     ticket_category := "биллинг"; ticket_priority := "средний";
     ticket_status := "открыт"; ticket_reporter_name := "Anna";
     ticket_reporter_email := "anna@example.com";
     ticket_created_at := "2024-05-02T09:30:00"; ticket_comments_count := 2 |}.


Definition message1 : Message :=
  {| msg_content := "Здравствуйте"; msg_author_name := "Anna";
     msg_is_support := true; msg_created_at := "2024-05-02T09:31:00" |}.

(** The same page for a support agent. *)
Definition support (w : World) : World := with_vars (set_isSupportUser true) w.

(** The same page with the chat of ticket [t] as the current session. *)
Definition session (t : string) (w : World) : World :=
  with_vars (set_currentTicketId (Some t)) w.

(** The same page with ticket [t] in the accept dialog. *)
Definition accepting (t : string) (w : World) : World :=
  with_vars (set_currentAcceptTicketId (Some t)) w.

(** A support agent confirms the accept dialog of a ticket; the server
    answers the assignment with 200 and the priority update with [code]. *)
Definition accept (code : Z) : World :=
  accepting "7c9e6679"
    (support (world (scripted [answer 200 (Some OtherBody); answer code None]))).

(** The same page in a browser where [new WebSocket] throws. *)
Definition offline (w : World) : World :=
  {| vars := w; browser := w;
     env := {| log := log w; network := network w; sockets := sockets w;
               wsAttempts := wsAttempts w; wsThrows := λ _, true;
               confirmReply := confirmReply w |} |}.

End Sample.

(** ** The script: paging *)




(** The number of tickets whose status is one of [statuses]. *)
Definition statusCount (statuses : list string) (tickets : list Ticket) : nat :=
  length (filter (λ t, ticket_status t ∈ statuses) tickets).

(** The text of a counter of the list view. *)
Definition counter (w : World) (id : string) : option string :=
  textContent <$> dom w !! id.



(** ** The script: escaping

    [escapeHtml] replaces each of the five characters of its table by the
    entity the table gives.  The five are ASCII, and no byte of a
    multi-byte UTF-8 sequence is, so the replacement runs over the bytes. *)

Definition escapeChar (a : ascii) : string :=
  if Ascii.eqb a "&" then "&amp;"
  else if Ascii.eqb a "<" then "&lt;"
  else if Ascii.eqb a ">" then "&gt;"
  else if Ascii.eqb a (ascii_of_nat 34) then "&quot;"
  else if Ascii.eqb a "'" then "&#039;"
  else String a "".

Fixpoint escapeHtml (text : string) : string :=
  match text with
  | String a rest => escapeChar a +:+ escapeHtml rest
  | EmptyString => ""
  end.

(** The characters that open or close a tag or an attribute value. *)
Definition markup (a : ascii) : bool :=
  Ascii.eqb a "<" || Ascii.eqb a ">" || Ascii.eqb a (ascii_of_nat 34)
  || Ascii.eqb a "'".

Fixpoint occurs (P : ascii → bool) (s : string) : bool :=
  match s with
  | String a rest => P a || occurs P rest
  | EmptyString => false
  end.

(** The blocks in the notification area. *)
Definition notifications (w : World) : list Node :=
  match dom w !! "notifications" with
  | Some e => innerHTML e
  | None => []
  end.

(** No notification on display has the id that the next one will get. *)
Definition fresh_id (w : World) : Prop :=
  Forall (λ n, is_notification (nextId w) n = false) (notifications w).

(** The page loses no element: what [getElementById] found before, it finds
    afterwards. *)
Definition grows : relation World :=
  λ w w', ∀ id, is_Some (dom w !! id) → is_Some (dom w' !! id).

(** The loading indicator is on. *)
Definition loading (w : World) : option bool :=
  classList_contains "active" <$> dom w !! "loading".

(** The notifications of the live channel that concern the session: one of
    the three ticket events, about a ticket the session's user reported. *)
Definition concerns (w : World) (n : WsNotification) (t : Ticket) : Prop :=
  event n ∈ ["created"; "updated"; "comment_added"]
  ∧ ticket n = Some t ∧ ticket_reporter_email t = userEmail w.

(** The list tab is the one on display. *)
Definition home_active (w : World) : bool :=
  match dom w !! "home-tab" with
  | Some home => classList_contains "active" home
  | None => false
  end.

(** The two queues of the support console: the unassigned one, whose cards
    offer to accept the ticket, and the assigned one, whose cards open the
    chat. *)
Definition loadQueue (unassigned : bool) : Js unit :=
  if unassigned then loadUnassignedTickets else loadAssignedTickets.

Definition queueGrid (unassigned : bool) : string :=
  if unassigned then "unassignedTicketsGrid" else "assignedTicketsGrid".

Definition queueRequest (unassigned : bool) (w : World) : Request :=
  if unassigned then unassignedRequest w else assignedRequest w.

Definition queueError (unassigned : bool) : string :=
  if unassigned then "Ошибка загрузки новых тикетов"
  else "Ошибка загрузки принятых тикетов".



(** The request carries the bearer token [token]. *)
Definition carries_token (token : string) (req : Request) : Prop :=
  headers (init req) !! "Authorization" = Some ("Bearer " +:+ token).

(** The token in use stays the same, and every request sent since carries
    it. *)
Definition signs_requests : relation World :=
  λ w w', authToken w' = authToken w
          ∧ ∃ new, requests w' = requests w ++ new
                   ∧ Forall (carries_token (authToken w)) new.

(** The priority badge of the ticket details on display. *)
Definition priority_badge (n : Node) : option Badge :=
  match n with TicketDetails _ _ p => Some p | _ => None end.
Definition shown_priority (w : World) : option Badge :=
  dom w !! "supportTicketDetails" ≫= λ e, head (omap priority_badge (innerHTML e)).

(** The call by which opening the chat marks the ticket as read. *)
Definition markReadRequest (w : World) (t : string) : Request :=
  authorized w
    (plain (API_BASE_URL +:+ "/support/tickets/" +:+ t +:+ "/mark-read"))
    {| method := Some "POST"; headers := ∅; body := None |}.

(** The modal has a place for the ticket controls. *)
Definition has_controls_slot (w : World) : bool :=
  bool_decide (is_Some (dom w !! ".chat-input-container"))
  || bool_decide (is_Some (dom w !! ".support-modal-body")).

(** The five sections [switchTab] can show. *)
Definition tabSections : list string :=
  ["home-tab"; "create-tab"; "unassigned-tab"; "assigned-tab"; "profile"].

(** A name that can stand between the quotes of the selector
    [[data-tab=...]] as it is: it has none of the characters that end or
    escape a quoted string of a selector (the double quote, the backslash,
    a line break, a form feed, the null character).  For such a name the
    selector finds the elements whose attribute is the name. *)
Definition selector_special (a : ascii) : bool :=
  bool_decide (nat_of_ascii a ∈ [0; 10; 12; 13; 34; 92]%nat).
Definition plain_name (s : string) : Prop := occurs selector_special s = false.

(** The answer to the list request is one [loadUserTickets] can render: ok,
    and JSON with a page of tickets. *)
Definition usable_page (answer : FetchResult) : bool :=
  match answer with
  | Responded r =>
      ok r && match json r with Some (TicketPage _ _) => true | _ => false end
  | Rejected _ => false
  end.

(** ** More pages to run the script on *)

Module Demo.

Definition tickets : list Ticket := [Sample.ticket1; Sample.ticket2].

(** The answer with a page of two tickets, out of five pages. *)
Definition page_answer : Response :=
  Sample.answer 200 (Some (TicketPage tickets 5)).

(** The sample page on a server that always answers with that page, and on
    one that always fails. *)
Definition listing : World := Sample.world (Sample.always page_answer).
Definition failing : World :=
  Sample.world (Sample.always (Sample.answer 500 None)).

(** The chat of the second ticket, open on a server that always fails, with
    the ticket controls in place. *)
Definition managing : World :=
  with_browser (λ b, set_dom (dom b ∪ ticketControls Sample.ticket2) b)
    (Sample.session "7c9e6679" failing).

(** A server that answers the ticket, its messages and the mark-read call. *)
Definition opening : World :=
  Sample.world
    (Sample.scripted
       [Sample.answer 200 (Some (TicketBody Sample.ticket2));
        Sample.answer 200 (Some (MessagesBody [Sample.message1]));
        Sample.answer 200 None]).

(** The live channel reports that the second ticket was created. *)
Definition created : WsNotification :=
  {| event := "created"; ticket := Some Sample.ticket2 |}.

End Demo.

(** * Properties *)

Create HintDb js discriminated.
#[global] Hint Unfold mbind mret Js_bind Js_ret gets modify throw record
  try_catch try_finally detached await_both defined response_json
  localStorage_removeItem localStorage_setItem navigate setTimeout
  getElementById element update update_if_present body_classList
  outcome after sending teardown : js.

(** Runs the combinators of the control flow on the goal. *)
Ltac js := repeat (autounfold with js; cbn).

Lemma requests_app (w : World) (l : list Effect) :
  omap request_of (log w ++ l) = requests w ++ omap request_of l.
Proof. unfold requests. by rewrite omap_app. Qed.

(** ** The gateway *)

Section authorizedFetch.
Context (u : Url) (options : Options) (w : World).

Let req := authorized w u options.

Lemma authorizedFetch_ok r :
  network w (sent w) req = Responded r → status r ≠ 401%Z →
  authorizedFetch u options w = (Return (Some r), sending req w).
Proof.
  intros Hnet Hstatus. unfold authorizedFetch, fetch. js.
  unfold sent, req, authorized in Hnet. rewrite Hnet.
  by destruct (decide _).
Qed.

Lemma authorizedFetch_401 r :
  network w (sent w) req = Responded r → status r = 401%Z →
  authorizedFetch u options w = (Return None, teardown (sending req w)).
Proof.
  intros Hnet Hstatus. unfold authorizedFetch, fetch. js.
  unfold sent, req, authorized in Hnet. rewrite Hnet.
  by destruct (decide _).
Qed.

Lemma authorizedFetch_rejected e :
  network w (sent w) req = Rejected e →
  authorizedFetch u options w = (Throw e, sending req w).
Proof.
  intros Hnet. unfold authorizedFetch, fetch. js.
  unfold sent, req, authorized in Hnet. by rewrite Hnet.
Qed.

(** The three ways a call of the gateway can end. *)
Lemma authorizedFetch_cases :
  (∃ r, network w (sent w) req = Responded r ∧ status r ≠ 401%Z
        ∧ authorizedFetch u options w = (Return (Some r), sending req w))
  ∨ (∃ r, network w (sent w) req = Responded r ∧ status r = 401%Z
          ∧ authorizedFetch u options w = (Return None, teardown (sending req w)))
  ∨ (∃ e, network w (sent w) req = Rejected e
          ∧ authorizedFetch u options w = (Throw e, sending req w)).
Proof.
  destruct (network w (sent w) req) as [r|e] eqn:Hnet.
  - destruct (decide (status r = 401%Z)).
    + right; left. eauto using authorizedFetch_401.
    + left. eauto using authorizedFetch_ok.
  - right; right. eauto using authorizedFetch_rejected.
Qed.
End authorizedFetch.

(** C3. A 401 answer to a call through [authorizedFetch] removes the stored
    token and the stored user data, each exactly once, sends the browser to
    the login page and gives the caller [undefined]; any other answer is
    handed to the caller as it is, after that single request. *)
Theorem C3_authorizedFetch_401_teardown (u : Url) (options : Options)
    (w : World) (r : Response) :
  network w (sent w) (authorized w u options) = Responded r →
  let w' := after (authorizedFetch u options) w in
  (status r = 401%Z →
     outcome (authorizedFetch u options) w = Return None
     ∧ log w' = log w ++ [Fetch (authorized w u options);
                          RemoveItem "auth_token"; RemoveItem "user_data";
                          Navigate "login.html"]
     ∧ localStorage w' = delete "user_data" (delete "auth_token" (localStorage w))
     ∧ location w' = "login.html")
  ∧ (status r ≠ 401%Z →
     outcome (authorizedFetch u options) w = Return (Some r)
     ∧ log w' = log w ++ [Fetch (authorized w u options)]
     ∧ browser w' = browser w ∧ vars w' = vars w).
Proof.
  intros Hnet w'. subst w'. split; intros Hstatus.
  - unfold after, outcome. rewrite (authorizedFetch_401 _ _ _ r) by done.
    js. by rewrite <- !app_assoc.
  - unfold after, outcome. by rewrite (authorizedFetch_ok _ _ _ r).
Qed.

Lemma C3_authorizedFetch_401_teardown_witness :
  network (Sample.world (Sample.always (Sample.answer 401 None)))
    (sent (Sample.world (Sample.always (Sample.answer 401 None))))
    (authorized (Sample.world (Sample.always (Sample.answer 401 None)))
       (plain "http://localhost:8000/tickets/") no_options)
  = Responded (Sample.answer 401 None)
  ∧ location (after (authorizedFetch (plain "http://localhost:8000/tickets/") no_options)
                (Sample.world (Sample.always (Sample.answer 401 None))))
    = "login.html".
Proof.
  split; [reflexivity|].
  eapply (C3_authorizedFetch_401_teardown _ _ _ (Sample.answer 401 None));
    reflexivity.
Defined.

(** ** Frame rules *)

Global Instance same_preorder {B} (f : World → B) : PreOrder (same f).
Proof. split; unfold same; [by intros ?|intros ??? -> ->; done]. Qed.

Global Instance more_toasts_preorder : PreOrder more_toasts.
Proof.
  split; unfold more_toasts; [by intros ?|].
  intros x y z ??. by etrans.
Qed.

Section frame.
Context (R : relation World) `{!PreOrder R}.

Lemma keeps_ret {A} (a : A) : keeps R (mret a).
Proof. by intros w. Qed.

Lemma keeps_throw {A} e : keeps R (@throw A e).
Proof. by intros w. Qed.

Lemma keeps_gets {A} (f : World → A) : keeps R (gets f).
Proof. by intros w. Qed.

Lemma keeps_element id : keeps R (element id).
Proof. intros w. unfold element. by destruct (dom w !! id). Qed.

Lemma keeps_bind {A B} (m : Js A) (k : A → Js B) :
  keeps R m → (∀ a, keeps R (k a)) → keeps R (m ≫= k).
Proof.
  intros Hm Hk w. specialize (Hm w). unfold mbind, Js_bind.
  destruct (m w) as [[a|e] w1]; [|done].
  etrans; [exact Hm|apply Hk].
Qed.

Lemma keeps_try_catch {A} (m : Js A) h :
  keeps R m → (∀ e, keeps R (h e)) → keeps R (try_catch m h).
Proof.
  intros Hm Hh w. specialize (Hm w). unfold try_catch.
  destruct (m w) as [[a|e] w1]; [done|].
  etrans; [exact Hm|apply Hh].
Qed.

Lemma keeps_try_finally {A} (m : Js A) final :
  keeps R m → keeps R final → keeps R (try_finally m final).
Proof.
  intros Hm Hf w. specialize (Hm w). unfold try_finally.
  destruct (m w) as [r w1]. specialize (Hf w1).
  destruct (final w1) as [[[]|e] w2]; by etrans.
Qed.

Lemma keeps_detached {A} (m : Js A) : keeps R m → keeps R (detached m).
Proof. intros Hm w. apply Hm. Qed.

Lemma keeps_await_both a b : keeps R a → keeps R b → keeps R (await_both a b).
Proof.
  intros Ha Hb w. specialize (Ha w). unfold await_both.
  destruct (a w) as [ra wa]. specialize (Hb wa).
  destruct (b wa) as [rb wb].
  assert (R w wb) by by etrans.
  by destruct ra, rb.
Qed.

Lemma keeps_modify f : (∀ w : World, R w (f w)) → keeps R (modify f).
Proof. intros Hf w. apply Hf. Qed.

Lemma keeps_update id f :
  (∀ (w : World) e, dom w !! id = Some e →
          R w (with_browser (set_dom (<[id:=f e]> (dom w))) w)) →
  keeps R (update id f).
Proof. intros Hf w. unfold update. destruct (dom w !! id) eqn:?; eauto. by cbn. Qed.

Lemma keeps_fetch u o :
  (∀ (w : World) req, R w (sending req w)) → keeps R (fetch u o).
Proof. intros Hf w. unfold fetch. cbn. destruct (network _ _ _); apply Hf. Qed.
End frame.

Create HintDb script discriminated.
#[global] Hint Unfold authorizedFetch record localStorage_removeItem
  localStorage_setItem navigate setTimeout getElementById update_if_present
  body_classList defined response_json showLoading showNotification
  renderSupportTickets loadUnassignedTickets loadAssignedTickets
  renderEmptyState renderTickets updateStats renderPagination loadUserTickets
  confirm : script.

(** Takes a call apart along its control flow, down to the assignments. *)
Ltac keeps_step :=
  lazymatch goal with
  | |- keeps _ (mbind _ _) => apply keeps_bind; [apply _| |intros ?]
  | |- keeps _ (mret _) => apply keeps_ret; apply _
  | |- keeps _ (throw _) => apply keeps_throw; apply _
  | |- keeps _ (gets _) => apply keeps_gets; apply _
  | |- keeps _ (element _) => apply keeps_element; apply _
  | |- keeps _ (try_catch _ _) => apply keeps_try_catch; [apply _| |intros ?]
  | |- keeps _ (try_finally _ _) => apply keeps_try_finally; [apply _| |]
  | |- keeps _ (detached _) => apply keeps_detached
  | |- keeps _ (await_both _ _) => apply keeps_await_both; [apply _| |]
  | |- keeps _ (modify _) => apply keeps_modify; intros ?
  | |- keeps _ (update _ _) => apply keeps_update; [apply _|intros ? ? ?]
  | |- keeps _ (fetch _ _) => apply keeps_fetch; intros ? ?
  | |- keeps _ (if ?b then _ else _) => destruct b
  | |- keeps _ (match ?x with _ => _ end) => destruct x
  | |- keeps _ _ => progress (autounfold with script; cbv beta zeta)
  end.

Ltac keeps_by tac := repeat keeps_step; try solve [tac].

Lemma loadUserTickets_same_filters :
  keeps (same (λ w, (currentPage w, currentFilters w))) loadUserTickets.
Proof. keeps_by ltac:(reflexivity). Qed.

Lemma loadUnassignedTickets_same_vars : keeps (same vars) loadUnassignedTickets.
Proof. keeps_by ltac:(reflexivity). Qed.

Lemma loadAssignedTickets_same_vars : keeps (same vars) loadAssignedTickets.
Proof. keeps_by ltac:(reflexivity). Qed.

#[global] Arguments loadUserTickets : simpl never.
#[global] Arguments loadUnassignedTickets : simpl never.
#[global] Arguments loadAssignedTickets : simpl never.

(** Side conditions of frame proofs about one element. *)
Ltac same_element Hid :=
  unfold same; cbn; rewrite lookup_insert_ne; [reflexivity|];
  intros <-; apply Hid; unfold listOutputs, listView; cbn; set_solver.

Lemma loadUserTickets_frame id :
  id ∉ listOutputs → keeps (same (λ w, dom w !! id)) loadUserTickets.
Proof. intros Hid. keeps_by ltac:(first [reflexivity|same_element Hid]). Qed.

Lemma loadUserTickets_lookup id (w : World) :
  bool_decide (id ∈ listOutputs) = false →
  dom (loadUserTickets w).2 !! id = dom w !! id.
Proof. intros Hid%bool_decide_eq_false. by apply loadUserTickets_frame. Qed.

(** C2. [updateTicketPriority] and [closeTicket] called with a ticket id
    that is null or is not the current session pointer return at once: the
    world is what it was, so nothing was sent and nothing changed. *)
Theorem C2_stale_ticket_actions_do_nothing (t : option string) (w : World) :
  t = None ∨ t ≠ currentTicketId w →
  updateTicketPriority t w = (Return tt, w)
  ∧ closeTicket t w = (Return tt, w).
Proof.
  intros Hstale. unfold updateTicketPriority, closeTicket. js.
  destruct Hstale as [->|Hne]; [done|].
  rewrite (bool_decide_eq_true_2 _ Hne), !orb_true_r. done.
Qed.

Lemma C2_stale_ticket_actions_do_nothing_witness :
  Some "7c9e6679" ≠ currentTicketId (Sample.world (Sample.always (Sample.answer 200 None)))
  ∧ closeTicket (Some "7c9e6679") (Sample.world (Sample.always (Sample.answer 200 None)))
    = (Return tt, Sample.world (Sample.always (Sample.answer 200 None))).
Proof.
  split; [done|].
  apply (C2_stale_ticket_actions_do_nothing (Some "7c9e6679")). by right.
Defined.

(** C10. The support capability is fail-closed.  Starting with the flag
    unset, [checkSupportStatus] sets it exactly when the check endpoint
    answers ok with [is_support] true; a non-ok answer or an exception
    leaves it false.  While it is false, [setupSupportInterface] injects
    nothing and the two queue loaders return at once, sending nothing. *)
Theorem C10_support_is_fail_closed (w : World) :
  isSupportUser w = false →
  let w' := after checkSupportStatus w in
  (isSupportUser w' = true ↔
     ∃ r, network w (sent w) (authorized w supportCheck no_options) = Responded r
          ∧ ok r = true ∧ json r = Some (SupportCheck true))
  ∧ (isSupportUser w' = false →
       setupSupportInterface w' = (Return tt, w')
       ∧ loadUnassignedTickets w' = (Return tt, w')
       ∧ loadAssignedTickets w' = (Return tt, w')).
Proof.
  intros Hfalse w'. split.
  - subst w'. unfold after, checkSupportStatus, try_catch, supportCheck.
    unfold mbind at 1, Js_bind at 1.
    destruct (authorizedFetch_cases (plain (API_BASE_URL +:+ "/support/check"))
                no_options w)
      as [(r & Hnet & Hs & ->)|[(r & Hnet & Hs & ->)|(e & Hnet & ->)]].
    + js. destruct (ok r) eqn:Hok; js.
      * destruct (json r) as [data|] eqn:Hjson; js.
        -- split.
           ++ intros Hsup. exists r. destruct data; naive_solver.
           ++ intros (r' & Hnet' & _ & Hjson').
              assert (r' = r) as -> by congruence.
              by assert (data = SupportCheck true) as -> by congruence.
        -- split; [done|]. intros (r' & Hnet' & _ & Hjson').
           assert (r' = r) as -> by congruence. congruence.
      * rewrite Hfalse. split; [done|].
        intros (r' & Hnet' & Hok' & _).
        assert (r' = r) as -> by congruence. congruence.
    + js. split; [done|].
      intros (r' & Hnet' & Hok' & _).
      assert (r' = r) as -> by congruence.
      unfold ok in Hok'. by rewrite Hs in Hok'.
    + js. split; [done|].
      intros (r' & Hnet' & _). congruence.
  - intros Hclosed.
    unfold setupSupportInterface, loadUnassignedTickets, loadAssignedTickets.
    js. by rewrite Hclosed.
Qed.

Lemma C10_support_is_fail_closed_witness :
  isSupportUser (Sample.world (Sample.always (Sample.answer 500 None))) = false
  ∧ loadUnassignedTickets
      (after checkSupportStatus
         (Sample.world (Sample.always (Sample.answer 500 None))))
    = (Return tt,
       after checkSupportStatus
         (Sample.world (Sample.always (Sample.answer 500 None)))).
Proof.
  split; [reflexivity|].
  eapply (C10_support_is_fail_closed
            (Sample.world (Sample.always (Sample.answer 500 None))));
    reflexivity.
Defined.

(** ** Requests of the list views *)

Section first.
Context (R : relation World) `{!PreOrder R}.

Lemma try_catch_first {A B} (m : Js A) (k : A → Js B) h w :
  (∀ a, keeps R (k a)) → (∀ e, keeps R (h e)) →
  R (m w).2 (try_catch (m ≫= k) h w).2.
Proof.
  intros Hk Hh. unfold try_catch, mbind, Js_bind.
  destruct (m w) as [[a|e] w1]; cbn.
  - specialize (Hk a w1). destruct (k a w1) as [[b|e] w2]; [done|].
    cbn in Hk. etrans; [exact Hk|apply Hh].
  - apply Hh.
Qed.

Lemma try_finally_first {A} (m : Js A) final w :
  keeps R final → R (m w).2 (try_finally m final w).2.
Proof.
  intros Hf. unfold try_finally. destruct (m w) as [r w1]. cbn.
  specialize (Hf w1). by destruct (final w1) as [[[]|e] w2].
Qed.
End first.

Lemma try_catch_gets {A B} (f : World → A) (k : A → Js B) h w :
  try_catch (gets f ≫= k) h w = try_catch (k (f w)) h w.
Proof. reflexivity. Qed.

Lemma authorizedFetch_requests u o w :
  requests (authorizedFetch u o w).2 = requests w ++ [authorized w u o].
Proof.
  destruct (authorizedFetch_cases u o w)
    as [(r & _ & _ & ->)|[(r & _ & _ & ->)|(e & _ & ->)]]; js;
    unfold requests; cbn; rewrite ?omap_app; cbn; by rewrite ?app_nil_r.
Qed.

Lemma loadUserTickets_requests (w : World) :
  is_Some (dom w !! "loading") →
  requests (after loadUserTickets w) =
    requests w ++ [authorized w (ticketsQuery w) no_options].
Proof.
  intros [loading Hloading]. unfold after, loadUserTickets, showLoading.
  unfold mbind at 1, Js_bind at 1, update at 1. rewrite Hloading.
  set (w1 := with_browser _ w).
  lazymatch goal with
  | |- requests (try_finally ?m ?f ?w).2 = _ =>
      assert (same requests (m w).2 (try_finally m f w).2) as ->
        by (apply try_finally_first; first [apply _|keeps_by ltac:(reflexivity)])
  end.
  rewrite try_catch_gets. cbv beta.
  lazymatch goal with
  | |- requests (try_catch (?m ≫= ?k) ?h ?w).2 = _ =>
      assert (same requests (m w).2 (try_catch (m ≫= k) h w).2) as ->
        by (apply try_catch_first; first [apply _|intros ?; keeps_by ltac:(reflexivity)])
  end.
  by rewrite authorizedFetch_requests.
Qed.

(** ** Filters *)

Lemma truthy_nonempty s : JsString.truthy s = true ↔ s ≠ "".
Proof.
  unfold JsString.truthy. rewrite negb_true_iff.
  destruct (String.eqb_spec s ""); naive_solver.
Qed.

(** C6. [applyFilters] rebuilds the filter set from the four controls,
    keeping only the non-empty status, category and priority and the
    non-empty trimmed search text, and sets the page to 1; the re-fetch it
    then triggers asks for page 1 under those filters. *)
Theorem C6_applyFilters_resets_page (w : World)
    (statusFilter categoryFilter priorityFilter searchInput : Element) :
  dom w !! "statusFilter" = Some statusFilter →
  dom w !! "categoryFilter" = Some categoryFilter →
  dom w !! "priorityFilter" = Some priorityFilter →
  dom w !! "searchInput" = Some searchInput →
  let filters := filterSet (value statusFilter) (value categoryFilter)
                   (value priorityFilter) (value searchInput) in
  let w' := after applyFilters w in
  currentFilters w' = filters
  ∧ currentPage w' = 1%Z
  ∧ (is_Some (dom w !! "loading") →
     requests w' = requests w ++
       [authorized w (listQuery (userEmail w) 1 filters) no_options]).
Proof.
  intros Hs Hc Hp Hq filters w'. subst filters w'.
  unfold after, applyFilters, filterSet. js. rewrite Hs, Hc, Hp, Hq. cbn.
  destruct (JsString.truthy (value statusFilter)) eqn:H1;
  destruct (JsString.truthy (value categoryFilter)) eqn:H2;
  destruct (JsString.truthy (value priorityFilter)) eqn:H3;
  destruct (JsString.truthy (JsString.trim (value searchInput))) eqn:H4;
  repeat match goal with
    | H : JsString.truthy _ = true |- _ => apply truthy_nonempty in H
    | H : JsString.truthy _ = false |- _ =>
        apply not_true_iff_false in H; rewrite truthy_nonempty in H;
        apply dec_stable in H
    end;
  repeat case_decide; try done.
  all: cbn.
  all: lazymatch goal with
       | |- context [loadUserTickets ?w1] =>
           pose proof (loadUserTickets_same_filters w1) as Hsame;
           unfold same in Hsame; cbn in Hsame; injection Hsame as Hpage Hfilters;
           split; [done|split; [done|]];
           intros Hloading;
           pose proof (loadUserTickets_requests w1 Hloading) as Hreq;
           unfold after in Hreq; rewrite Hreq
       end.
  all: reflexivity.
Qed.

Lemma C6_applyFilters_resets_page_witness :
  dom (Sample.world (Sample.always (Sample.answer 500 None))) !! "statusFilter"
    = Some (Sample.field "открыт")
  ∧ dom (Sample.world (Sample.always (Sample.answer 500 None))) !! "categoryFilter"
    = Some (Sample.field "")
  ∧ dom (Sample.world (Sample.always (Sample.answer 500 None))) !! "priorityFilter"
    = Some (Sample.field "высокий")
  ∧ dom (Sample.world (Sample.always (Sample.answer 500 None))) !! "searchInput"
    = Some (Sample.field "  принтер ")
  ∧ currentPage (Sample.world (Sample.always (Sample.answer 500 None))) = 3%Z
  ∧ currentPage
      (after applyFilters (Sample.world (Sample.always (Sample.answer 500 None))))
    = 1%Z.
Proof.
  do 5 (split; [reflexivity|]).
  eapply (C6_applyFilters_resets_page
            (Sample.world (Sample.always (Sample.answer 500 None))));
    reflexivity.
Defined.

(** ** Sorting *)

Section Array_sort_facts.
Context {A : Type} (key : A → Z).

Let compare (a b : A) : Z := (key a - key b)%Z.
Let le (a b : A) : Prop := (key a ≤ key b)%Z.

Lemma insert_sorted_perm x l : insert_sorted compare x l ≡ₚ x :: l.
Proof.
  induction l as [|y l IH]; cbn; [done|].
  case_decide; [done|]. by rewrite IH, Permutation_swap.
Qed.

Lemma Array_sort_perm l : Array_sort compare l ≡ₚ l.
Proof.
  induction l as [|x l IH]; cbn; [done|].
  by rewrite insert_sorted_perm, IH.
Qed.

Lemma insert_sorted_sorted x l :
  StronglySorted le l → StronglySorted le (insert_sorted compare x l).
Proof.
  induction 1 as [|y l Hl IH Hy]; cbn.
  - by repeat constructor.
  - case_decide as Hc; unfold compare in Hc.
    + constructor; [by constructor|]. constructor; [unfold le; lia|].
      eapply Forall_impl; [exact Hy|]. unfold le. intros; lia.
    + constructor; [done|].
      rewrite insert_sorted_perm. constructor; [unfold le; lia|done].
Qed.

Lemma Array_sort_sorted l : StronglySorted le (Array_sort compare l).
Proof.
  induction l as [|x l IH]; cbn; [constructor|].
  by apply insert_sorted_sorted.
Qed.
End Array_sort_facts.

(** The sort looks at the comparator on the elements of the list only. *)
Section Array_sort_ext.
Context {A : Type} (compare compare' : A → A → Z).

Lemma insert_sorted_permutation x l : insert_sorted compare x l ≡ₚ x :: l.
Proof.
  induction l as [|y l IH]; cbn; [done|].
  case_decide; [done|]. by rewrite IH, Permutation_swap.
Qed.

Lemma Array_sort_permutation l : Array_sort compare l ≡ₚ l.
Proof.
  induction l as [|x l IH]; cbn; [done|].
  by rewrite insert_sorted_permutation, IH.
Qed.

Lemma insert_sorted_ext x l :
  (∀ y, y ∈ l → compare x y = compare' x y) →
  insert_sorted compare x l = insert_sorted compare' x l.
Proof.
  induction l as [|y l IH]; intros Hsame; cbn; [done|].
  rewrite (Hsame y) by apply list_elem_of_here.
  rewrite IH; [done|]. intros z Hz. apply Hsame. by apply list_elem_of_further.
Qed.
End Array_sort_ext.

Lemma Array_sort_ext {A} (compare compare' : A → A → Z) l :
  (∀ x y, x ∈ l → y ∈ l → compare x y = compare' x y) →
  Array_sort compare l = Array_sort compare' l.
Proof.
  induction l as [|x l IH]; intros Hsame; [done|].
  change (insert_sorted compare x (Array_sort compare l)
          = insert_sorted compare' x (Array_sort compare' l)).
  rewrite IH.
  - apply insert_sorted_ext. intros y Hy. apply Hsame.
    + apply list_elem_of_here.
    + apply list_elem_of_further.
      by rewrite <- (Array_sort_permutation compare' l).
  - intros y z Hy Hz. apply Hsame; by apply list_elem_of_further.
Qed.

(** A status that names no inherited property has the rank the list is
    meant to give it; one that does has none. *)
Lemma rank_plain (status : string) :
  status ∉ Object_prototype → rank status = Some (status_rank status).
Proof.
  intros Hplain. unfold rank, status_rank, statusOrder.
  destruct (decide (status = "открыт")) as [->|Hopen]; [done|].
  rewrite lookup_insert_ne by done.
  destruct (decide (status = "в работе")) as [->|Hwork]; [done|].
  rewrite lookup_insert_ne by done.
  destruct (decide (status = "закрыт")) as [->|Hclosed]; [done|].
  rewrite lookup_singleton_ne by done. by rewrite decide_False.
Qed.


Lemma Array_sort_plain (tickets : list Ticket) :
  plain_statuses tickets →
  Array_sort byStatus tickets
  = Array_sort (λ a b, status_rank (ticket_status a)
                       - status_rank (ticket_status b))%Z tickets.
Proof.
  intros Hplain. apply Array_sort_ext. intros a b Ha Hb.
  unfold plain_statuses in Hplain. rewrite Forall_forall in Hplain.
  unfold byStatus. by rewrite !rank_plain by auto.
Qed.

Lemma StronglySorted_lookup {A} (R : relation A) l i j a b :
  StronglySorted R l → (i < j)%nat →
  l !! i = Some a → l !! j = Some b → R a b.
Proof.
  intros Hl. revert i j. induction Hl as [|x l Hl IH Hx]; intros i j Hij Hi Hj.
  - done.
  - destruct j as [|j]; [lia|]. destruct i as [|i]; simplify_eq/=.
    + rewrite Forall_forall in Hx. apply Hx. by eapply list_elem_of_lookup_2.
    + eapply (IH i j); [lia|done..].
Qed.

(** ** Running the script on a page *)

#[global] Arguments authorizedFetch : simpl never.

Lemma update_run id f (w : World) e :
  dom w !! id = Some e →
  update id f w = (Return tt, with_browser (set_dom (<[id:=f e]> (dom w))) w).
Proof. intros H. unfold update. by rewrite H. Qed.

Lemma rendered_cards (l : list Ticket) : omap ticket_of (TicketCard <$> l) = l.
Proof. induction l; cbn; by f_equal. Qed.

(** Two different literal ids. *)
Ltac distinct := solve [discriminate | intros ?; discriminate].

Ltac project :=
  unfold sending, teardown;
  cbn [vars browser env
       currentPage totalPages currentFilters websocket userEmail currentUser
       authToken isSupportUser currentTicketId currentAcceptTicketId
       localStorage location dom timers nextId
       log network sockets wsAttempts wsThrows confirmReply
       with_vars with_browser with_env
       set_currentPage set_totalPages set_currentFilters set_websocket
       set_userEmail set_isSupportUser set_currentTicketId
       set_currentAcceptTicketId set_localStorage set_location set_dom
       set_timers set_nextId set_log set_sockets set_wsAttempts].

(** Looks an element up through the updates made so far. *)
Ltac lookups :=
  project;
  repeat first
    [ rewrite lookup_insert_eq
    | rewrite lookup_insert_ne by distinct
    | rewrite lookup_alter_eq
    | rewrite lookup_alter_ne by distinct
    | match goal with
      | |- context [(?f <$> ?m) !! ?id] => rewrite (lookup_fmap f m id)
      end
    | match goal with
      | |- context [@fmap option _ _ _ ?f (Some ?x)] =>
          change (f <$> Some x) with (Some (f x))
      end
    | match goal with
      | |- context [dom (browser (loadUserTickets ?w).2) !! ?id] =>
          rewrite (loadUserTickets_lookup id w) by reflexivity
      end
    | match goal with
      | H : dom ?w !! ?id = Some _ |- context [dom ?w !! ?id] => rewrite H
      end
    | match goal with
      | |- context [(?m ∪ ticketControls ?t) !! ?id] =>
          rewrite (lookup_union_l m (ticketControls t) id) by reflexivity
      end
    | progress project
    | progress cbn [option_fmap option_map] ].

Ltac lookup := lookups; reflexivity.

(** Resolves the lookups of elements in the goal. *)
Ltac run_dom :=
  repeat first
    [ rewrite lookup_insert_eq
    | rewrite lookup_insert_ne by done
    | match goal with
      | H : dom ?w !! ?id = Some _ |- context [dom ?w !! ?id] => rewrite H
      end
    | progress cbn ].

Ltac present_inv H :=
  unfold present, listView in H;
  repeat match type of H with
    | Forall _ (_ :: _) =>
        let Hx := fresh "Hel" in
        let e := fresh "el" in
        apply Forall_cons in H as [[e Hx] H]
    end; clear H.

(** The grid after an ok answer with a page of tickets: the list of the
    answer as the sort leaves it. *)
Lemma loadUserTickets_renders (w : World) (r : Response)
    (tickets : list Ticket) (total_pages : Z) :
  present listView w →
  network w (sent w) (authorized w (ticketsQuery w) no_options) = Responded r →
  ok r = true →
  json r = Some (TicketPage tickets total_pages) →
  renderedTickets (after loadUserTickets w) = Array_sort byStatus tickets.
Proof.
  intros Hpage Hnet Hok Hjson. present_inv Hpage.
  assert (status r ≠ 401%Z) as H401.
  { unfold ok in Hok. intros E. by rewrite E in Hok. }
  unfold after, loadUserTickets, showLoading.
  unfold mbind at 1, Js_bind at 1. erewrite update_run by lookup.
  unfold try_finally, try_catch.
  unfold mbind at 1, Js_bind at 1. unfold gets at 1.
  unfold mbind at 1, Js_bind at 1.
  rewrite (authorizedFetch_ok _ _ _ r) by done.
  js. rewrite Hok, Hjson. js.
  unfold renderTickets, updateStats, renderPagination, renderEmptyState.
  destruct (decide (length (Array_sort byStatus tickets) = 0%nat)) as [Hnil|Hcons];
    destruct (decide (total_pages ≤ 1)%Z); js; run_dom.
  all: unfold renderedTickets; run_dom.
  all: try apply rendered_cards.
  all: by apply nil_length_inv in Hnil as ->.
Qed.

(** On an answer without such statuses the sort does what the list is meant
    to show: the grid holds a permutation of the answer in the order of the
    status rank, and every ticket with status 'открыт' comes before every
    ticket with status 'закрыт'. *)
Lemma plain_statuses_are_sorted (w : World) (r : Response)
    (tickets : list Ticket) (total_pages : Z) :
  present listView w →
  network w (sent w) (authorized w (ticketsQuery w) no_options) = Responded r →
  ok r = true →
  json r = Some (TicketPage tickets total_pages) →
  plain_statuses tickets →
  let shown := renderedTickets (after loadUserTickets w) in
  shown ≡ₚ tickets
  ∧ StronglySorted rank_le shown
  ∧ (∀ i j a b, shown !! i = Some a → shown !! j = Some b →
       ticket_status a = "открыт" → ticket_status b = "закрыт" → (i < j)%nat).
Proof.
  intros Hpage Hnet Hok Hjson Hplain shown. subst shown.
  rewrite (loadUserTickets_renders w r tickets total_pages) by done.
  rewrite Array_sort_plain by done.
  split; [apply (Array_sort_perm (λ t, status_rank (ticket_status t)))|].
  assert (StronglySorted rank_le
            (Array_sort (λ a b, status_rank (ticket_status a)
                                - status_rank (ticket_status b))%Z tickets))
    as Hsorted
    by apply (Array_sort_sorted (λ t, status_rank (ticket_status t))).
  split; [done|].
  intros i j a b Hi Hj Ha Hb.
  destruct (decide (i < j)%nat) as [|Hge]; [done|]. exfalso.
  destruct (decide (i = j)) as [->|Hne]; [congruence|].
  assert (rank_le b a) as Hle
    by (eapply (StronglySorted_lookup _ _ j i); [done|lia|done..]).
  unfold rank_le in Hle. rewrite Ha, Hb in Hle. done.
Qed.



(** ** The chat *)

#[global] Hint Unfold set_value set_innerHTML : script.

(** C8. Sending a chat message does nothing at all, and sends nothing, when
    the trimmed input is empty or there is no session pointer.  Otherwise
    it posts content, author_email and author_name to the messages of the
    current ticket, once; when that post is answered ok with the stored
    message, this message is appended to the chat and the input is
    cleared. *)
Theorem C8_sendMessage_guard_and_post (w : World) (input : Element) :
  dom w !! "chatInput" = Some input →
  let content := JsString.trim (value input) in
  (content = "" ∨ currentTicketId w = None → sendMessage w = (Return tt, w))
  ∧ (∀ t user, content ≠ "" → currentTicketId w = Some t → t ≠ "" →
       currentUser w = Some user →
       let req := authorized w (messagesUrl t)
                    (post [("content", content);
                           ("author_email", user_email user);
                           ("author_name", user_full_name user)]) in
       let w' := after sendMessage w in
       requests w' = requests w ++ [req]
       ∧ (∀ r m, network w (sent w) req = Responded r → ok r = true →
            json r = Some (MessageBody m) → is_Some (dom w !! "chatMessages") →
            chat w' = chat w ++ [ChatMessage true (msg_content m)
                                   (msg_author_name m) (msg_created_at m)]
            ∧ value <$> dom w' !! "chatInput" = Some "")).
Proof.
  intros Hinput content. subst content. split.
  - intros Hnoop. unfold sendMessage. js. rewrite Hinput. cbn.
    destruct Hnoop as [->| ->]; [done|].
    by rewrite orb_true_r.
  - intros t user Hcontent Ht Hid Huser req w'. subst req w'.
    apply truthy_nonempty in Hcontent, Hid.
    assert (sendMessage w =
      try_catch
        (user ← gets currentUser;
         match user with
         | None => throw (NullError "currentUser")
         | Some user =>
             response ← authorizedFetch (messagesUrl t)
               (post (messageData (JsString.trim (value input)) user));
             r ← defined response "ok";
             if negb (ok r) then throw (Error "Ошибка отправки сообщения") else
             newMessage ← response_json r;
             update "chatMessages"
               (λ e, set_innerHTML (innerHTML e ++ [newMessageNode newMessage]) e);;
             update "chatInput" (set_value "")
         end)
        (λ error, showNotification "Ошибка отправки сообщения" "error") w) as Hrun.
    { unfold sendMessage.
      unfold mbind at 1, Js_bind at 1, element at 1. rewrite Hinput.
      unfold mbind at 1, Js_bind at 1, gets at 1. rewrite Ht.
      cbn [truthy_id default]. by rewrite Hcontent, Hid. }
    unfold after. rewrite Hrun, try_catch_gets, Huser. cbv beta iota.
    split.
    + lazymatch goal with
      | |- requests (try_catch (?m ≫= ?k) ?h ?w).2 = _ =>
          assert (same requests (m w).2 (try_catch (m ≫= k) h w).2) as ->
            by (apply try_catch_first;
                first [apply _|intros ?; keeps_by ltac:(reflexivity)])
      end.
      by rewrite authorizedFetch_requests.
    + intros r m Hnet Hok Hjson [messages Hmessages].
      assert (status r ≠ 401%Z) as H401.
      { unfold ok in Hok. intros E. by rewrite E in Hok. }
      unfold try_catch, mbind, Js_bind.
      rewrite (authorizedFetch_ok _ _ _ r) by done.
      js. rewrite Hok, Hjson. js. run_dom.
      unfold chat. run_dom. done.
Qed.

Lemma C8_sendMessage_guard_and_post_witness :
  sendMessage
    (Sample.world (Sample.always
       (Sample.answer 200 (Some (MessageBody Sample.message1)))))
  = (Return tt,
     Sample.world (Sample.always
       (Sample.answer 200 (Some (MessageBody Sample.message1)))))
  ∧ chat (after sendMessage
            (Sample.session "7c9e6679"
               (Sample.world (Sample.always
                  (Sample.answer 200 (Some (MessageBody Sample.message1)))))))
    = [ChatMessage true "Здравствуйте" "Anna" "2024-05-02T09:31:00"].
Proof.
  split.
  - eapply (C8_sendMessage_guard_and_post
              (Sample.world (Sample.always
                 (Sample.answer 200 (Some (MessageBody Sample.message1))))));
      [reflexivity|by right].
  - edestruct (C8_sendMessage_guard_and_post
                 (Sample.session "7c9e6679"
                    (Sample.world (Sample.always
                       (Sample.answer 200 (Some (MessageBody Sample.message1)))))))
      as [_ Hpost]; [reflexivity|].
    edestruct (Hpost "7c9e6679" Sample.user) as [_ Hecho];
      [done|reflexivity|done|reflexivity|].
    edestruct (Hecho (Sample.answer 200 (Some (MessageBody Sample.message1)))
                 Sample.message1) as [Hchat _];
      [reflexivity|reflexivity|reflexivity|by eexists|].
    exact Hchat.
Defined.

(** ** Creating a ticket *)

Lemma ok_not_401 r : ok r = true → status r ≠ 401%Z.
Proof. unfold ok. intros Hok E. by rewrite E in Hok. Qed.

(** *** Running a call along one path *)

Section run.
Context {A B : Type}.

Lemma run_bind (m : Js A) (k : A → Js B) w a w1 res :
  m w = (Return a, w1) → k a w1 = res → (m ≫= k) w = res.
Proof. intros Hm Hk. unfold mbind, Js_bind. by rewrite Hm. Qed.

Lemma run_try (m : Js A) h w a w1 :
  m w = (Return a, w1) → try_catch m h w = (Return a, w1).
Proof. intros Hm. unfold try_catch. by rewrite Hm. Qed.

Lemma run_catch (m : Js A) h w e w1 res :
  m w = (Throw e, w1) → h e w1 = res → try_catch m h w = res.
Proof. intros Hm Hh. unfold try_catch. by rewrite Hm. Qed.

Lemma run_finally (m : Js A) final w r w1 w2 :
  m w = (r, w1) → final w1 = (Return tt, w2) → try_finally m final w = (r, w2).
Proof. intros Hm Hf. unfold try_finally. by rewrite Hm, Hf. Qed.

Lemma run_element id (w : World) e :
  dom w !! id = Some e → element id w = (Return e, w).
Proof. intros H. unfold element. by rewrite H. Qed.
End run.

Ltac head_of t :=
  lazymatch t with
  | ?f _ => head_of f
  | _ => t
  end.

(** Follows the path on which nothing throws. *)
Ltac run_step :=
  cbv beta;
  repeat match goal with
    | H : ok ?r = true |- context [ok ?r] => rewrite H; cbn [negb]
    | H : json ?r = Some _ |- context [json ?r] => rewrite H
    end;
  lazymatch goal with
  | |- (_ ≫= _) _ = _ => eapply run_bind
  | |- try_catch _ _ _ = _ => eapply run_try
  | |- try_finally _ _ _ = _ => eapply run_finally
  | |- element _ _ = _ => eapply run_element; lookup
  | |- update _ _ _ = _ => eapply update_run; lookup
  | |- authorizedFetch _ _ _ = _ =>
      eapply authorizedFetch_ok; [eassumption|by apply ok_not_401]
  | |- detached _ _ = _ => reflexivity
  | |- mret _ _ = _ => reflexivity
  | |- gets _ _ = _ => reflexivity
  | |- modify _ _ = _ => reflexivity
  | |- (if decide ?P then _ else _) _ = _ =>
      first [rewrite (decide_True (P:=P)) by done
            |rewrite (decide_False (P:=P)) by done]
  | |- ?call = _ =>
      let f := head_of call in
      first [progress (unfold f; cbv zeta) | reflexivity]
  end.

Ltac run := repeat run_step.

Create HintDb run discriminated.
#[global] Hint Unfold handleTicketSubmit resetCreateForm switchTab sectionOf : run.

(** Resolves the lookups in the goal and leaves the rest. *)
Ltac lookup_in_goal := lookups.

Lemma hideSection_value e : value (hideSection e) = value e.
Proof. unfold hideSection. by repeat case_match. Qed.

Lemma hideSection_innerHTML e : innerHTML (hideSection e) = innerHTML e.
Proof. unfold hideSection. by repeat case_match. Qed.

Lemma classList_add_elem c e : c ∈ classList (classList_add c e).
Proof.
  unfold classList_add. case_decide; [done|]. cbn. set_solver.
Qed.

(** C9. After a ticket was created (the post is answered ok), title,
    category and description are empty, the reporter's name and email hold
    what they held, and the view is on the list tab: its section is shown,
    the create section is put away, the list link is the active one. *)
Theorem C9_creation_clears_editable_fields_only (w : World) (r : Response)
    (created : Body) :
  present createForm w →
  network w (sent w)
    (authorized w (plain (API_BASE_URL +:+ "/tickets/")) (post (formData w)))
    = Responded r →
  ok r = true →
  json r = Some created →
  let w' := after handleTicketSubmit w in
  field w' "ticketTitle" = Some ""
  ∧ field w' "ticketCategory" = Some ""
  ∧ field w' "ticketDescription" = Some ""
  ∧ field w' "reporterName" = field w "reporterName"
  ∧ field w' "reporterEmail" = field w "reporterEmail"
  ∧ (is_Some (dom w !! "home-tab") → shown w' "home-tab")
  ∧ (∀ create, dom w !! "create-tab" = Some create →
       "tab-content" ∈ classList create → hidden w' "create-tab")
  ∧ (∀ nav, dom w !! ".nav-list" = Some nav →
       innerHTML <$> dom w' !! ".nav-list"
       = Some (activate "home" (deactivate <$> innerHTML nav))).
Proof.
  intros Hform Hnet Hok Hjson w'. subst w'.
  unfold present, createForm in Hform.
  repeat match type of Hform with
    | Forall _ (_ :: _) =>
        let Hx := fresh "Hel" in
        let e := fresh "el" in
        apply Forall_cons in Hform as [[e Hx] Hform]
    end; clear Hform.
  unfold formData, field in Hnet. rewrite Hel0, Hel1, Hel2, Hel3, Hel4 in Hnet.
  cbn in Hnet.
  eassert (handleTicketSubmit w = _) as Hrun' by run.
  unfold after, field, shown, hidden. rewrite Hrun'. cbn [snd].
  repeat split.
  - lookup_in_goal. by rewrite hideSection_value.
  - lookup_in_goal. by rewrite hideSection_value.
  - lookup_in_goal. by rewrite hideSection_value.
  - lookup_in_goal. by rewrite hideSection_value.
  - lookup_in_goal. by rewrite hideSection_value.
  - intros [home Hhome]. eexists. split; [lookup|].
    split; [done|]. apply classList_add_elem.
  - intros create Hcreate Hclass. eexists. split; [lookup|].
    unfold hideSection, classList_contains.
    rewrite bool_decide_eq_true_2 by done. split; [done|].
    cbn. rewrite list_elem_of_filter. by intros [? _].
  - intros nav Hnav. lookup_in_goal. by rewrite hideSection_innerHTML.
Qed.

Lemma C9_creation_clears_editable_fields_only_witness :
  present createForm
    (Sample.world (Sample.always
       (Sample.answer 201 (Some (TicketBody Sample.ticket1)))))
  ∧ field (Sample.world (Sample.always
             (Sample.answer 201 (Some (TicketBody Sample.ticket1)))))
      "ticketTitle" = Some "Принтер не печатает"
  ∧ field (after handleTicketSubmit
             (Sample.world (Sample.always
                (Sample.answer 201 (Some (TicketBody Sample.ticket1))))))
      "ticketTitle" = Some "".
Proof.
  split; [by repeat constructor|]. split; [reflexivity|].
  eapply (C9_creation_clears_editable_fields_only
            (Sample.world (Sample.always
               (Sample.answer 201 (Some (TicketBody Sample.ticket1)))))
            (Sample.answer 201 (Some (TicketBody Sample.ticket1)))
            (TicketBody Sample.ticket1));
    [by repeat constructor|reflexivity..].
Defined.

(** ** Accepting a ticket *)

Section run_more.
Context {A B : Type}.

Lemma run_bind_throw (m : Js A) (k : A → Js B) w e w1 :
  m w = (Throw e, w1) → (m ≫= k) w = (Throw e, w1).
Proof. intros Hm. unfold mbind, Js_bind. by rewrite Hm. Qed.

Lemma run_try_bind (m : Js A) (k : A → Js B) h w a w1 res :
  m w = (Return a, w1) → try_catch (k a) h w1 = res →
  try_catch (m ≫= k) h w = res.
Proof. intros Hm <-. unfold try_catch, mbind, Js_bind. by rewrite Hm. Qed.

Lemma run_try_bind_throw (m : Js A) (k : A → Js B) h w e w1 res :
  m w = (Throw e, w1) → h e w1 = res → try_catch (m ≫= k) h w = res.
Proof. intros Hm <-. unfold try_catch, mbind, Js_bind. by rewrite Hm. Qed.
End run_more.

Lemma await_both_after a b w : (await_both a b w).2 = (b (a w).2).2.
Proof.
  unfold await_both. destruct (a w) as [ra wa]. cbn.
  destruct (b wa) as [rb wb]. by destruct ra, rb.
Qed.

Lemma try_catch_tail (R : relation World) `{!PreOrder R} {A} (m : Js A) h w :
  (∀ e, keeps R (h e)) → R (m w).2 (try_catch m h w).2.
Proof.
  intros Hh. unfold try_catch. destruct (m w) as [[a|e] w1]; [done|]. apply Hh.
Qed.

Section authorizedFetch_at.
Context (u : Url) (options : Options) (w : World) (n : nat).

Lemma authorizedFetch_ok_at r :
  sent w = n → network w n (authorized w u options) = Responded r →
  status r ≠ 401%Z →
  authorizedFetch u options w
  = (Return (Some r), sending (authorized w u options) w).
Proof. intros <-. apply authorizedFetch_ok. Qed.

Lemma authorizedFetch_401_at r :
  sent w = n → network w n (authorized w u options) = Responded r →
  status r = 401%Z →
  authorizedFetch u options w
  = (Return None, teardown (sending (authorized w u options) w)).
Proof. intros <-. apply authorizedFetch_401. Qed.

Lemma authorizedFetch_rejected_at e :
  sent w = n → network w n (authorized w u options) = Rejected e →
  authorizedFetch u options w
  = (Throw e, sending (authorized w u options) w).
Proof. intros <-. apply authorizedFetch_rejected. Qed.
End authorizedFetch_at.

(** The number of requests sent in a world built from [w]. *)
Ltac sent_solve :=
  unfold sent, requests; project;
  rewrite ?omap_app, ?length_app; cbn [omap list_omap request_of length];
  rewrite ?Nat.add_0_r, ?Nat.add_1_r;
  lazymatch goal with
  | |- context [length (omap request_of (log (env ?w)))] =>
      change (length (omap request_of (log (env w)))) with (sent w)
  end;
  reflexivity.

(** Reads the properties of updated elements. *)
Ltac fields :=
  cbn [value textContent display classList innerHTML disabled readonly
       backgroundColor onclick onkeypress set_value set_textContent
       set_display set_classList set_innerHTML set_disabled set_readonly
       set_backgroundColor set_onclick set_onkeypress].

(** Uses what is known about the variables, the elements and the answers. *)
Ltac facts :=
  repeat match goal with
    | H : ?l = _ |- context [?l] =>
        lazymatch l with _ _ => rewrite H end
    end.

(** Leaves the rest of the call as it is, when the result is still open. *)
Ltac stop :=
  lazymatch goal with
  | |- _ = ?result => is_evar result; reflexivity
  end.

Ltac run2_pre :=
  cbv beta; lookups; facts;
  cbn [negb orb andb truthy_id default from_option id]; facts;
  cbn [negb orb andb].

(** Follows the one path that the known facts select, as far as the calls
    are transparent: leaves [m w = result]. *)
Ltac run2 :=
  run2_pre;
  lazymatch goal with
  | |- try_catch (await_both _ _) _ _ = _ => stop
  | |- try_catch (_ ≫= _) _ _ = _ =>
      first [ eapply run_try_bind; [solve [run2]|run2]
            | eapply run_try_bind_throw; [solve [run2]|run2]
            | stop ]
  | |- try_catch _ _ _ = _ =>
      first [ eapply run_try; solve [run2]
            | eapply run_catch; [solve [run2]|run2]
            | stop ]
  | |- (_ ≫= _) _ = _ =>
      first [ eapply run_bind; [solve [run2]|run2]
            | eapply run_bind_throw; solve [run2]
            | stop ]
  | |- try_finally _ _ _ = _ =>
      first [eapply run_finally; [run2|solve [run2]] | stop]
  | |- element _ _ = _ => eapply run_element; lookup
  | |- update _ _ _ = _ => eapply update_run; lookup
  | |- authorizedFetch _ _ _ = _ =>
      first [ eapply authorizedFetch_ok_at;
              [sent_solve|eassumption
              |first [assumption|apply ok_not_401; assumption]]
            | eapply authorizedFetch_401_at; [sent_solve|eassumption|assumption]
            | eapply authorizedFetch_rejected_at; [sent_solve|eassumption] ]
  | |- throw _ _ = _ => reflexivity
  | |- detached _ _ = _ => reflexivity
  | |- await_both _ _ _ = _ => stop
  | |- mret _ _ = _ => reflexivity
  | |- gets _ _ = _ => reflexivity
  | |- modify _ _ = _ => reflexivity
  | |- (if decide ?P then _ else _) _ = _ =>
      first [rewrite (decide_True (P:=P)) by done
            |rewrite (decide_False (P:=P)) by done]; run2
  | |- (if _ then _ else _) _ = _ => stop
  | |- (match _ with _ => _ end) _ = _ => stop
  | |- ?call = _ =>
      let f := head_of call in
      first [progress (unfold f; cbv zeta); run2 | stop]
  end.

Lemma toasts_add (w : World) e nid m t :
  dom w !! "notifications" = Some e →
  omap toast_of (innerHTML e ++ [Notification nid m t]) = toasts w ++ [(m, t)].
Proof. intros H. unfold toasts. rewrite H. by rewrite omap_app. Qed.

(** Side conditions of frame proofs about the notifications. *)
Ltac toast_frame :=
  unfold more_toasts, toasts; project;
  first
    [ reflexivity
    | rewrite lookup_insert_ne by distinct; reflexivity
    | match goal with
      | H : dom _ !! "notifications" = Some _ |- _ =>
          rewrite lookup_insert_eq, H; fields; rewrite omap_app;
          by apply prefix_app_r
      end ].

Lemma showNotification_more_toasts m t : keeps more_toasts (showNotification m t).
Proof. keeps_by toast_frame. Qed.

Lemma loadUnassignedTickets_more_toasts : keeps more_toasts loadUnassignedTickets.
Proof. keeps_by toast_frame. Qed.

Lemma loadAssignedTickets_more_toasts : keeps more_toasts loadAssignedTickets.
Proof. keeps_by toast_frame. Qed.

Ltac queue_frame Hid :=
  unfold same; project;
  first [ reflexivity
        | rewrite lookup_insert_ne; [reflexivity|];
          intros <-; apply Hid; unfold queueOutputs; set_solver ].

Lemma showNotification_frame id m t :
  id ∉ queueOutputs → keeps (same (λ w, dom w !! id)) (showNotification m t).
Proof. intros Hid. keeps_by ltac:(queue_frame Hid). Qed.

Lemma loadUnassignedTickets_frame id :
  id ∉ queueOutputs → keeps (same (λ w, dom w !! id)) loadUnassignedTickets.
Proof. intros Hid. keeps_by ltac:(queue_frame Hid). Qed.

Lemma loadAssignedTickets_frame id :
  id ∉ queueOutputs → keeps (same (λ w, dom w !! id)) loadAssignedTickets.
Proof. intros Hid. keeps_by ltac:(queue_frame Hid). Qed.

Lemma showNotification_same_vars m t : keeps (same vars) (showNotification m t).
Proof. keeps_by ltac:(reflexivity). Qed.

Lemma showNotification_same_requests m t :
  keeps (same requests) (showNotification m t).
Proof. keeps_by ltac:(reflexivity). Qed.

Lemma authorized_vars (w w' : World) u o :
  vars w' = vars w → authorized w' u o = authorized w u o.
Proof. unfold authorized, getAuthHeaders. by intros ->. Qed.

Lemma loadUnassignedTickets_requests (w : World) :
  requests (after loadUnassignedTickets w)
  = requests w ++ (if isSupportUser w then [unassignedRequest w] else []).
Proof.
  unfold after, loadUnassignedTickets.
  unfold mbind at 1, Js_bind at 1, gets at 1.
  destruct (isSupportUser w); cbn [negb]; [|by rewrite app_nil_r].
  lazymatch goal with
  | |- requests (try_catch (?m ≫= ?k) ?h ?w).2 = _ =>
      assert (same requests (m w).2 (try_catch (m ≫= k) h w).2) as ->
        by (apply try_catch_first;
            first [apply _|intros ?; keeps_by ltac:(reflexivity)])
  end.
  by rewrite authorizedFetch_requests.
Qed.

Lemma loadAssignedTickets_requests (w : World) :
  requests (after loadAssignedTickets w)
  = requests w ++ (if isSupportUser w then [assignedRequest w] else []).
Proof.
  unfold after, loadAssignedTickets.
  unfold mbind at 1, Js_bind at 1, gets at 1.
  destruct (isSupportUser w); cbn [negb]; [|by rewrite app_nil_r].
  lazymatch goal with
  | |- requests (try_catch (?m ≫= ?k) ?h ?w).2 = _ =>
      assert (same requests (m w).2 (try_catch (m ≫= k) h w).2) as ->
        by (apply try_catch_first;
            first [apply _|intros ?; keeps_by ltac:(reflexivity)])
  end.
  by rewrite authorizedFetch_requests.
Qed.

Section refresh.
Context (h : Exn → Js unit) (w : World).

Let refreshed :=
  (try_catch (await_both loadUnassignedTickets loadAssignedTickets) h w).2.

(** Both queue loaders run, whatever the handler of the caller does. *)
Lemma refresh_keeps (R : relation World) `{!PreOrder R} :
  keeps R loadUnassignedTickets → keeps R loadAssignedTickets →
  (∀ e, keeps R (h e)) → R w refreshed.
Proof.
  intros Hu Ha Hh. subst refreshed.
  transitivity (await_both loadUnassignedTickets loadAssignedTickets w).2.
  - by apply keeps_await_both.
  - by apply try_catch_tail.
Qed.

Lemma refresh_requests :
  (∀ e, keeps (same requests) (h e)) →
  requests refreshed
  = requests w ++ (if isSupportUser w
                   then [unassignedRequest w; assignedRequest w] else []).
Proof.
  intros Hh. subst refreshed.
  rewrite (try_catch_tail (same requests) _ h w Hh), await_both_after.
  pose proof (loadAssignedTickets_requests (loadUnassignedTickets w).2) as Ha.
  pose proof (loadUnassignedTickets_requests w) as Hu.
  pose proof (loadUnassignedTickets_same_vars w) as Hvars.
  unfold after, same in *. rewrite Ha, Hu.
  unfold assignedRequest. rewrite (authorized_vars w _ _ _ Hvars), Hvars.
  destruct (isSupportUser w); by rewrite <- app_assoc.
Qed.
End refresh.

(** C4, as amended.  With a ticket in the accept dialog, [confirmAcceptTicket]
    sends the assignment first.  If that call fails (a non-ok answer, a 401
    or no answer at all) nothing else is sent and an error toast is shown.
    If it is answered ok with a JSON body, the priority update is sent
    second; when that one is answered with a status other than 401, the
    flow completes: a warning toast if the answer is not ok, then the
    success toast, the dialog is closed and both queue loaders run, each
    sending its list request when the user is support staff.  When the
    priority update is answered 401 or not answered at all, the flow stops
    there: an error toast is shown, the dialog is left as it was and no
    queue is refreshed. *)
Theorem C4_accept_flow (w : World) (t : string) :
  currentAcceptTicketId w = Some t → t ≠ "" →
  present acceptDialog w →
  let p := default "" (field w "acceptPriority") in
  let w' := after confirmAcceptTicket w in
  (succeeded (network w (sent w) (assignRequest w t)) = false →
     requests w' = requests w ++ [assignRequest w t]
     ∧ ∃ why, toasts w' =
         toasts w ++ [("Ошибка при принятии тикета: " +:+ why, "error")])
  ∧ (∀ r1 r2,
       network w (sent w) (assignRequest w t) = Responded r1 →
       ok r1 = true → is_Some (json r1) →
       network w (S (sent w)) (priorityRequest w t p) = Responded r2 →
       status r2 ≠ 401%Z →
       requests w' = requests w ++ [assignRequest w t; priorityRequest w t p]
                     ++ (if isSupportUser w
                         then [unassignedRequest w; assignedRequest w] else [])
       ∧ toasts w ++ (if ok r2 then [] else [priorityWarning]) ++ [acceptedToast]
           `prefix_of` toasts w'
       ∧ display <$> dom w' !! "acceptTicketModal" = Some "none"
       ∧ currentAcceptTicketId w' = None)
  ∧ (∀ r1,
       network w (sent w) (assignRequest w t) = Responded r1 →
       ok r1 = true → is_Some (json r1) →
       answered (network w (S (sent w)) (priorityRequest w t p)) = false →
       requests w' = requests w ++ [assignRequest w t; priorityRequest w t p]
       ∧ (∃ why, toasts w' =
            toasts w ++ [("Ошибка при принятии тикета: " +:+ why, "error")])
       ∧ dom w' !! "acceptTicketModal" = dom w !! "acceptTicketModal"
       ∧ currentAcceptTicketId w' = Some t).
Proof.
  intros Ht Hid Hdialog p w'. subst p w'.
  apply truthy_nonempty in Hid.
  unfold present, acceptDialog in Hdialog.
  repeat match type of Hdialog with
    | Forall _ (_ :: _) =>
        let Hx := fresh "Hel" in
        let e := fresh "el" in
        apply Forall_cons in Hdialog as [[e Hx] Hdialog]
    end; clear Hdialog.
  unfold field. rewrite Hel.
  cbn [fmap option_fmap option_map default from_option id].
  split; [|split].
  - intros Hfail.
    destruct (network w (sent w) (assignRequest w t)) as [r1|e] eqn:Hnet;
      cbn in Hfail; [destruct (decide (status r1 = 401%Z)) as [H401|H401]|].
    all: eassert (confirmAcceptTicket w = _) as Hrun by run2.
    all: unfold after; rewrite Hrun; unfold modify; cbn [snd]; split;
      [ unfold requests; project; rewrite !omap_app; cbn; by rewrite ?app_nil_r
      | eexists; unfold toasts; lookups; fields; by rewrite omap_app ].
  - intros r1 r2 Hnet1 Hok1 [result Hjson1] Hnet2 H401.
    assert ("acceptTicketModal" ∉ queueOutputs) as Hmodal
      by (unfold queueOutputs; intros ?%list_elem_of_In; cbn in *; intuition discriminate).
    destruct (ok r2) eqn:Hok2.
    all: eassert (confirmAcceptTicket w = _) as Hrun by run2.
    all: unfold after; rewrite Hrun; clear Hrun.
    all: lazymatch goal with
      | |- context [try_catch _ ?h ?w3] =>
          pose proof (refresh_requests h w3
                        (λ e, showNotification_same_requests _ _)) as Hreq;
          pose proof (refresh_keeps h w3 more_toasts
                        loadUnassignedTickets_more_toasts
                        loadAssignedTickets_more_toasts
                        (λ e, showNotification_more_toasts _ _)) as Htoasts;
          pose proof (refresh_keeps h w3 (same vars)
                        loadUnassignedTickets_same_vars
                        loadAssignedTickets_same_vars
                        (λ e, showNotification_same_vars _ _)) as Hvars;
          pose proof (refresh_keeps h w3 (same (λ w, dom w !! "acceptTicketModal"))
                        (loadUnassignedTickets_frame _ Hmodal)
                        (loadAssignedTickets_frame _ Hmodal)
                        (λ e, showNotification_frame _ _ _ Hmodal)) as Hdom
      end.
    all: unfold same, more_toasts in Hvars, Hdom, Htoasts.
    all: rewrite Hreq, Hdom, Hvars; clear Hreq Hdom Hvars.
    all: repeat split.
    all: try (etrans; [|exact Htoasts]); clear Htoasts.
    all: first
      [ by project
      | solve [lookups; done]
      | unfold toasts; lookups; fields; rewrite !omap_app, <- ?app_assoc;
        reflexivity
      | unfold requests, assignRequest, priorityRequest, unassignedRequest,
          assignedRequest, authorized, getAuthHeaders; project;
        rewrite !omap_app; cbn [omap list_omap request_of];
        by rewrite <- !app_assoc ].
  - intros r1 Hnet1 Hok1 [result Hjson1].
    destruct (network w (S (sent w)) (priorityRequest w t (value el)))
      as [r2|e] eqn:Hnet2; cbn [answered]; intros Hfail;
      [apply bool_decide_eq_false, dec_stable in Hfail|].
    all: eassert (confirmAcceptTicket w = _) as Hrun by run2.
    all: unfold after; rewrite Hrun; unfold modify; cbn [snd].
    all: repeat split.
    all: first
      [ by project
      | solve [lookups; done]
      | eexists; unfold toasts; lookups; fields; by rewrite omap_app
      | unfold requests, assignRequest, priorityRequest, authorized,
          getAuthHeaders; project;
        rewrite !omap_app; cbn [omap list_omap request_of];
        by rewrite ?app_nil_r, <- ?app_assoc ].
Qed.

Lemma C4_accept_flow_witness :
  currentAcceptTicketId (Sample.accept 500) = Some "7c9e6679"
  ∧ present acceptDialog (Sample.accept 500)
  ∧ display <$> dom (after confirmAcceptTicket (Sample.accept 500))
                  !! "acceptTicketModal" = Some "none".
Proof.
  split; [reflexivity|]. split; [by repeat constructor|].
  edestruct (C4_accept_flow (Sample.accept 500) "7c9e6679") as (_ & Hflow & _);
    [reflexivity|done|by repeat constructor|].
  edestruct (Hflow (Sample.answer 200 (Some OtherBody)) (Sample.answer 500 None))
    as (_ & _ & Hclosed & _);
    [reflexivity|reflexivity|by eexists|reflexivity|done|].
  exact Hclosed.
Defined.

(** Without the restriction on the second answer the flow need not
    complete.  When the priority update is answered 401 the assignment has
    succeeded and the priority update has failed, and yet there is no warning
    toast, the dialog stays open and no queue is refreshed: the gateway
    returns [undefined], and reading its [status] throws. *)
Lemma C4_counterexample_priority_401 :
  let w := Sample.accept 401 in
  let w' := after confirmAcceptTicket w in
  network w 0 (assignRequest w "7c9e6679")
    = Responded (Sample.answer 200 (Some OtherBody))
  ∧ ok (Sample.answer 200 (Some OtherBody)) = true
  ∧ network w 1 (priorityRequest w "7c9e6679" "высокий")
    = Responded (Sample.answer 401 None)
  ∧ ok (Sample.answer 401 None) = false
  ∧ isSupportUser w = true
  ∧ requests w' = [assignRequest w "7c9e6679";
                   priorityRequest w "7c9e6679" "высокий"]
  ∧ toasts w'
    = [("Ошибка при принятии тикета: Cannot read properties of undefined (reading 'status')",
        "error")]
  ∧ display <$> dom w' !! "acceptTicketModal" = Some "flex"
  ∧ currentAcceptTicketId w' = Some "7c9e6679".
Proof. repeat split; vm_compute; reflexivity. Qed.

(** ** The support session pointer *)

Lemma modal_visible_same (w w' : World) :
  dom w' !! "supportTicketModal" = dom w !! "supportTicketModal" →
  modal_visible w' = modal_visible w.
Proof. unfold modal_visible. by intros ->. Qed.

Lemma not_queue_output id :
  bool_decide (id ∈ queueOutputs) = false → id ∉ queueOutputs.
Proof. by intros ?%bool_decide_eq_false. Qed.

Lemma hidden_not_visible e :
  bool_decide (display (hideSupportModal e) = "block")
  && classList_contains "active" (hideSupportModal e) = false.
Proof. done. Qed.

(** The × button ends the session: the pointer is null and the modal is
    hidden afterwards. *)
Lemma closeSupportModal_onclick_closes (w : World) :
  let w' := after closeSupportModal_onclick w in
  currentTicketId w' = None ∧ modal_visible w' = false.
Proof.
  unfold after, modal_visible.
  destruct (dom w !! "supportTicketModal") as [modal|] eqn:Hmodal.
  - eassert (closeSupportModal_onclick w = _) as -> by run2.
    split; [done|]. unfold modify. cbn [snd]. lookups.
    apply hidden_not_visible.
  - eassert (closeSupportModal_onclick w = _) as -> by run2.
    split; [done|]. unfold modify. cbn [snd]. lookups. by rewrite Hmodal.
Qed.

(** So does a click on the backdrop of the modal. *)
Lemma supportModal_onclick_closes (w : World) :
  is_Some (dom w !! "supportTicketModal") →
  let w' := after (supportModal_onclick true) w in
  currentTicketId w' = None ∧ modal_visible w' = false.
Proof.
  intros [modal Hmodal]. unfold after, modal_visible.
  eassert (supportModal_onclick true w = _) as -> by run2.
  split; [done|]. unfold modify. cbn [snd]. lookups.
  apply hidden_not_visible.
Qed.

Lemma closed_session_invariant (w : World) :
  currentTicketId w = None → modal_visible w = false → session_invariant w.
Proof. unfold session_invariant. by intros ? ->. Qed.

(** C1. The session invariant does not survive the failure path of
    [openSupportTicketModal]: the function stores the ticket id in
    [currentTicketId] before it fetches, and when the ticket request is
    answered 401, is answered with a non-ok status or is rejected, the catch
    block only shows a toast.  The pointer is then the id of the ticket while
    the modal is displayed as it was before; on a page whose modal was
    hidden the pointer is non-null with the modal not visible. *)
Theorem C1_failed_open_leaves_pointer_set (w : World) (t : string) :
  succeeded (network w (sent w) (ticketRequest w t)) = false →
  let w' := after (openSupportTicketModal t) w in
  currentTicketId w' = Some t
  ∧ modal_visible w' = modal_visible w
  ∧ (modal_visible w = false → ¬ session_invariant w').
Proof.
  intros Hfail w'. subst w'.
  assert (∃ m w1, openSupportTicketModal t w = showNotification m "error" w1
            ∧ currentTicketId w1 = Some t
            ∧ dom w1 = dom w) as (m & w1 & Hrun & Ht & Hdom).
  { destruct (network w (sent w) (ticketRequest w t)) as [r|e] eqn:Hnet;
      cbn in Hfail; [destruct (decide (status r = 401%Z)) as [H401|H401]|].
    all: eassert (openSupportTicketModal t w = _) as Hrun by run2.
    all: lazymatch type of Hrun with
         | _ = _ (with_browser (set_nextId _) ?w1) =>
             exists "Ошибка загрузки тикета", w1
         end; split; [by rewrite Hrun|done]. }
  unfold after. rewrite Hrun.
  pose proof (showNotification_same_vars m "error" w1) as Hvars.
  pose proof (showNotification_frame "supportTicketModal" m "error"
                (not_queue_output "supportTicketModal" eq_refl) w1) as Hmodal.
  unfold same in Hvars, Hmodal.
  assert (modal_visible (showNotification m "error" w1).2 = modal_visible w)
    as Hvisible.
  { apply modal_visible_same. by rewrite Hmodal, Hdom. }
  split; [by rewrite Hvars|]. split; [done|].
  intros Hhidden. unfold session_invariant.
  rewrite Hvisible, Hhidden, Hvars, Ht. discriminate.
Qed.

Lemma C1_failed_open_leaves_pointer_set_witness :
  let w := Sample.world (Sample.always (Sample.answer 500 None)) in
  let w' := after (openSupportTicketModal "7c9e6679") w in
  session_invariant w
  ∧ currentTicketId w' = Some "7c9e6679"
  ∧ modal_visible w' = false
  ∧ ¬ session_invariant w'.
Proof.
  intros w w'.
  destruct (C1_failed_open_leaves_pointer_set w "7c9e6679")
    as (Hpointer & Hvisible & Hbroken); [reflexivity|].
  split; [apply closed_session_invariant; reflexivity|].
  split; [exact Hpointer|].
  split; [exact Hvisible|].
  apply Hbroken. reflexivity.
Defined.

(** ** The live-update channel *)

Section filter.
Context {A : Type} (P : A → Prop) `{!∀ x, Decision (P x)}.

Lemma filter_lookup (l : list A) (i : nat) (x : A) :
l !! i = Some x →
filter P l = filter P (take i l) ++ filter P [x] ++ filter P (drop (S i) l).
Proof.
intros Hx. rewrite <- !filter_app. cbn [app].
by rewrite (take_drop_middle l i x).
Qed.

Lemma filter_insert (l : list A) (i : nat) (x y : A) :
l !! i = Some x →
filter P (<[i:=y]> l)
= filter P (take i l) ++ filter P [y] ++ filter P (drop (S i) l).
Proof.
intros Hx. rewrite insert_take_drop by (by eapply lookup_lt_Some).
by rewrite <- !filter_app.
Qed.

Lemma filter_delete (l : list A) (i : nat) :
filter P (delete i l) = filter P (take i l) ++ filter P (drop (S i) l).
Proof. by rewrite delete_take_drop, filter_app. Qed.

Lemma filter_one_True (x : A) : P x → filter P [x] = [x].
Proof. intros. by rewrite filter_cons_True. Qed.

Lemma filter_one_False (x : A) : ¬ P x → filter P [x] = [].
Proof. intros. by rewrite filter_cons_False. Qed.

End filter.

Lemma connectWebSocket_throws (w : World) :
  wsThrows w (wsAttempts w) = true →
  connectWebSocket w
  = (Return tt,
     with_browser (λ b, set_timers (timers b ++ [reconnect 10000]) b)
       (with_env (set_wsAttempts (S (wsAttempts w))) w)).
Proof.
  intros Hthrows. unfold connectWebSocket, new_WebSocket. js.
  by rewrite Hthrows.
Qed.

Lemma connectWebSocket_connects (w : World) :
  wsThrows w (wsAttempts w) = false →
  ∃ w', connectWebSocket w = (Return tt, w')
    ∧ timers w' = timers w
    ∧ sockets w' = sockets w ++ [{| ws_url := WS_URL; ws_closed := false;
                                     handlers := true |}]
    ∧ websocket w' = Some (length (sockets w))
    ∧ wsAttempts w' = S (wsAttempts w)
    ∧ wsThrows w' = wsThrows w.
Proof.
  intros Hconnects. eexists. split.
  { unfold connectWebSocket, new_WebSocket, set_handlers. js.
    rewrite Hconnects. reflexivity. }
  cbn. repeat split.
  rewrite <- (Nat.add_0_r (length (sockets w))).
  by rewrite alter_app_r.
Qed.

(** Whatever [new WebSocket] does, [connectWebSocket] makes one attempt and
    leaves one more live socket or one more reconnect timer, 10 s away. *)
Lemma connectWebSocket_count (w : World) :
  let w' := after connectWebSocket w in
  length (connections w') + length (reconnects w')
  = S (length (connections w) + length (reconnects w))
  ∧ (Forall fixed_delay (reconnects w) → Forall fixed_delay (reconnects w'))
  ∧ wsAttempts w' = S (wsAttempts w)
  ∧ wsThrows w' = wsThrows w.
Proof.
  unfold after, connections, reconnects.
  destruct (wsThrows w (wsAttempts w)) eqn:Hthrows.
  - rewrite connectWebSocket_throws by done. cbn.
    rewrite filter_app, filter_one_True by done.
    rewrite length_app, Forall_app, Forall_singleton. cbn.
    repeat split; [lia|done|by right].
  - destruct (connectWebSocket_connects w Hthrows)
      as (w' & -> & Htimers & Hsockets & _ & Hattempts & Hsame).
    cbn. rewrite Htimers, Hsockets.
    rewrite filter_app, filter_one_True by done.
    rewrite length_app. cbn. repeat split; [lia|done..].
Qed.

Lemma socket_close_live (w : World) (s : nat) (x : Socket) :
  sockets w !! s = Some x → live x = true →
  socket_close s w
  = (Return tt,
     with_browser (λ b, set_timers (timers b ++ [reconnect 5000]) b)
       (with_env (λ v, set_sockets
          (<[s:={| ws_url := ws_url x; ws_closed := true;
                   handlers := handlers x |}]> (sockets v)) v) w)).
Proof.
  intros Hx [Hhandlers Hopen%negb_true_iff]%andb_true_iff.
  unfold socket_close. by rewrite Hx, Hopen, Hhandlers.
Qed.

Lemma socket_close_count (w : World) (s : nat) :
  let w' := after (socket_close s) w in
  length (connections w') + length (reconnects w')
  = length (connections w) + length (reconnects w)
  ∧ (Forall fixed_delay (reconnects w) → Forall fixed_delay (reconnects w')).
Proof.
  unfold after. destruct (sockets w !! s) as [x|] eqn:Hx.
  2: { unfold socket_close. by rewrite Hx. }
  destruct (live x) eqn:Hlive.
  - rewrite (socket_close_live w s x) by done.
    unfold connections, reconnects. cbn.
    rewrite (filter_insert _ _ _ x), (filter_lookup _ (sockets w) s x) by done.
    rewrite (filter_one_True _ x) by done.
    rewrite filter_one_False by (by unfold live; cbn; rewrite andb_false_r).
    rewrite filter_app, filter_one_True by done.
    rewrite !length_app, Forall_app, Forall_singleton. cbn.
    split; [lia|]. split; [done|by left].
  - unfold socket_close. rewrite Hx.
    destruct (ws_closed x) eqn:Hclosed; [done|].
    destruct (handlers x) eqn:Hhandlers.
    { unfold live in Hlive. by rewrite Hhandlers, Hclosed in Hlive. }
    unfold connections, reconnects. cbn.
    rewrite (filter_insert _ _ _ x), (filter_lookup _ (sockets w) s x) by done.
    rewrite !filter_one_False; [done|by rewrite Hlive|by cbn].
Qed.

Lemma fire_count (w : World) (k : nat) :
  let w' := after (fire k) w in
  length (connections w') + length (reconnects w')
  = length (connections w) + length (reconnects w)
  ∧ (Forall fixed_delay (reconnects w) → Forall fixed_delay (reconnects w')).
Proof.
  unfold after. destruct (timers w !! k) as [t|] eqn:Ht.
  2: { unfold fire. by rewrite Ht. }
  unfold fire. rewrite Ht.
  set (w1 := with_browser (set_timers (delete k (timers w))) w).
  assert (connections w1 = connections w) as Hconnections by done.
  assert (reconnects w = filter (λ t, is_reconnect t = true) (take k (timers w))
                         ++ filter (λ t, is_reconnect t = true) [t]
                         ++ filter (λ t, is_reconnect t = true) (drop (S k) (timers w)))
    as Hbefore by (by apply filter_lookup).
  assert (reconnects w1 = filter (λ t, is_reconnect t = true) (take k (timers w))
                          ++ filter (λ t, is_reconnect t = true) (drop (S k) (timers w)))
    as Hafter by apply filter_delete.
  destruct (callback t) eqn:Hcallback.
  - destruct (connectWebSocket_count w1) as (Hcount & Hdelay & _).
    unfold after in Hcount, Hdelay. rewrite Hcount, Hconnections.
    rewrite filter_one_True in Hbefore by (by unfold is_reconnect; rewrite Hcallback).
    rewrite Hbefore, Hafter, !length_app. cbn. split; [lia|].
    intros Hall. apply Hdelay. rewrite Hafter.
    apply Forall_app in Hall as [? [_ ?]%Forall_cons]. by apply Forall_app.
  - rewrite filter_one_False in Hbefore
      by (by unfold is_reconnect; rewrite Hcallback).
    cbn [app] in Hbefore. rewrite <- Hafter in Hbefore.
    unfold update_if_present, modify, connections, reconnects in *. cbn.
    by rewrite Hbefore.
Qed.

Lemma handle_alive (e : ChannelEvent) (w : World) :
  channel_alive w → channel_alive (after (handle e) w).
Proof.
  intros [Hone Hdelay]. unfold channel_alive.
  destruct e as [s|k]; cbn [handle].
  - destruct (socket_close_count w s) as [-> Hkeeps]. auto.
  - destruct (fire_count w k) as [-> Hkeeps]. auto.
Qed.

Lemma after_events_alive (es : list ChannelEvent) (w : World) :
  channel_alive w → channel_alive (after_events es w).
Proof.
  revert w. induction es as [|e es IH]; intros w Halive; [done|].
  apply IH. by apply handle_alive.
Qed.

Lemma alive_awaits (w : World) : channel_alive w → ∃ e, awaited e w.
Proof.
  intros [Hone _]. unfold connections, reconnects in Hone.
  destruct (filter (λ x, live x = true) (sockets w)) as [|x ?] eqn:Hsockets.
  - destruct (filter (λ t, is_reconnect t = true) (timers w)) as [|t ?] eqn:Htimers;
      [done|].
    assert (t ∈ filter (λ t, is_reconnect t = true) (timers w)) as Hin
      by (rewrite Htimers; left).
    apply list_elem_of_filter in Hin as [Ht [k Hk]%list_elem_of_lookup].
    exists (TimerExpires k). cbn. by rewrite Hk; cbn; rewrite Ht.
  - assert (x ∈ filter (λ x, live x = true) (sockets w)) as Hin
      by (rewrite Hsockets; left).
    apply list_elem_of_filter in Hin as [Hlive [s Hs]%list_elem_of_lookup].
    exists (SocketCloses s). cbn. by rewrite Hs; cbn; rewrite Hlive.
Qed.

Lemma fire_reconnect (w : World) (k : nat) :
  awaited (TimerExpires k) w →
  fire k w = connectWebSocket (with_browser (set_timers (delete k (timers w))) w).
Proof.
  cbn. unfold fire, is_reconnect.
  destruct (timers w !! k) as [t|]; [|done].
  cbn. by destruct (callback t).
Qed.

(** While [new WebSocket] keeps throwing, every expiry of the reconnect timer
    makes one more attempt and schedules the next one, 10 s away again. *)
Lemma retries_unbounded (n : nat) (w : World) (d : Z) :
  (∀ i, wsThrows w i = true) → timers w = [reconnect d] →
  let w' := after_events (replicate n (TimerExpires 0)) w in
  wsAttempts w' = wsAttempts w + n
  ∧ timers w' = [reconnect (if n is 0 then d else 10000)].
Proof.
  revert w d. induction n as [|n IH]; intros w d Hthrows Htimers.
  { cbn. split; [lia|done]. }
  cbn [replicate after_events foldl handle].
  set (w1 := after (fire 0) w).
  assert (w1 = with_browser (λ b, set_timers (timers b ++ [reconnect 10000]) b)
                 (with_env (set_wsAttempts (S (wsAttempts w)))
                    (with_browser (set_timers (delete 0 (timers w))) w)))
    as Hw1.
  { unfold w1, after. rewrite fire_reconnect by (by cbn; rewrite Htimers).
    by rewrite connectWebSocket_throws by apply Hthrows. }
  destruct (IH w1 10000%Z) as [Hattempts Hnext].
  - rewrite Hw1. exact Hthrows.
  - rewrite Hw1. cbn. by rewrite Htimers.
  - unfold after_events in Hattempts, Hnext. rewrite Hattempts, Hnext.
    split; [rewrite Hw1; cbn; lia|by destruct n].
Qed.

(** C7. Every close of a live socket schedules exactly one reconnect, 5 s
    away, and the socket cannot close again; a throw of [new WebSocket]
    schedules exactly one reconnect, 10 s away, and makes no socket; a
    construction that does not throw leaves one more live socket and no
    timer.  The expiry of a reconnect timer makes one more attempt.  From a
    state with one live socket or one scheduled reconnect, whatever sockets
    close and whatever timers expire, there is again one live socket or one
    scheduled reconnect, 5 or 10 s away: the channel always waits for a close
    or for a retry.  While the construction keeps throwing, the n-th retry
    schedules the next 10 s away, for every n. *)
Theorem C7_channel_keeps_reconnecting (w : World) :
  (∀ s x, sockets w !! s = Some x → live x = true →
     let w' := after (socket_close s) w in
     timers w' = timers w ++ [reconnect 5000]
     ∧ live <$> sockets w' !! s = Some false
     ∧ after (socket_close s) w' = w')
  ∧ (wsThrows w (wsAttempts w) = true →
     let w' := after connectWebSocket w in
     timers w' = timers w ++ [reconnect 10000] ∧ sockets w' = sockets w)
  ∧ (wsThrows w (wsAttempts w) = false →
     let w' := after connectWebSocket w in
     timers w' = timers w
     ∧ sockets w' = sockets w ++ [{| ws_url := WS_URL; ws_closed := false;
                                      handlers := true |}]
     ∧ websocket w' = Some (length (sockets w)))
  ∧ (∀ k, awaited (TimerExpires k) w →
     wsAttempts (after (fire k) w) = S (wsAttempts w))
  ∧ (channel_alive w → ∀ es,
     let w' := after_events es w in channel_alive w' ∧ ∃ e, awaited e w')
  ∧ ((∀ i, wsThrows w i = true) → ∀ d n, timers w = [reconnect d] →
     let w' := after_events (replicate n (TimerExpires 0)) w in
     wsAttempts w' = wsAttempts w + n
     ∧ timers w' = [reconnect (if n is 0 then d else 10000)]).
Proof.
  split; [|split; [|split; [|split; [|split]]]].
  - intros s x Hx Hlive w'. subst w'. unfold after.
    rewrite (socket_close_live w s x) by done. cbn.
    rewrite list_lookup_insert_eq by (by eapply lookup_lt_Some).
    split; [done|]. split; [by cbn; unfold live; cbn; rewrite andb_false_r|].
    unfold socket_close. cbn.
    by rewrite list_lookup_insert_eq by (by eapply lookup_lt_Some).
  - intros Hthrows w'. subst w'. unfold after.
    by rewrite connectWebSocket_throws.
  - intros Hconnects w'. subst w'. unfold after.
    by destruct (connectWebSocket_connects w Hconnects)
      as (w' & -> & ? & ? & ? & _).
  - intros k Hk. unfold after. rewrite fire_reconnect by done.
    by destruct (connectWebSocket_count
                   (with_browser (set_timers (delete k (timers w))) w))
      as (_ & _ & ? & _).
  - intros Halive es w'. subst w'.
    pose proof (after_events_alive es w Halive) as Hstill.
    split; [done|by apply alive_awaits].
  - intros Hthrows d n Htimers. by apply retries_unbounded.
Qed.

Lemma C7_channel_keeps_reconnecting_witness :
  let w := after connectWebSocket (Sample.world (Sample.scripted [])) in
  let w0 := after connectWebSocket
              (Sample.offline (Sample.world (Sample.scripted []))) in
  timers (after (socket_close 0) w) = [reconnect 5000]
  ∧ channel_alive
      (after_events [SocketCloses 0; TimerExpires 0; SocketCloses 1] w)
  ∧ wsAttempts (after_events (replicate 3 (TimerExpires 0)) w0) = 4
  ∧ timers (after_events (replicate 3 (TimerExpires 0)) w0)
    = [reconnect 10000].
Proof.
  intros w w0.
  destruct (C7_channel_keeps_reconnecting w)
    as (Hclose & _ & _ & _ & Halive & _).
  destruct (C7_channel_keeps_reconnecting w0) as (_ & _ & _ & _ & _ & Hretry).
  split.
  { edestruct (Hclose 0) as [Htimers _];
      [reflexivity|reflexivity|exact Htimers]. }
  split.
  { apply Halive. split; [reflexivity|constructor]. }
  edestruct (Hretry (λ _, eq_refl) 10000%Z 3) as [Hattempts Htimers];
    [reflexivity|].
  split; [exact Hattempts|exact Htimers].
Defined.

(** * Further properties *)

(** ** Tools *)

(** Membership in a list given by its elements. *)
Ltac members :=
  repeat match goal with
    | H : context [_ ∈ _ :: _] |- _ => rewrite elem_of_cons in H
    | H : context [_ ∈ []] |- _ => rewrite elem_of_nil in H
    end;
  rewrite ?elem_of_cons, ?elem_of_nil;
  intuition congruence.

#[global] Instance grows_preorder : PreOrder grows.
Proof. split; unfold grows; [by intros ?|intros x y z ? ? id ?; auto]. Qed.

#[global] Hint Unfold handleTicketSubmit resetCreateForm switchTab
  prefillTicketForm loadProfileData loadUserStats : script.

(** Side conditions of proofs that an element is still there. *)
Ltac grows_frame :=
  unfold grows; intros ? ?; project;
  first
    [ assumption
    | apply lookup_insert_is_Some'; by right
    | rewrite lookup_alter_is_Some; assumption
    | rewrite lookup_fmap; by apply fmap_is_Some
    | apply lookup_union_is_Some; by left ].

Lemma loadUserTickets_grows : keeps grows loadUserTickets.
Proof. keeps_by grows_frame. Qed.

(** *** Running a call along the path the facts select *)

Lemma renderTickets_run (l : list Ticket) (w : World) e :
  dom w !! "ticketsGrid" = Some e →
  renderTickets l w
  = (Return tt,
     with_browser
       (set_dom (<["ticketsGrid" :=
                    set_innerHTML (if decide (length l = 0%nat) then [EmptyState]
                                   else TicketCard <$> l) e]> (dom w))) w).
Proof.
  intros He. unfold renderTickets, renderEmptyState.
  case_decide; by apply update_run.
Qed.

Lemma renderPagination_run (total_pages : Z) (w : World) e :
  dom w !! "pagination" = Some e →
  renderPagination total_pages w
  = (Return tt,
     with_browser
       (set_dom (<["pagination" :=
                    set_innerHTML
                      (if decide (total_pages ≤ 1)%Z then []
                       else paginationButtons (currentPage w) total_pages) e]>
                   (dom w)))
       (with_vars (set_totalPages total_pages) w)).
Proof.
  intros He. unfold renderPagination. js. case_decide; js; by rewrite He.
Qed.

Lemma showNotification_run (m t : string) (w : World) e :
  dom w !! "notifications" = Some e →
  showNotification m t w
  = (Return tt,
     with_browser
       (λ b, set_timers (timers b ++ [{| callback := RemoveNotification (nextId w);
                                         delay := 5000 |}]) b)
       (with_browser
          (set_dom (<["notifications" :=
                       set_innerHTML (innerHTML e ++ [Notification (nextId w) m t]) e]>
                      (dom w)))
          (with_browser (set_nextId (S (nextId w))) w))).
Proof. intros He. unfold showNotification. js. by rewrite He. Qed.

Lemma renderChatMessages_run (ms : list Message) (w : World) e :
  dom w !! "chatMessages" = Some e →
  renderChatMessages (MessagesBody ms) w
  = (Return tt,
     with_browser
       (set_dom (<["chatMessages" :=
                    set_innerHTML (if decide (length ms = 0%nat) then [NoMessages]
                                   else chatMessage <$> ms) e]>
                   (dom w)))
       w).
Proof.
  intros He. unfold renderChatMessages.
  destruct (decide _); by rewrite (update_run _ _ _ e He).
Qed.

Lemma run_element_none id (w : World) :
  dom w !! id = None → element id w = (Throw (NullError id), w).
Proof. intros H. unfold element. by rewrite H. Qed.

Lemma update_run_none id f (w : World) :
  dom w !! id = None → update id f w = (Throw (NullError id), w).
Proof. intros H. unfold update. by rewrite H. Qed.

(** Uses the facts that the call itself mentions. *)
Ltac facts_of_call :=
  repeat match goal with
    | H : ?l = _ |- ?m _ = _ =>
        lazymatch l with _ _ => idtac end;
        lazymatch m with context [l] => rewrite H end
    end.

Ltac run_pre :=
  cbv beta iota; lookups; facts_of_call;
  cbn [negb orb andb truthy_id default from_option id tickets_of priority_of
       is_support_of];
  facts_of_call;
  cbn [negb orb andb].

(** Runs each part of a call once: the part is run to its result, and the
    result decides how the call goes on.  Where the facts do not decide, the
    rest of the call is left as it is. *)
Ltac run3 :=
  run_pre;
  lazymatch goal with
  | |- (?m ≫= ?k) ?w = _ =>
      let H := fresh "Hpart" in
      eassert (m w = _) as H by run3;
      lazymatch type of H with
      | _ = (Return ?a, ?w1) =>
          eapply (run_bind m k w a w1); [exact H|]; clear H; run3
      | _ = (Throw ?e, ?w1) => exact (run_bind_throw m k w e w1 H)
      | _ => clear H; stop
      end
  | |- try_catch (?m ≫= ?k) ?h ?w = _ =>
      let H := fresh "Hpart" in
      eassert (m w = _) as H by run3;
      lazymatch type of H with
      | _ = (Return ?a, ?w1) =>
          eapply (run_try_bind m k h w a w1); [exact H|]; clear H; run3
      | _ = (Throw ?e, ?w1) =>
          eapply (run_try_bind_throw m k h w e w1); [exact H|]; clear H; run3
      | _ => clear H; stop
      end
  | |- try_catch ?m ?h ?w = _ =>
      let H := fresh "Hpart" in
      eassert (m w = _) as H by run3;
      lazymatch type of H with
      | _ = (Return ?a, ?w1) => exact (run_try m h w a w1 H)
      | _ = (Throw ?e, ?w1) =>
          eapply (run_catch m h w e w1); [exact H|]; clear H; run3
      | _ => clear H; stop
      end
  | |- try_finally ?m ?final ?w = _ =>
      first
        [ let H := fresh "Hpart" in
          eassert (m w = _) as H by run3;
          lazymatch type of H with
          | _ = (?r, ?w1) =>
              eapply (run_finally m final w r w1); [exact H|]; clear H;
              solve [run3]
          end
        | stop ]
  | |- renderTickets _ _ = _ => first [eapply renderTickets_run; lookup | stop]
  | |- renderPagination _ _ = _ =>
      first [eapply renderPagination_run; lookup | stop]
  | |- renderChatMessages (MessagesBody _) _ = _ =>
      first [eapply renderChatMessages_run; lookup | stop]
  | |- showNotification _ _ _ = _ =>
      first [eapply showNotification_run; lookup | stop]
  | |- element _ _ = _ =>
      first [ eapply run_element; lookup
            | eapply run_element_none; lookups; assumption
            | stop ]
  | |- update _ _ _ = _ =>
      first [ eapply update_run; lookup
            | eapply update_run_none; lookups; assumption
            | stop ]
  | |- authorizedFetch _ _ _ = _ =>
      first [ eapply authorizedFetch_ok_at;
              [sent_solve|eassumption
              |first [assumption|apply ok_not_401; assumption]]
            | eapply authorizedFetch_401_at; [sent_solve|eassumption|assumption]
            | eapply authorizedFetch_rejected_at; [sent_solve|eassumption]
            | stop ]
  | |- throw ?e ?w = _ => exact (eq_refl (Throw e, w))
  | |- detached ?m ?w = _ => exact (eq_refl (Return tt, (m w).2))
  | |- await_both _ _ _ = _ => stop
  | |- mret ?a ?w = _ => exact (eq_refl (Return a, w))
  | |- gets ?f ?w = _ => exact (eq_refl (Return (f w), w))
  | |- modify ?f ?w = _ => exact (eq_refl (Return tt, f w))
  | |- (if decide ?P then _ else _) _ = _ =>
      first [ first [rewrite (decide_True (P:=P)) by done
                    |rewrite (decide_False (P:=P)) by done]; run3
            | stop ]
  | |- (if _ then _ else _) _ = _ => stop
  | |- (match _ with _ => _ end) _ = _ => stop
  | |- ?call = _ =>
      let f := head_of call in
      first [progress (unfold f; cbv zeta); run3 | stop]
  end.

(** ** The ticket list: order, counters, pages *)

Section stable.
Context {A : Type} (key : A → Z).

Lemma insert_sorted_filter (P : A → Prop) `{!∀ x, Decision (P x)} x l :
  (∀ y, P x → key y < key x → ¬ P y)%Z →
  filter P (insert_sorted (λ a b, key a - key b)%Z x l)
  = if decide (P x) then x :: filter P l else filter P l.
Proof.
  intros Hskip. induction l as [|y l IH]; cbn [insert_sorted].
  - by rewrite filter_cons, filter_nil.
  - destruct (decide (key x - key y ≤ 0)%Z) as [Hle|Hle].
    + by rewrite filter_cons.
    + rewrite !(filter_cons _ y), IH.
      destruct (decide (P x)) as [Hx|Hx]; [|done].
      destruct (decide (P y)) as [Hy|Hy]; [|done].
      exfalso. apply (Hskip y); [done|lia|done].
Qed.

(** Elements with the same key keep the order they had. *)
Lemma Array_sort_stable (r : Z) l :
  filter (λ x, key x = r) (Array_sort (λ a b, key a - key b)%Z l)
  = filter (λ x, key x = r) l.
Proof.
  induction l as [|x l IH]; [done|].
  unfold Array_sort in *. cbn [foldr].
  rewrite insert_sorted_filter, IH, filter_cons; [done|].
  intros y -> ? ?. lia.
Qed.
End stable.

(** What an ok answer with a page of tickets leaves on the list view. *)
Lemma loadUserTickets_ok (w : World) (r : Response)
    (tickets : list Ticket) (total_pages : Z) :
  present listView w →
  network w (sent w) (authorized w (ticketsQuery w) no_options) = Responded r →
  ok r = true →
  json r = Some (TicketPage tickets total_pages) →
  let sorted := Array_sort byStatus tickets in
  let w' := after loadUserTickets w in
  innerHTML <$> dom w' !! "ticketsGrid"
    = Some (if decide (length sorted = 0%nat) then [EmptyState]
            else TicketCard <$> sorted)
  ∧ textContent <$> dom w' !! "totalTickets"
    = Some (pretty (Z.of_nat (length sorted)))
  ∧ textContent <$> dom w' !! "openTickets"
    = Some (count (λ s, bool_decide (s = "открыт")) sorted)
  ∧ textContent <$> dom w' !! "progressTickets"
    = Some (count (λ s, bool_decide (s = "в_процессе")) sorted)
  ∧ textContent <$> dom w' !! "resolvedTickets"
    = Some (count (λ s, bool_decide (s = "решен") || bool_decide (s = "закрыт"))
              sorted)
  ∧ innerHTML <$> dom w' !! "pagination"
    = Some (if decide (total_pages ≤ 1)%Z then []
            else paginationButtons (currentPage w) total_pages)
  ∧ totalPages w' = total_pages
  ∧ currentPage w' = currentPage w
  ∧ toasts w' = toasts w.
Proof.
  intros Hpage Hnet Hok Hjson sorted w'. subst sorted w'.
  present_inv Hpage.
  assert (status r ≠ 401%Z) as H401 by by apply ok_not_401.
  eassert (loadUserTickets w = _) as Hrun by run3.
  unfold after; rewrite Hrun; cbn [snd]; clear Hrun.
  unfold toasts; repeat split; lookups; by fields.
Qed.

(** X1. On an answer in which no status is the name of an inherited
    property, tickets of equal status rank (open and unranked statuses; in
    progress; closed) are shown in the order of the answer: the sort moves no
    ticket past one of its own rank. *)
Theorem same_rank_keeps_server_order (w : World) (r : Response)
    (tickets : list Ticket) (total_pages : Z) (k : Z) :
  present listView w →
  network w (sent w) (authorized w (ticketsQuery w) no_options) = Responded r →
  ok r = true →
  json r = Some (TicketPage tickets total_pages) →
  plain_statuses tickets →
  filter (λ t, status_rank (ticket_status t) = k)
    (renderedTickets (after loadUserTickets w))
  = filter (λ t, status_rank (ticket_status t) = k) tickets.
Proof.
  intros Hpage Hnet Hok Hjson Hplain.
  rewrite (loadUserTickets_renders w r tickets total_pages) by done.
  rewrite Array_sort_plain by done.
  apply (Array_sort_stable (λ t, status_rank (ticket_status t)) k tickets).
Qed.

Lemma count_statusCount (statuses : list string) (P : string → bool)
    (tickets : list Ticket) :
  (∀ s, P s = true ↔ s ∈ statuses) →
  count P tickets = pretty (Z.of_nat (statusCount statuses tickets)).
Proof.
  intros HP. unfold count, statusCount. do 3 f_equal.
  apply list_filter_iff. intros t. rewrite Is_true_true. apply HP.
Qed.

Lemma statusCount_perm (statuses : list string) (l1 l2 : list Ticket) :
  l1 ≡ₚ l2 → statusCount statuses l1 = statusCount statuses l2.
Proof. unfold statusCount. by intros ->. Qed.

(** Every ticket falls in exactly one of the groups of a partition of the
    statuses. *)
Lemma statusCount_partition (tickets : list Ticket) :
  (statusCount ["открыт"] tickets + statusCount ["в_процессе"] tickets
   + statusCount ["решен"; "закрыт"] tickets
   + length (filter (λ t, ticket_status t
                          ∉ ["открыт"; "в_процессе"; "решен"; "закрыт"]) tickets)
   = length tickets)%nat.
Proof.
  unfold statusCount. induction tickets as [|t l IH]; [done|].
  rewrite !filter_cons. cbn [length]. rewrite <- IH.
  repeat case_decide; cbn [length]; try lia; exfalso; members.
Qed.

(** X2. After a page of tickets was loaded the four counters show the size of
    the page and the numbers of its tickets with status 'открыт', with status
    'в_процессе', and with status 'решен' or 'закрыт'.  The three status
    counters add up to the total less the tickets with any other status; a
    ticket with status 'в работе', which the sort ranks as in progress, is
    counted in none of them. *)
Theorem counters_after_load (w : World) (r : Response)
    (tickets : list Ticket) (total_pages : Z) :
  present listView w →
  network w (sent w) (authorized w (ticketsQuery w) no_options) = Responded r →
  ok r = true →
  json r = Some (TicketPage tickets total_pages) →
  let w' := after loadUserTickets w in
  let shows id (n : nat) := counter w' id = Some (pretty (Z.of_nat n)) in
  let other := filter (λ t, ticket_status t
                            ∉ ["открыт"; "в_процессе"; "решен"; "закрыт"])
                 tickets in
  shows "totalTickets" (length tickets)
  ∧ shows "openTickets" (statusCount ["открыт"] tickets)
  ∧ shows "progressTickets" (statusCount ["в_процессе"] tickets)
  ∧ shows "resolvedTickets" (statusCount ["решен"; "закрыт"] tickets)
  ∧ (statusCount ["открыт"] tickets + statusCount ["в_процессе"] tickets
     + statusCount ["решен"; "закрыт"] tickets + length other
     = length tickets)%nat
  ∧ (∀ t, t ∈ tickets → ticket_status t = "в работе" → t ∈ other).
Proof.
  intros Hpage Hnet Hok Hjson w' shows other. subst shows.
  destruct (loadUserTickets_ok w r tickets total_pages Hpage Hnet Hok Hjson)
    as (_ & Htotal & Hopen & Hprogress & Hresolved & _).
  pose proof (Array_sort_permutation byStatus tickets) as Hperm.
  unfold counter. fold w' in Htotal, Hopen, Hprogress, Hresolved.
  rewrite Htotal, Hopen, Hprogress, Hresolved.
  rewrite (count_statusCount ["открыт"]), (count_statusCount ["в_процессе"]),
    (count_statusCount ["решен"; "закрыт"]).
  - rewrite !(statusCount_perm _ _ _ Hperm), Hperm.
    repeat split; [apply statusCount_partition|].
    intros t Ht Hstatus. subst other. apply list_elem_of_filter.
    split; [|done]. rewrite Hstatus. members.
  - intros s. rewrite orb_true_iff, !bool_decide_eq_true. members.
  - intros s. rewrite bool_decide_eq_true. members.
  - intros s. rewrite bool_decide_eq_true. members.
Qed.

(** ** Paging *)












(** ** Escaping *)

Lemma append_cons (a : ascii) (s1 s2 : string) :
  String a s1 +:+ s2 = String a (s1 +:+ s2).
Proof. reflexivity. Qed.

Lemma append_empty (s : string) : "" +:+ s = s.
Proof. reflexivity. Qed.

Lemma occurs_app (P : ascii → bool) (s1 s2 : string) :
  occurs P (s1 +:+ s2) = occurs P s1 || occurs P s2.
Proof.
  induction s1 as [|a s1 IH]; [done|].
  rewrite append_cons. cbn [occurs]. by rewrite IH, orb_assoc.
Qed.

Lemma escapeChar_cases (a : ascii) :
  (a = "&"%char ∧ escapeChar a = "&amp;")
  ∨ (a = "<"%char ∧ escapeChar a = "&lt;")
  ∨ (a = ">"%char ∧ escapeChar a = "&gt;")
  ∨ (a = ascii_of_nat 34 ∧ escapeChar a = "&quot;")
  ∨ (a = "'"%char ∧ escapeChar a = "&#039;")
  ∨ (markup a = false ∧ a ≠ "&"%char ∧ escapeChar a = String a "").
Proof.
  unfold escapeChar, markup.
  destruct (Ascii.eqb_spec a "&") as [->|?]; [by left|].
  destruct (Ascii.eqb_spec a "<") as [->|?]; [by right; left|].
  destruct (Ascii.eqb_spec a ">") as [->|?]; [by right; right; left|].
  destruct (Ascii.eqb_spec a (ascii_of_nat 34)) as [->|?];
    [by right; right; right; left|].
  destruct (Ascii.eqb_spec a "'") as [->|?];
    [by right; right; right; right; left|].
  by repeat right.
Qed.

(** X5. [escapeHtml] leaves none of [<], [>], the double and the single quote
    in its result, changes nothing in a text that has none of these and no
    [&], and loses nothing: different texts have different results. *)
Theorem escapeHtml_safe_and_faithful (text : string) :
  occurs markup (escapeHtml text) = false
  ∧ (occurs (λ a, markup a || Ascii.eqb a "&") text = false →
     escapeHtml text = text)
  ∧ (∀ text', escapeHtml text = escapeHtml text' → text = text').
Proof.
  split; [|split].
  - induction text as [|a text IH]; [done|]. cbn [escapeHtml].
    rewrite occurs_app, IH, orb_false_r.
    destruct (escapeChar_cases a)
      as [[_ ->]|[[_ ->]|[[_ ->]|[[_ ->]|[[_ ->]|(Ha & _ & ->)]]]]];
      try done. cbn. by rewrite Ha.
  - induction text as [|a text IH]; [done|]. cbn [occurs escapeHtml].
    intros [[Ha Hamp]%orb_false_elim Hrest]%orb_false_elim.
    rewrite IH by done.
    destruct (escapeChar_cases a)
      as [[-> _]|[[-> _]|[[-> _]|[[-> _]|[[-> _]|(_ & _ & ->)]]]]];
      by rewrite ?append_cons, ?append_empty.
  - induction text as [|a text IH]; intros [|b text']; cbn [escapeHtml].
    + done.
    + destruct (escapeChar_cases b)
        as [[_ ->]|[[_ ->]|[[_ ->]|[[_ ->]|[[_ ->]|(_ & _ & ->)]]]]]; done.
    + destruct (escapeChar_cases a)
        as [[_ ->]|[[_ ->]|[[_ ->]|[[_ ->]|[[_ ->]|(_ & _ & ->)]]]]]; done.
    + destruct (escapeChar_cases a)
        as [[-> ->]|[[-> ->]|[[-> ->]|[[-> ->]|[[-> ->]|(_ & Ha & ->)]]]]];
      destruct (escapeChar_cases b)
        as [[-> ->]|[[-> ->]|[[-> ->]|[[-> ->]|[[-> ->]|(_ & Hb & ->)]]]]];
      rewrite !append_cons, !append_empty; intros Heq; try discriminate;
      simplify_eq; f_equal; auto.
Qed.


(** ** Notifications *)

Lemma filter_keeps_all {A} (P : A → Prop) `{!∀ x, Decision (P x)} (l : list A) :
  Forall P l → filter P l = l.
Proof.
  induction 1 as [|x l Hx _ IH]; [done|]. by rewrite filter_cons_True, IH.
Qed.

Lemma delete_middle {A} (l k : list A) (x : A) :
  delete (length l) (l ++ x :: k) = l ++ k.
Proof. induction l as [|y l IH]; cbn; [done|]. by f_equal. Qed.

(** X6. A notification is put last in the notification area, with a timer of
    5 seconds; when this timer expires, this notification is taken away and
    the others stay. *)
Theorem notification_goes_after_5s (w : World) (m t : string) :
  is_Some (dom w !! "notifications") → fresh_id w →
  let w1 := after (showNotification m t) w in
  let w2 := after (fire (length (timers w))) w1 in
  notifications w1 = notifications w ++ [Notification (nextId w) m t]
  ∧ timers w1 = timers w ++ [{| callback := RemoveNotification (nextId w);
                                delay := 5000 |}]
  ∧ notifications w2 = notifications w
  ∧ timers w2 = timers w.
Proof.
  intros [e He] Hfresh w1 w2. subst w2 w1. unfold fresh_id in Hfresh.
  unfold after, notifications in *. rewrite He in *.
  rewrite (showNotification_run m t w e He). cbn [snd].
  unfold fire. lookups.
  rewrite lookup_app_r, Nat.sub_diag by done. cbn.
  rewrite lookup_alter_eq, lookup_insert_eq. cbn.
  rewrite filter_app, (filter_keeps_all _ _ Hfresh).
  rewrite filter_cons_False, filter_nil, app_nil_r.
  - repeat split. by rewrite delete_middle, app_nil_r.
  - cbn. by rewrite bool_decide_eq_true_2.
Qed.


(** ** What [finally] guarantees, and a failed submission *)

Lemma classList_remove_contains c e :
  classList_contains c (classList_remove c e) = false.
Proof.
  unfold classList_contains, classList_remove. cbn.
  apply bool_decide_eq_false. rewrite list_elem_of_filter. by intros [? _].
Qed.

(** X7. Whatever the server answers and whatever the rendering does,
    [loadUserTickets] leaves the loading indicator switched off. *)
Theorem loading_indicator_goes_off (w : World) :
  is_Some (dom w !! "loading") →
  loading (after loadUserTickets w) = Some false.
Proof.
  intros [e He]. unfold loading, after, loadUserTickets, showLoading.
  unfold mbind at 1, Js_bind at 1. rewrite (update_run _ _ _ e He).
  unfold try_finally.
  lazymatch goal with
  | |- context [match ?body ?w1 with _ => _ end] =>
      assert (grows w1 (body w1).2) as Hstays
        by (apply (keeps_try_catch grows);
            [keeps_by grows_frame|intros ?; keeps_by grows_frame]);
      destruct (body w1) as [res w2]
  end.
  destruct (Hstays "loading") as [e2 He2]; [lookups; by eexists|].
  cbn [snd] in He2. rewrite (update_run _ _ _ e2 He2). cbn [snd].
  lookups. by rewrite classList_remove_contains.
Qed.

(** X8. Whatever the server answers, [handleTicketSubmit] hands the submit
    button back: it is enabled again and carries the label it had. *)
Theorem submit_button_is_restored (w : World) (button : Element) :
  dom w !! "submitTicket" = Some button →
  let w' := after handleTicketSubmit w in
  disabled <$> dom w' !! "submitTicket" = Some false
  ∧ innerHTML <$> dom w' !! "submitTicket" = Some (innerHTML button).
Proof.
  intros Hbutton w'. subst w'.
  assert (∃ e2, dom (after handleTicketSubmit w) !! "submitTicket"
                = Some (set_innerHTML (innerHTML button) (set_disabled false e2)))
    as [e2 ->]; [|done].
  unfold after, handleTicketSubmit.
  unfold mbind at 1, Js_bind at 1. rewrite (run_element _ _ _ Hbutton).
  unfold mbind at 1, Js_bind at 1. rewrite (update_run _ _ _ _ Hbutton).
  unfold mbind at 1, Js_bind at 1. erewrite update_run by lookup.
  unfold try_finally.
  lazymatch goal with
  | |- context [match ?body ?w1 with _ => _ end] =>
      assert (grows w1 (body w1).2) as Hstays
        by (apply (keeps_try_catch grows);
            [keeps_by grows_frame|intros ?; keeps_by grows_frame]);
      destruct (body w1) as [res w2]
  end.
  destruct (Hstays "submitTicket") as [e2 He2]; [lookups; by eexists|].
  cbn [snd] in He2. unfold mbind, Js_bind.
  rewrite (update_run _ _ _ e2 He2). erewrite update_run by lookup.
  cbn [snd]. lookups. by eexists.
Qed.

(** X9. When the server turns the new ticket down, [handleTicketSubmit] sends
    nothing else, keeps what the user typed in all five fields, keeps the
    session's email, and shows one toast, an error.  When the answer is JSON
    with a text as its [detail], the toast shows this text, or the fallback
    text if it is empty. *)
Theorem rejected_ticket_keeps_the_form (w : World) (r : Response) :
  present createForm w →
  is_Some (dom w !! "notifications") →
  network w (sent w)
    (authorized w (plain (API_BASE_URL +:+ "/tickets/")) (post (formData w)))
    = Responded r →
  ok r = false → status r ≠ 401%Z →
  let w' := after handleTicketSubmit w in
  requests w'
  = requests w ++
      [authorized w (plain (API_BASE_URL +:+ "/tickets/")) (post (formData w))]
  ∧ Forall (λ id, field w' id = field w id)
      ["ticketTitle"; "ticketDescription"; "ticketCategory"; "reporterName";
       "reporterEmail"]
  ∧ userEmail w' = userEmail w
  ∧ ∃ message,
      toasts w' = toasts w ++ [(message, "error")]
      ∧ ∀ d, json r = Some (DetailBody d) →
             message = if decide (d = "") then "Ошибка создания тикета" else d.
Proof.
  intros Hform [toastsEl Htoasts] Hnet Hok H401 w'. subst w'.
  unfold present, createForm in Hform.
  repeat match type of Hform with
    | Forall _ (_ :: _) =>
        let Hx := fresh "Hel" in
        let e := fresh "el" in
        apply Forall_cons in Hform as [[e Hx] Hform]
    end; clear Hform.
  unfold formData, field in Hnet. rewrite Hel0, Hel1, Hel2, Hel3, Hel4 in Hnet.
  cbn in Hnet.
  destruct (json r) as [data|] eqn:Hjson.
  all: eassert (handleTicketSubmit w = _) as Hrun by run3.
  all: unfold after; rewrite Hrun; cbn [snd]; clear Hrun.
  all: split; [|split; [|split]].
  all: unfold field; repeat first [apply Forall_cons; split | by apply Forall_nil].
  all: try first
    [ by project
    | solve [lookups; done]
    | unfold requests, formData, field, authorized, getAuthHeaders; project;
      rewrite Hel0, Hel1, Hel2, Hel3, Hel4, !omap_app;
      cbn [omap list_omap request_of fmap option_fmap option_map default
           from_option id];
      by rewrite ?app_nil_r ].
  all: eexists; split;
    [unfold toasts; lookups; fields; by rewrite omap_app|].
  - intros d [= ->]. cbn [exn_message Error detail_or].
    destruct (JsString.truthy d) eqn:Hd.
    + rewrite Hd. apply truthy_nonempty in Hd. by rewrite decide_False.
    + apply not_true_iff_false in Hd. rewrite truthy_nonempty in Hd.
      apply dec_stable in Hd. subst d. by rewrite decide_True.
  - intros d [=].
Qed.


(** ** The live channel: messages *)

Lemma notificationMessage_truthy (n : WsNotification) (t : Ticket) :
  event n ∈ ["created"; "updated"; "comment_added"] →
  JsString.truthy (notificationMessage n t) = true.
Proof.
  intros Hevent. unfold notificationMessage. cbv zeta.
  repeat case_decide; try done. exfalso. members.
Qed.

Lemma notificationMessage_other (n : WsNotification) (t : Ticket) :
  event n ∉ ["created"; "updated"; "comment_added"] →
  notificationMessage n t = "".
Proof.
  intros Hevent. unfold notificationMessage. cbv zeta.
  repeat case_decide; try done; exfalso; members.
Qed.

(** X10. A message of the live channel never makes its handler throw, and it
    changes nothing unless it is one of the three ticket events about a
    ticket of the session's user: text that does not parse, the connection
    acknowledgement, any other event, a message without a ticket and a
    ticket of somebody else are dropped. *)
Theorem foreign_messages_are_dropped (w : World) (data : option WsNotification) :
  outcome (onmessage data) w = Return tt
  ∧ ((∀ n t, data = Some n → ¬ concerns w n t) →
     onmessage data w = (Return tt, w)).
Proof.
  split.
  - unfold outcome, onmessage, try_catch.
    by destruct (_ w) as [[[]|e] w1].
  - intros Hforeign. unfold onmessage, try_catch.
    destruct data as [n|]; [|done].
    case_decide as Hack; [|done].
    unfold handleWebSocketNotification. js.
    destruct (ticket n) as [t|] eqn:Ht; [|done].
    case_decide as Hmine; [|done].
    rewrite notificationMessage_other; [done|].
    intros Hevent. by apply (Hforeign n t).
Qed.

Lemma loadUserTickets_more_toasts : keeps more_toasts loadUserTickets.
Proof. keeps_by toast_frame. Qed.

(** X11. A ticket event about a ticket of the session's user is announced by
    one success toast that names the ticket by its title in double quotes:
    that the ticket was created, that it was updated, or that it has a new
    comment.  The list is fetched again exactly when the list tab is the
    one on display. *)
Theorem own_ticket_event_is_announced (w : World) (n : WsNotification)
    (t : Ticket) :
  concerns w n t →
  is_Some (dom w !! "notifications") → is_Some (dom w !! "loading") →
  let w' := after (onmessage (Some n)) w in
  let title := JsString.quote +:+ ticket_title t +:+ JsString.quote in
  ∃ text,
    ((event n = "created" ∧ text = "Тикет " +:+ title +:+ " создан")
     ∨ (event n = "updated" ∧ text = "Тикет " +:+ title +:+ " обновлен")
     ∨ (event n = "comment_added"
        ∧ text = "Новый комментарий к тикету " +:+ title))
    ∧ toasts w ++ [(text, "success")] `prefix_of` toasts w'
    ∧ requests w'
      = requests w ++ (if home_active w
                       then [authorized w (ticketsQuery w) no_options] else [])
    ∧ (home_active w = false → toasts w' = toasts w ++ [(text, "success")]).
Proof.
  intros (Hevent & Ht & Hmine) [toastsEl Htoasts] [loadingEl Hloading] w' title.
  subst w' title.
  pose proof (notificationMessage_truthy n t Hevent) as Hmessage.
  assert (event n ≠ "connected") as Hack by (intros E; rewrite E in Hevent; members).
  exists (notificationMessage n t). split.
  { unfold notificationMessage. cbv zeta.
    repeat case_decide; [by left|by (right; left)|by (right; right)|].
    exfalso. members. }
  unfold home_active.
  destruct (dom w !! "home-tab") as [home|] eqn:Hhome;
    [destruct (classList_contains "active" home) eqn:Hactive|].
  all: eassert (onmessage (Some n) w = _) as Hrun by run3.
  all: unfold after; rewrite Hrun; cbn [snd]; clear Hrun.
  - lazymatch goal with
    | |- context [loadUserTickets ?w1] =>
        pose proof (loadUserTickets_more_toasts w1) as Hmore;
        pose proof (loadUserTickets_requests w1) as Hreq
    end.
    unfold more_toasts, after in Hmore, Hreq.
    rewrite Hreq by (lookups; by eexists). clear Hreq.
    split; [|split; [|done]].
    + etrans; [|exact Hmore]. unfold toasts. lookups. fields.
      by rewrite omap_app.
    + unfold requests. by project.
  - cbn [snd]. rewrite app_nil_r. unfold toasts, requests. lookups. fields.
    by rewrite omap_app.
  - cbn [snd]. rewrite app_nil_r. unfold toasts, requests. lookups. fields.
    by rewrite omap_app.
Qed.

(** ** The support console: tabs and queues *)

Lemma insert_before_found (tab : string) (new before rest : list Node) (n : Node) :
  Forall (λ x, is_nav tab x = false) before → is_nav tab n = true →
  insert_before tab new (before ++ n :: rest)
  = Some (before ++ new ++ n :: rest).
Proof.
  intros Hbefore Hn. induction Hbefore as [|x before Hx _ IH]; cbn.
  - by rewrite Hn.
  - by rewrite Hx, IH.
Qed.

Lemma insert_before_missing (tab : string) (new l : list Node) :
  Forall (λ x, is_nav tab x = false) l → insert_before tab new l = None.
Proof.
  induction 1 as [|x l Hx _ IH]; cbn; [done|]. by rewrite Hx, IH.
Qed.

Lemma is_nav_false (tab : string) (x : Node) :
  is_nav tab x = false ↔ ∀ a, x ≠ NavItem tab a.
Proof.
  destruct x; cbn; try (split; [by intros _ ?|done]).
  rewrite bool_decide_eq_false. split.
  - intros Hne a [= -> _]. done.
  - intros Hne ->. by apply (Hne active).
Qed.

(** X12. For support staff [setupSupportInterface] puts a link to the
    unassigned and a link to the assigned queue, in this order and neither
    active, right before the first profile link, and keeps the links around
    them in their order; and it adds the four elements of the two support
    sections without touching an element that is there already.  On a
    navigation without a profile link it throws before it has changed
    anything. *)
Theorem support_tabs_go_before_profile (w : World) (nav : Element) :
  isSupportUser w = true →
  dom w !! ".nav-list" = Some nav →
  (Forall (λ x, ∀ a, x ≠ NavItem "profile" a) (innerHTML nav) →
   ∃ e, setupSupportInterface w = (Throw e, w))
  ∧ (∀ before active rest,
       innerHTML nav = before ++ NavItem "profile" active :: rest →
       Forall (λ x, ∀ a, x ≠ NavItem "profile" a) before →
       is_Some (dom w !! "main .container") →
       let w' := after setupSupportInterface w in
       innerHTML <$> dom w' !! ".nav-list"
         = Some (before
                 ++ [NavItem "unassigned" false; NavItem "assigned" false]
                 ++ NavItem "profile" active :: rest)
       ∧ Forall (λ id, is_Some (dom w' !! id))
           ["unassigned-tab"; "unassignedTicketsGrid"; "assigned-tab";
            "assignedTicketsGrid"]
       ∧ ∀ id e, id ≠ ".nav-list" → dom w !! id = Some e →
                 dom w' !! id = Some e).
Proof.
  intros Hsupport Hnav. split.
  - intros Hnone.
    assert (Forall (λ x, is_nav "profile" x = false) (innerHTML nav)) as Hnone'
      by (eapply Forall_impl; [exact Hnone|]; intros x; apply is_nav_false).
    apply (insert_before_missing _ supportTabs) in Hnone'.
    eexists. by run3.
  - intros before active rest Hitems Hbefore [container Hcontainer] w'.
    subst w'.
    assert (Forall (λ x, is_nav "profile" x = false) before) as Hbefore'
      by (eapply Forall_impl; [exact Hbefore|]; intros x; apply is_nav_false).
    pose proof (insert_before_found "profile" supportTabs before rest
                  (NavItem "profile" active) Hbefore' eq_refl) as Hinsert.
    rewrite <- Hitems in Hinsert.
    eassert (setupSupportInterface w = _) as Hrun by run3.
    unfold after. rewrite Hrun. cbn [snd]. clear Hrun. project.
    split; [|split].
    + by rewrite (lookup_union_Some_l _ _ ".nav-list"
                    (set_innerHTML
                       (before ++ supportTabs ++ NavItem "profile" active :: rest)
                       nav))
        by (by rewrite lookup_insert_eq).
    + repeat (apply Forall_cons; split;
                [apply lookup_union_is_Some; right; eexists; vm_compute;
                 reflexivity|]).
      by apply Forall_nil.
    + intros id e Hid He. apply lookup_union_Some_l.
      by rewrite lookup_insert_ne.
Qed.

(** X13. For support staff each queue sends its one request and shows the
    tickets of an ok answer in the order of the answer, every card of the
    unassigned queue with the accept button and every card of the assigned
    queue with the chat button; an empty queue shows the placeholder.  A
    queue whose grid is not on the page shows nothing and no toast.  An
    answer that is not ok leaves the grid as it was and shows the error
    toast of the queue. *)
Theorem queues_show_the_answer (unassigned : bool) (w : World) (r : Response) :
  isSupportUser w = true →
  network w (sent w) (queueRequest unassigned w) = Responded r →
  status r ≠ 401%Z →
  let w' := after (loadQueue unassigned) w in
  let grid w := innerHTML <$> dom w !! queueGrid unassigned in
  requests w' = requests w ++ [queueRequest unassigned w]
  ∧ (∀ tickets total_pages,
       ok r = true → json r = Some (TicketPage tickets total_pages) →
       toasts w' = toasts w
       ∧ (is_Some (dom w !! queueGrid unassigned) →
          grid w' = Some (if decide (length tickets = 0%nat) then [NoTickets]
                          else (λ t, SupportTicketCard t unassigned) <$> tickets))
       ∧ (dom w !! queueGrid unassigned = None → dom w' = dom w))
  ∧ (ok r = false → is_Some (dom w !! "notifications") →
     toasts w' = toasts w ++ [(queueError unassigned, "error")]
     ∧ grid w' = grid w).
Proof.
  intros Hsupport Hnet H401 w' grid. subst w' grid. split.
  { destruct unassigned; cbn [loadQueue queueRequest].
    - by rewrite loadUnassignedTickets_requests, Hsupport.
    - by rewrite loadAssignedTickets_requests, Hsupport. }
  split.
  - intros tickets total_pages Hok Hjson.
    destruct (decide (length tickets = 0%nat)) as [Hnil|Hcons];
      destruct (dom w !! queueGrid unassigned) as [gridEl|] eqn:Hgrid;
      destruct unassigned; cbn [loadQueue queueRequest queueGrid] in *.
    all: lazymatch goal with
         | |- context [after ?f ?w0] => eassert (f w0 = _) as Hrun by run3
         end.
    all: unfold after; rewrite Hrun; cbn [snd]; clear Hrun.
    all: unfold toasts; repeat split; try done; try intros _; lookups;
      by fields.
  - intros Hok [toastsEl Htoasts].
    destruct unassigned; cbn [loadQueue queueRequest queueGrid queueError] in *.
    all: lazymatch goal with
         | |- context [after ?f ?w0] => eassert (f w0 = _) as Hrun by run3
         end.
    all: unfold after; rewrite Hrun; cbn [snd]; clear Hrun.
    all: unfold toasts; split; lookups; fields; by rewrite ?omap_app.
Qed.

(** ** The accept dialog *)

Lemma loadTicketForAccept_same_vars t : keeps (same vars) (loadTicketForAccept t).
Proof. unfold loadTicketForAccept. keeps_by ltac:(reflexivity). Qed.

Lemma loadTicketForAccept_frame t id :
  id ∉ ["acceptTicketDetails"; "notifications"] →
  keeps (same (λ w, dom w !! id)) (loadTicketForAccept t).
Proof.
  intros Hid. unfold loadTicketForAccept.
  keeps_by ltac:(unfold same; project;
                 first [ reflexivity
                       | rewrite lookup_insert_ne; [reflexivity|];
                         intros <-; apply Hid; members ]).
Qed.

Lemma loadTicketForAccept_requests t (w : World) :
  requests (after (loadTicketForAccept t) w) = requests w ++ [ticketRequest w t].
Proof.
  unfold after, loadTicketForAccept.
  lazymatch goal with
  | |- requests (try_catch (?m ≫= ?k) ?h ?w).2 = _ =>
      assert (same requests (m w).2 (try_catch (m ≫= k) h w).2) as ->
        by (apply try_catch_first;
            first [apply _|intros ?; keeps_by ltac:(reflexivity)])
  end.
  by rewrite authorizedFetch_requests.
Qed.

Lemma confirmAcceptTicket_idle (w : World) :
  currentAcceptTicketId w = None → confirmAcceptTicket w = (Return tt, w).
Proof. intros Hnone. unfold confirmAcceptTicket. run3. Qed.

(** X14. The accept dialog, opened for ticket [t] and then dismissed with its
    cross or its cancel button: opening points [currentAcceptTicketId] at [t]
    and shows the dialog; the dismissal hides it and clears the pointer, so a
    later click on the confirm button changes nothing and sends nothing.  The
    only request of the whole exchange is the one for the preview. *)
Theorem accept_dialog_dismissed (w : World) (t button : string) :
  present ["acceptTicketModal"; "closeAcceptModal"; "cancelAccept";
           "confirmAccept"] w →
  button ∈ ["closeAcceptModal"; "cancelAccept"] →
  let w1 := after (showAcceptTicketModal t) w in
  let w2 := after (click button) w1 in
  (currentAcceptTicketId w1 = Some t
   ∧ display <$> dom w1 !! "acceptTicketModal" = Some "flex")
  ∧ (currentAcceptTicketId w2 = None
     ∧ display <$> dom w2 !! "acceptTicketModal" = Some "none")
  ∧ after (click "confirmAccept") w2 = w2
  ∧ requests w2 = requests w ++ [ticketRequest w t].
Proof.
  intros Hp Hb w1 w2. present_inv Hp.
  set (w0 := after (loadTicketForAccept t)
               (with_vars (set_currentAcceptTicketId (Some t)) w)).
  assert (vars w0 = set_currentAcceptTicketId (Some t) (vars w)) as Hvars
    by apply (loadTicketForAccept_same_vars t).
  assert (requests w0 = requests w ++ [ticketRequest w t]) as Hreq
    by (unfold w0; by rewrite loadTicketForAccept_requests).
  assert (∀ id, id ∈ ["acceptTicketModal"; "closeAcceptModal"; "cancelAccept";
                      "confirmAccept"] → dom w0 !! id = dom w !! id) as Hdom.
  { intros id Hid.
    assert (id ∉ ["acceptTicketDetails"; "notifications"]) as Hout
      by (intros Hin; revert Hid Hin; members).
    exact (loadTicketForAccept_frame t id Hout _). }
  pose proof (Hdom "acceptTicketModal" ltac:(members)) as Hmodal.
  pose proof (Hdom "closeAcceptModal" ltac:(members)) as Hcross.
  pose proof (Hdom "cancelAccept" ltac:(members)) as Hcancel.
  pose proof (Hdom "confirmAccept" ltac:(members)) as Hconfirm.
  rewrite Hel in Hmodal. rewrite Hel0 in Hcross. rewrite Hel1 in Hcancel.
  rewrite Hel2 in Hconfirm. clear Hdom.
  eassert (showAcceptTicketModal t w = _) as Hshow.
  { unfold showAcceptTicketModal.
    eapply run_bind; [reflexivity|]. eapply run_bind; [reflexivity|].
    change (loadTicketForAccept t _).2 with w0.
    eapply run_bind; [eapply update_run; eassumption|].
    eapply run_bind; [eapply update_run; lookup|].
    eapply run_bind; [eapply update_run; lookup|].
    eapply update_run; lookup. }
  subst w2 w1.
  lazymatch type of Hshow with
  | _ = (_, ?w1) =>
      replace (after (showAcceptTicketModal t) w) with w1
        by (unfold after; by rewrite Hshow)
  end.
  clearbody w0. clear Hshow.
  assert (button = "closeAcceptModal" ∨ button = "cancelAccept") as [-> | ->]
    by (revert Hb; members).
  all: lazymatch goal with
       | |- context [after (click ?b) ?w1] =>
           eassert (click b w1 = _) as Hclick
             by (unfold click, getElementById;
                 eapply run_bind; [reflexivity|];
                 lookups; cbn [mbind option_bind onclick set_onclick run];
                 unfold closeAcceptModal; run3);
           lazymatch type of Hclick with
           | _ = (_, ?w2) =>
               replace (after (click b) w1) with w2
                 by (unfold after; by rewrite Hclick)
           end; clear Hclick
       end.
  all: repeat split.
  all: try (project; by rewrite ?Hvars).
  all: try (lookups; reflexivity).
  all: try (unfold requests in *; project; exact Hreq).
  all: lazymatch goal with
       | |- after (click ?b) ?w2 = _ =>
           eassert (click b w2 = _) as Hclick
             by (unfold click, getElementById;
                 eapply run_bind; [reflexivity|];
                 lookups; cbn [mbind option_bind onclick set_onclick run];
                 unfold detached;
                 rewrite confirmAcceptTicket_idle by (project; reflexivity);
                 reflexivity);
           unfold after; by rewrite Hclick
       end.
Qed.

(** ** Closing a ticket *)

Lemma try_catch_returns (m : Js unit) h (w : World) :
  (∀ e, ∃ w2, h e (m w).2 = (Return tt, w2)) →
  try_catch m h w = (Return tt, after (try_catch m h) w).
Proof.
  intros Hh. unfold after, try_catch.
  destruct (m w) as [[[]|e] w1]; [done|].
  cbn [snd] in Hh. by destruct (Hh e) as [w2 ->].
Qed.

Lemma loadUnassignedTickets_returns (w : World) :
  is_Some (dom w !! "notifications") →
  loadUnassignedTickets w = (Return tt, after loadUnassignedTickets w).
Proof.
  intros Hn. unfold after.
  assert (∃ w', loadUnassignedTickets w = (Return tt, w')) as [w' ->]; [|done].
  unfold loadUnassignedTickets, mbind at 1, Js_bind at 1, gets at 1.
  destruct (isSupportUser w); cbn [negb]; [|by eexists].
  eexists. apply try_catch_returns. intros e.
  lazymatch goal with
  | |- context [(?body w).2] =>
      assert (keeps grows body) as Hstays by keeps_by grows_frame
  end.
  destruct (Hstays w "notifications" Hn) as [el Hel].
  eexists. by apply (showNotification_run _ _ _ el).
Qed.

Lemma loadAssignedTickets_returns (w : World) :
  is_Some (dom w !! "notifications") →
  loadAssignedTickets w = (Return tt, after loadAssignedTickets w).
Proof.
  intros Hn. unfold after.
  assert (∃ w', loadAssignedTickets w = (Return tt, w')) as [w' ->]; [|done].
  unfold loadAssignedTickets, mbind at 1, Js_bind at 1, gets at 1.
  destruct (isSupportUser w); cbn [negb]; [|by eexists].
  eexists. apply try_catch_returns. intros e.
  lazymatch goal with
  | |- context [(?body w).2] =>
      assert (keeps grows body) as Hstays by keeps_by grows_frame
  end.
  destruct (Hstays w "notifications" Hn) as [el Hel].
  eexists. by apply (showNotification_run _ _ _ el).
Qed.

Lemma loadUnassignedTickets_grows : keeps grows loadUnassignedTickets.
Proof. keeps_by grows_frame. Qed.

Lemma loadAssignedTickets_grows : keeps grows loadAssignedTickets.
Proof. keeps_by grows_frame. Qed.



(** ** The bearer token *)

#[global] Instance signs_requests_preorder : PreOrder signs_requests.
Proof.
  split.
  - intros w. split; [done|]. exists []. by rewrite app_nil_r.
  - intros x y z [Hxy (l1 & Hl1 & Hs1)] [Hyz (l2 & Hl2 & Hs2)].
    split; [congruence|]. exists (l1 ++ l2).
    rewrite Hl2, Hl1, <- app_assoc. split; [done|].
    apply Forall_app. split; [done|]. by rewrite <- Hxy.
Qed.










(** ** Changing the priority of the open ticket *)

Lemma refresh_queues h (w : World) :
  is_Some (dom w !! "notifications") →
  let w' := after (try_catch (loadUnassignedTickets;; loadAssignedTickets) h) w in
  vars w' = vars w
  ∧ (∀ id, id ∉ queueOutputs → dom w' !! id = dom w !! id)
  ∧ more_toasts w w'
  ∧ requests w'
    = requests w ++ (if isSupportUser w
                     then [unassignedRequest w; assignedRequest w] else []).
Proof.
  intros Hn w'. subst w'.
  set (w1 := after loadUnassignedTickets w).
  set (w2 := after loadAssignedTickets w1).
  assert (is_Some (dom w1 !! "notifications")) as Hn1
    by (by apply loadUnassignedTickets_grows).
  assert (loadUnassignedTickets w = (Return tt, w1)) as Hu
    by (by apply loadUnassignedTickets_returns).
  assert (loadAssignedTickets w1 = (Return tt, w2)) as Ha
    by (by apply loadAssignedTickets_returns).
  unfold after at 1 2 3 4.
  rewrite (run_try _ h w tt w2) by (eapply run_bind; [exact Hu|exact Ha]).
  cbn [snd].
  assert (vars w1 = vars w) as Hvars1 by apply loadUnassignedTickets_same_vars.
  split; [|split; [|split]].
  - rewrite <- Hvars1. apply loadAssignedTickets_same_vars.
  - intros id Hid. unfold w2, w1, after.
    by rewrite (loadAssignedTickets_frame id), (loadUnassignedTickets_frame id).
  - trans w1; [apply loadUnassignedTickets_more_toasts
              |apply loadAssignedTickets_more_toasts].
  - unfold w2. rewrite loadAssignedTickets_requests. unfold w1.
    rewrite loadUnassignedTickets_requests. fold w1.
    unfold assignedRequest. rewrite (authorized_vars w w1 _ _ Hvars1), Hvars1.
    destruct (isSupportUser w); by rewrite <- app_assoc.
Qed.

Lemma restylePriority_head f (l : list Node) :
  head (omap priority_badge (restylePriority f l))
  = f <$> head (omap priority_badge l).
Proof. induction l as [|[] l IH]; cbn; done. Qed.

Lemma restylePriority_none f (l : list Node) :
  existsb is_details l = false → restylePriority f l = l.
Proof.
  induction l as [|n l IH]; [done|]. cbn [existsb].
  intros [Hn Hl]%orb_false_iff. destruct n; cbn; try done; by rewrite IH.
Qed.

Lemma no_details_no_badge (l : list Node) :
  existsb is_details l = false → head (omap priority_badge l) = None.
Proof.
  induction l as [|n l IH]; [done|]. cbn [existsb].
  intros [Hn Hl]%orb_false_iff. destruct n; cbn; try done; by apply IH.
Qed.

Lemma restyle_classes (old : list string) (new text : string) (b : Badge) :
  let b' := restyle old new text b in
  badge_text b' = text
  ∧ new ∈ badge_classes b'
  ∧ (∀ c, c ∈ badge_classes b' → c ∈ old → c = new)
  ∧ (∀ c, c ∉ old → c ∈ badge_classes b → c ∈ badge_classes b').
Proof.
  cbn. split; [done|]. case_decide as Hnew.
  - split; [done|]. split.
    + by intros c [Hc _]%list_elem_of_filter Hold.
    + intros c Hc Hb. by apply list_elem_of_filter.
  - split; [apply elem_of_app; right; members|]. split.
    + intros c [[Hc _]%list_elem_of_filter|Hc%list_elem_of_singleton]%elem_of_app Hold;
        done.
    + intros c Hc Hb. apply elem_of_app. left. by apply list_elem_of_filter.
Qed.

(** X17. [updateTicketPriority] for the ticket of the open chat, answered by
    the server.  On an ok answer that carries the ticket with one of the four
    priorities of the select, the select shows that priority, the priority
    badge of the details carries its text and its class and no other
    priority class, the pointer stays, the success toast is shown and both
    queues are refreshed.  On an error answer the select and the badge stay
    as they were, nothing else is sent, and one error toast carries the text
    of the answer. *)
Theorem priority_update_outcomes (w : World) (t : string) (sel : Element)
    (r : Response) :
  currentTicketId w = Some t → t ≠ "" →
  dom w !! "chatPriority" = Some sel →
  is_Some (dom w !! "notifications") →
  network w (sent w) (priorityRequest w t (value sel)) = Responded r →
  status r ≠ 401%Z →
  let w' := after (updateTicketPriority (Some t)) w in
  (∀ t' label, ok r = true → json r = Some (TicketBody t') →
     (ticket_priority t', label)
       ∈ [("низкий", "Низкий"); ("средний", "Средний");
          ("высокий", "Высокий"); ("критический", "Критический")] →
     let p := ticket_priority t' in
     value <$> dom w' !! "chatPriority" = Some p
     ∧ (∀ b, shown_priority w = Some b →
          ∃ b', shown_priority w' = Some b'
                ∧ badge_text b' = label
                ∧ "priority-" +:+ p ∈ badge_classes b'
                ∧ ∀ c, c ∈ badge_classes b' →
                       c ∈ ["priority-низкий"; "priority-средний";
                            "priority-высокий"; "priority-критический";
                            "priority-не_определён"] →
                       c = "priority-" +:+ p)
     ∧ currentTicketId w' = Some t
     ∧ toasts w ++ [("Приоритет тикета обновлен!", "success")]
         `prefix_of` toasts w'
     ∧ requests w'
       = requests w ++ [priorityRequest w t (value sel)]
           ++ (if isSupportUser w
               then [unassignedRequest w; assignedRequest w] else []))
  ∧ (ok r = false →
     dom w' !! "chatPriority" = Some sel
     ∧ shown_priority w' = shown_priority w
     ∧ currentTicketId w' = Some t
     ∧ toasts w'
       = toasts w
           ++ [("Ошибка при обновлении приоритета: Ошибка обновления приоритета: "
                +:+ text r, "error")]
     ∧ requests w' = requests w ++ [priorityRequest w t (value sel)]).
Proof.
  intros Ht Hid Hsel [toastsEl Htoasts] Hnet H401 w'. subst w'.
  apply truthy_nonempty in Hid. unfold priorityRequest in *.
  assert (bool_decide (Some t ≠ Some t) = false) as Hsame
    by (apply bool_decide_eq_false; by intros []).
  split; [intros t' label Hok Hjson Hlabel|intros Hok].
  - assert (ticket_priority t' ∈ priorityOptions
            ∧ getPriorityText (ticket_priority t') = label) as [Hp Htext].
    { repeat (apply elem_of_cons in Hlabel as [Hlabel|Hlabel];
              [injection Hlabel as Hp ->; rewrite Hp;
               split; [unfold priorityOptions; members|reflexivity]|]).
      by apply elem_of_nil in Hlabel. }
    clear Hlabel.
    destruct (dom w !! "supportTicketDetails") as [det|] eqn:Hdet;
      [destruct (has_details det) eqn:Hhas|].
    all: eassert (updateTicketPriority (Some t) w = _) as Hrun by run3.
    all: unfold after; rewrite Hrun; clear Hrun.
    all: lazymatch goal with
      | |- context [try_catch ?m ?h ?w3] =>
          destruct (refresh_queues h w3) as (Hvars & Hdom & Hmore & Hreq);
            [lookups; by eexists|];
          pose proof (Hdom "chatPriority" ltac:(unfold queueOutputs; members))
            as Hselect;
          pose proof (Hdom "supportTicketDetails"
                        ltac:(unfold queueOutputs; members)) as Hdetails;
          clear Hdom;
          unfold after, shown_priority in *;
          rewrite Hvars, Hselect, Hdetails, Hreq;
          clear Hvars Hselect Hdetails Hreq
      end.
    all: split; [|split; [|split; [|split]]].
    all: try (lookups; fields; unfold select_value; by rewrite decide_True).
    all: try by project.
    all: try (etrans; [|exact Hmore]; unfold toasts; lookups; fields;
              by rewrite omap_app).
    all: try (unfold requests, unassignedRequest, assignedRequest, authorized,
                getAuthHeaders; project;
              rewrite !omap_app; cbn [omap list_omap request_of];
              by rewrite ?app_nil_r, <- ?app_assoc).
    all: clear Hmore; intros b Hb; rewrite Hdet in Hb;
      cbn [mbind option_bind] in Hb.
    + lookups. cbn [mbind option_bind]. fields.
      rewrite restylePriority_head, Hb. eexists. split; [reflexivity|].
      destruct (restyle_classes priorityClasses
                  ("priority-" +:+ ticket_priority t')
                  (getPriorityText (ticket_priority t')) b)
        as (Hshown & ? & ? & _).
      by rewrite Htext in Hshown.
    + unfold has_details in Hhas. by rewrite no_details_no_badge in Hb.
    + done.
  - eassert (updateTicketPriority (Some t) w = _) as Hrun by run3.
    unfold after; rewrite Hrun; clear Hrun. cbn [snd].
    split; [|split; [|split; [|split]]].
    + by lookups.
    + unfold shown_priority. by lookups.
    + by project.
    + unfold toasts; lookups; fields; by rewrite omap_app.
    + unfold requests, authorized, getAuthHeaders; project.
      rewrite !omap_app; cbn [omap list_omap request_of].
      by rewrite ?app_nil_r, <- ?app_assoc.
Qed.

(** ** Opening the support chat *)

Lemma shown_is_visible e :
  bool_decide (display (showSupportModal e) = "block")
  && classList_contains "active" (showSupportModal e) = true.
Proof.
  unfold showSupportModal, classList_contains.
  apply andb_true_intro. split; apply bool_decide_eq_true.
  - unfold classList_add. by destruct (decide _).
  - apply classList_add_elem.
Qed.

(** X18. [openSupportTicketModal] with the ticket and its messages answered
    ok: the pointer is the ticket asked for, the modal is on display, the
    details show the ticket of the answer and the chat its messages in the
    order of the answer (a placeholder if there are none).  Three requests
    go out, the last one marking the ticket read; its answer is not looked
    at, but if that call is rejected the toast for a failed load is shown
    over the open chat.  The ticket controls are added once: on a modal
    without them the select starts at the ticket's priority (at the lowest
    one if the priority is none of the four); on a modal that has them
    already the select keeps the value it had. *)
Theorem chat_opens (w : World) (t : string) (r1 r2 : Response) (tk : Ticket)
    (ms : list Message) (read : FetchResult) :
  present chatModal w → is_Some (dom w !! "notifications") →
  network w (sent w) (ticketRequest w t) = Responded r1 →
  ok r1 = true → json r1 = Some (TicketBody tk) →
  network w (S (sent w)) (messagesRequest w t) = Responded r2 →
  ok r2 = true → json r2 = Some (MessagesBody ms) →
  network w (S (S (sent w))) (markReadRequest w t) = read →
  let w' := after (openSupportTicketModal t) w in
  currentTicketId w' = Some t
  ∧ modal_visible w' = true
  ∧ open_ticket w' = Some tk
  ∧ chat w' = (if decide (length ms = 0%nat) then [NoMessages]
               else (λ m, ChatMessage (msg_is_support m) (msg_content m)
                            (msg_author_name m) (msg_created_at m)) <$> ms)
  ∧ requests w' = requests w ++ [ticketRequest w t; messagesRequest w t;
                                 markReadRequest w t]
  ∧ toasts w' = toasts w ++ match read with
                            | Responded _ => []
                            | Rejected _ => [("Ошибка загрузки тикета", "error")]
                            end
  ∧ (dom w !! ".ticket-controls" = None → has_controls_slot w = true →
     dom w !! "chatPriority" = None →
     value <$> dom w' !! "chatPriority"
     = Some (if decide (ticket_priority tk
                        ∈ ["низкий"; "средний"; "высокий"; "критический"])
             then ticket_priority tk else "низкий"))
  ∧ (∀ sel, is_Some (dom w !! ".ticket-controls") →
       dom w !! "chatPriority" = Some sel →
       value <$> dom w' !! "chatPriority" = Some (value sel)).
Proof.
  intros Hp [toastsEl Htoasts] Hnet1 Hok1 Hjson1 Hnet2 Hok2 Hjson2 Hnet3 w'.
  subst w'. unfold chatModal in Hp. present_inv Hp.
  unfold ticketRequest, messagesRequest, messagesUrl, markReadRequest in *.
  revert Hnet3.
  destruct (dom w !! ".ticket-controls") as [controls|] eqn:Hcontrols;
    [|destruct (has_controls_slot w) eqn:Hslot; unfold has_controls_slot in Hslot].
  all: eassert (openSupportTicketModal t w = _) as Hrun by run3.
  all: intros Hnet3; unfold after; rewrite Hrun; clear Hrun.
  all: destruct read as [r3|e];
    [destruct (decide (status r3 = 401%Z)) as [H401|H401]|].
  all: lazymatch goal with
       | |- context [try_catch ?m ?h ?w3] =>
           eassert (try_catch m h w3 = _) as Hrun by run3;
           rewrite Hrun; clear Hrun; cbn [snd]
       end.
  all: split; [by project|].
  all: split;
    [unfold modal_visible; lookups; apply shown_is_visible|].
  all: split; [unfold open_ticket; by lookups|].
  all: split; [unfold chat; by lookups|].
  all: split;
    [ unfold requests, authorized, getAuthHeaders; project;
      rewrite !omap_app; cbn [omap list_omap request_of];
      by rewrite ?app_nil_r, <- ?app_assoc
    |].
  all: split; [unfold toasts; lookups; fields; by rewrite ?omap_app, ?app_nil_r|].
  all: split;
    [ intros Hfresh Hslot' Hselect; try congruence;
      lookups; rewrite lookup_union_r by (lookups; exact Hselect); by cbn
    | intros sel [c Hc] Hselect; try congruence; by lookups ].
Qed.

(** ** Switching tabs *)

(** Side conditions of frame proofs about an element the call does not
    write to. *)
Ltac untouched :=
  unfold same; project;
  rewrite ?lookup_insert_ne by distinct;
  rewrite ?lookup_alter_ne by distinct;
  reflexivity.

Lemma tab_loader_frame (tab s : string) :
  s ∈ tabSections →
  keeps (same (λ w, dom w !! s))
    (if decide (tab = "home") then detached loadUserTickets
     else if decide (tab = "create") then prefillTicketForm
     else if decide (tab = "unassigned") then detached loadUnassignedTickets
     else if decide (tab = "assigned") then detached loadAssignedTickets
     else if decide (tab = "profile") then loadProfileData
     else mret tt).
Proof.
  intros Hs.
  assert (s ∉ listOutputs) as Hlist
    by (intros Hin; unfold tabSections, listOutputs, listView in *;
        cbn [app] in Hin; members).
  assert (s ∉ queueOutputs) as Hqueue
    by (intros Hin; unfold tabSections, queueOutputs in *; members).
  repeat case_decide.
  - apply keeps_detached. by apply loadUserTickets_frame.
  - repeat (apply elem_of_cons in Hs as [->|Hs]); [..|by apply elem_of_nil in Hs].
    all: keeps_by untouched.
  - apply keeps_detached. by apply loadUnassignedTickets_frame.
  - apply keeps_detached. by apply loadAssignedTickets_frame.
  - repeat (apply elem_of_cons in Hs as [->|Hs]); [..|by apply elem_of_nil in Hs].
    all: keeps_by untouched.
  - apply keeps_ret. apply _.
Qed.

Lemma sectionOf_table (tab s : string) :
  sectionOf tab = Some s
  ↔ (tab, s) ∈ [("home", "home-tab"); ("create", "create-tab");
                ("unassigned", "unassigned-tab"); ("assigned", "assigned-tab");
                ("profile", "profile")].
Proof.
  split.
  - unfold sectionOf. repeat case_decide; intros [= <-]; subst tab;
      repeat first [apply list_elem_of_here | apply list_elem_of_further].
  - intros Hin.
    repeat (apply elem_of_cons in Hin as [[= -> ->]|Hin]; [reflexivity|]).
    by apply elem_of_nil in Hin.
Qed.

(** X19. [switchTab], given a plain name, shows the section of that tab and
    no other: home-tab for home, create-tab for create, unassigned-tab for
    unassigned, assigned-tab for assigned, profile for profile.  Of the five
    sections on the page, this one is displayed and active, and every other
    one is hidden and not active; with a name that is none of the five, all
    end up hidden. *)
Theorem switchTab_shows_one_section (w : World) (tab s : string) (e : Element) :
  plain_name tab →
  s ∈ tabSections → dom w !! s = Some e →
  classList_contains "tab-content" e = true →
  let target :=
    bool_decide ((tab, s) ∈ [("home", "home-tab"); ("create", "create-tab");
                             ("unassigned", "unassigned-tab");
                             ("assigned", "assigned-tab");
                             ("profile", "profile")]) in
  ∃ e', dom (after (switchTab tab) w) !! s = Some e'
        ∧ display e' = (if target then "block" else "none")
        ∧ classList_contains "active" e' = target.
Proof.
  intros _ Hs He Hclass target.
  assert (target = bool_decide (sectionOf tab = Some s)) as ->
    by (subst target; apply bool_decide_ext; symmetry; apply sectionOf_table).
  destruct (sectionOf tab) as [section|] eqn:Hsection.
  all: eassert (switchTab tab w = _) as Hrun
    by (unfold switchTab;
        eapply run_bind; [reflexivity|];
        eapply run_bind; [reflexivity|];
        eapply run_bind; [rewrite Hsection; reflexivity|];
        reflexivity).
  all: unfold after; rewrite Hrun; clear Hrun.
  all: rewrite (tab_loader_frame tab s Hs).
  all: assert (s ≠ ".nav-list") as Hnav
    by (intros ->; unfold tabSections in Hs; members).
  all: assert (hideSection e
               = set_display "none" (classList_remove "active" e)) as Hhidden
    by (unfold hideSection; by rewrite Hclass).
  all: project.
  - destruct (decide (section = s)) as [->|Hother].
    + rewrite lookup_alter_eq, lookup_fmap, lookup_alter_ne, He by done.
      eexists. split; [reflexivity|].
      rewrite bool_decide_eq_true_2 by done.
      split; [done|].
      apply bool_decide_eq_true. cbn. apply classList_add_elem.
    + rewrite lookup_alter_ne, lookup_fmap, lookup_alter_ne, He by done.
      eexists. split; [reflexivity|]. rewrite Hhidden.
      rewrite bool_decide_eq_false_2 by congruence.
      split; [done|]. apply classList_remove_contains.
  - rewrite lookup_fmap, lookup_alter_ne, He by done.
    eexists. split; [reflexivity|]. rewrite Hhidden.
    split; [done|]. apply classList_remove_contains.
Qed.

(** ** A list that does not load *)

(** X20. When the list request fails in any way (it is rejected, answered
    401 or with another error status, or the answer is not a page of
    tickets), [loadUserTickets] shows one error toast and the empty state in
    the grid.  The counters and the pagination bar keep what they showed,
    the page number and the page count stay, and the loading indicator is
    switched off. *)
Theorem failed_list_load (w : World) :
  present listView w → is_Some (dom w !! "notifications") →
  usable_page (network w (sent w) (authorized w (ticketsQuery w) no_options))
  = false →
  let w' := after loadUserTickets w in
  innerHTML <$> dom w' !! "ticketsGrid" = Some [EmptyState]
  ∧ toasts w' = toasts w ++ [("Ошибка загрузки тикетов", "error")]
  ∧ Forall (λ id, dom w' !! id = dom w !! id)
      ["totalTickets"; "openTickets"; "progressTickets"; "resolvedTickets";
       "pagination"]
  ∧ totalPages w' = totalPages w ∧ currentPage w' = currentPage w
  ∧ loading w' = Some false
  ∧ requests w' = requests w ++ [authorized w (ticketsQuery w) no_options].
Proof.
  intros Hpage [toastsEl Htoasts] Hfail w'. subst w'. present_inv Hpage.
  destruct (network w (sent w) (authorized w (ticketsQuery w) no_options))
    as [r|e] eqn:Hnet; cbn [usable_page] in Hfail;
    [destruct (decide (status r = 401%Z)) as [H401|H401];
       [|destruct (ok r) eqn:Hok; cbn [andb] in Hfail;
           [destruct (json r) as [[]|] eqn:Hjson; try discriminate Hfail|]]|].
  all: clear Hfail.
  all: eassert (loadUserTickets w = _) as Hrun by run3.
  all: unfold after; rewrite Hrun; cbn [snd]; clear Hrun.
  all: unfold loading, toasts.
  all: repeat first [split | apply Forall_cons | apply Forall_nil].
  all: first
    [ by project
    | solve [lookups; fields; done]
    | lookups; fields; by rewrite omap_app
    | lookups; fields; by rewrite classList_remove_contains
    | unfold requests, authorized, getAuthHeaders; project;
      rewrite !omap_app; cbn [omap list_omap request_of];
      by rewrite ?app_nil_r, <- ?app_assoc ].
Qed.

(** ** The properties on the sample pages *)

Lemma same_rank_keeps_server_order_witness :
  filter (λ t, status_rank (ticket_status t) = 1%Z)
    (renderedTickets (after loadUserTickets Demo.listing))
  = filter (λ t, status_rank (ticket_status t) = 1%Z) Demo.tickets.
Proof.
  apply (same_rank_keeps_server_order Demo.listing Demo.page_answer
           Demo.tickets 5 1);
    [by repeat constructor|reflexivity|reflexivity|reflexivity|].
  repeat constructor; by apply (bool_decide_unpack _).
Defined.

Lemma counters_after_load_witness :
  counter (after loadUserTickets Demo.listing) "totalTickets"
  = Some (pretty (Z.of_nat (length Demo.tickets))).
Proof.
  destruct (counters_after_load Demo.listing Demo.page_answer Demo.tickets 5)
    as (Htotal & _);
    [by repeat constructor|reflexivity|reflexivity|reflexivity|].
  exact Htotal.
Defined.



Lemma escapeHtml_safe_and_faithful_witness :
  escapeHtml "Printer 7" = "Printer 7".
Proof.
  destruct (escapeHtml_safe_and_faithful "Printer 7") as (_ & Hsame & _).
  apply Hsame. reflexivity.
Defined.

Lemma notification_goes_after_5s_witness :
  notifications
    (after (fire (length (timers Demo.listing)))
       (after (showNotification "Готово" "success") Demo.listing))
  = notifications Demo.listing.
Proof.
  destruct (notification_goes_after_5s Demo.listing "Готово" "success")
    as (_ & _ & Hgone & _); [by eexists|by constructor|].
  exact Hgone.
Defined.

Lemma loading_indicator_goes_off_witness :
  loading (after loadUserTickets Demo.listing) = Some false.
Proof. apply (loading_indicator_goes_off Demo.listing). by eexists. Defined.

Lemma submit_button_is_restored_witness :
  disabled <$> dom (after handleTicketSubmit Demo.listing) !! "submitTicket"
  = Some false.
Proof.
  destruct (submit_button_is_restored Demo.listing
              (set_innerHTML [Markup "Создать тикет"] blank)) as [Henabled _];
    [reflexivity|].
  exact Henabled.
Defined.

Lemma rejected_ticket_keeps_the_form_witness :
  userEmail (after handleTicketSubmit Demo.failing) = userEmail Demo.failing.
Proof.
  destruct (rejected_ticket_keeps_the_form Demo.failing (Sample.answer 500 None))
    as (_ & _ & Hemail & _);
    [by repeat constructor|by eexists|reflexivity|reflexivity|discriminate|].
  exact Hemail.
Defined.

Lemma foreign_messages_are_dropped_witness :
  onmessage None Demo.listing = (Return tt, Demo.listing).
Proof.
  destruct (foreign_messages_are_dropped Demo.listing None) as [_ Hdropped].
  apply Hdropped. intros n t Hdata. discriminate Hdata.
Defined.

Lemma own_ticket_event_is_announced_witness :
  requests (after (onmessage (Some Demo.created)) Demo.listing)
  = requests Demo.listing
      ++ (if home_active Demo.listing
          then [authorized Demo.listing (ticketsQuery Demo.listing) no_options]
          else []).
Proof.
  destruct (own_ticket_event_is_announced Demo.listing Demo.created
              Sample.ticket2) as (text & _ & _ & Hrequests & _);
    [ split; [by left|split; reflexivity] | by eexists | by eexists |].
  exact Hrequests.
Defined.

Lemma support_tabs_go_before_profile_witness :
  innerHTML <$> dom (after setupSupportInterface (Sample.support Demo.listing))
                  !! ".nav-list"
  = Some [NavItem "home" true; NavItem "create" false;
          NavItem "unassigned" false; NavItem "assigned" false;
          NavItem "profile" false].
Proof.
  destruct (support_tabs_go_before_profile (Sample.support Demo.listing)
              (set_innerHTML [NavItem "home" true; NavItem "create" false;
                              NavItem "profile" false] blank))
    as [_ Hplaced]; [reflexivity|reflexivity|].
  destruct (Hplaced [NavItem "home" true; NavItem "create" false] false [])
    as (Hnav & _); [reflexivity| |by eexists|].
  { repeat (apply Forall_cons; split; [by intros a|]). by apply Forall_nil. }
  exact Hnav.
Defined.

Lemma queues_show_the_answer_witness :
  requests (after (loadQueue true) (Sample.support Demo.failing))
  = requests (Sample.support Demo.failing)
      ++ [queueRequest true (Sample.support Demo.failing)].
Proof.
  destruct (queues_show_the_answer true (Sample.support Demo.failing)
              (Sample.answer 500 None)) as (Hrequests & _);
    [reflexivity|reflexivity|discriminate|].
  exact Hrequests.
Defined.

Lemma accept_dialog_dismissed_witness :
  after (click "confirmAccept")
    (after (click "cancelAccept")
       (after (showAcceptTicketModal "7c9e6679") Demo.failing))
  = after (click "cancelAccept")
      (after (showAcceptTicketModal "7c9e6679") Demo.failing).
Proof.
  destruct (accept_dialog_dismissed Demo.failing "7c9e6679" "cancelAccept")
    as (_ & _ & Hidle & _); [by repeat constructor|by right; left|].
  exact Hidle.
Defined.


Lemma priority_update_outcomes_witness :
  currentTicketId (after (updateTicketPriority (Some "7c9e6679")) Demo.managing)
  = Some "7c9e6679".
Proof.
  destruct (priority_update_outcomes Demo.managing "7c9e6679"
              (set_value "средний" blank) (Sample.answer 500 None))
    as [_ Hfailed];
    [reflexivity|discriminate|reflexivity|by eexists|reflexivity|discriminate|].
  destruct Hfailed as (_ & _ & Hpointer & _); [reflexivity|exact Hpointer].
Defined.

Lemma chat_opens_witness :
  modal_visible (after (openSupportTicketModal "7c9e6679") Demo.opening) = true.
Proof.
  destruct (chat_opens Demo.opening "7c9e6679"
              (Sample.answer 200 (Some (TicketBody Sample.ticket2)))
              (Sample.answer 200 (Some (MessagesBody [Sample.message1])))
              Sample.ticket2 [Sample.message1]
              (Responded (Sample.answer 200 None)))
    as (_ & Hvisible & _);
    [ by repeat constructor | by eexists | reflexivity | reflexivity
    | reflexivity | reflexivity | reflexivity | reflexivity | reflexivity |].
  exact Hvisible.
Defined.

Lemma switchTab_shows_one_section_witness :
  ∃ e', dom (after (switchTab "create") Demo.listing) !! "home-tab" = Some e'
        ∧ display e' = "none"
        ∧ classList_contains "active" e' = false.
Proof.
  apply (switchTab_shows_one_section Demo.listing "create" "home-tab"
           (set_classList ["tab-content"] blank));
    [reflexivity|by left|reflexivity|reflexivity].
Defined.

Lemma failed_list_load_witness :
  innerHTML <$> dom (after loadUserTickets Demo.failing) !! "ticketsGrid"
  = Some [EmptyState].
Proof.
  destruct (failed_list_load Demo.failing) as (Hgrid & _);
    [by repeat constructor|by eexists|reflexivity|].
  exact Hgrid.
Defined.
